(** * mzident_writer.writer: the incremental MzIdentML document writer

    A shallow embedding of [mzident_writer/writer.py] together with the
    properties its specification states about it.

    The module drives two collaborators that live outside of it: the
    streaming XML serializer (lxml's incremental writer, reached through
    [etree.xmlfile], [element] and the writer object) and the catalogue of
    element builders of [components.py].  Both are modelled here at their
    interface; every method of [writer.py] is transcribed from its source.

    Python objects are modelled by the type [value]; a computation is a
    function from the interpreter state to an outcome (a result or a raised
    exception) and a new state, so that mutations made before an exception
    is raised stay visible, as in Python. *)

From Stdlib Require Import ZArith String List Bool Lia.
From stdpp Require Import base list strings.

Local Open Scope string_scope.
Local Open Scope list_scope.

(** ** Python values *)

(** The objects that flow through [writer.py].  [VDict] keeps the insertion
    order of the mapping (a lookup takes the first entry of a key);
    [VGen g] is a reference to the generator stored at index [g] of the
    heap; [VObj cls args kwargs] is an instance of the component class
    [cls], recorded with the arguments it was built from; [VWriter] is the
    incremental file writer returned by [xmlfile.__enter__];
    [VScope tag args kwargs] is the context manager of one XML element.
    Floating-point numbers are left out: the module only passes scalars
    on. *)
#[warnings="-register-all"]
Inductive value : Type :=
| VNone
| VBool (b : bool)
| VInt (z : Z)
| VStr (s : string)
| VList (xs : list value)
| VTuple (xs : list value)
| VDict (kvs : list (value * value))
| VGen (g : nat)
| VObj (cls : string) (args : list value) (kwargs : list (string * value))
| VWriter
| VScope (tag : string) (args : list value) (kwargs : list (string * value)).

(** Truth value of an object ([bool(obj)]); components, writers, element
    managers and generators are plain objects, which are true. *)
Definition truthy (v : value) : bool :=
  match v with
  | VNone => false
  | VBool b => b
  | VInt z => negb (Z.eqb z 0)
  | VStr s => negb (String.eqb s "")
  | VList xs | VTuple xs => negb (Nat.eqb (length xs) 0)
  | VDict kvs => negb (Nat.eqb (length kvs) 0)
  | VGen _ | VObj _ _ _ | VWriter | VScope _ _ _ => true
  end.

(** [a or b] *)
Definition py_or (a b : value) : value := if truthy a then a else b.

(** [isinstance(obj, Iterable)]; components, writers and element managers
    are not iterable. *)
Definition is_iterable (v : value) : bool :=
  match v with
  | VStr _ | VList _ | VTuple _ | VDict _ | VGen _ => true
  | _ => false
  end.

(** [isinstance(obj, basestring)] *)
Definition is_basestring (v : value) : bool :=
  match v with VStr _ => true | _ => false end.

(** [isinstance(obj, Mapping)] *)
Definition is_mapping (v : value) : bool :=
  match v with VDict _ => true | _ => false end.

(** [isinstance(obj, (list, tuple))] *)
Definition is_list_or_tuple (v : value) : bool :=
  match v with VList _ | VTuple _ => true | _ => false end.

(** [writer.py], lines 13-16. *)
Definition ensure_iterable (obj : value) : value :=
  if negb (is_iterable obj) || is_basestring obj || is_mapping obj
  then VList [obj]
  else obj.

(** [_t = tuple()] *)
Definition _t : value := VTuple [].

(** The elements of an iterable that is held in memory, in iteration
    order: the members of a list or tuple, the keys of a mapping, the
    characters of a string.  Generators are iterated through the heap. *)
Fixpoint chars (s : string) : list value :=
  match s with
  | EmptyString => []
  | String c r => VStr (String c EmptyString) :: chars r
  end.

Definition items (v : value) : option (list value) :=
  match v with
  | VList xs | VTuple xs => Some xs
  | VDict kvs => Some (map fst kvs)
  | VStr s => Some (chars s)
  | _ => None
  end.

(** ** Exceptions, state and computations *)

Definition not_created_message : string :=
  "This writer has not yet been created. Make sure to use this object as a context manager using the `with` notation or by explicitly calling its __enter__ and __exit__ methods.".

(** [ValueError not_created_message] is the error of lines 35 and 48, the
    specification's [NotReadyError].  [ValidationError] is raised by a
    component that rejects its arguments and [ScopeViolationError] by the
    serializer; both are named after the specification's taxonomy. *)
Inductive exn : Type :=
| AttributeError
| TypeError
| ValueError (msg : string)
| ValidationError
| ScopeViolationError.

Definition NotReadyError : exn := ValueError not_created_message.

Inductive outcome (A : Type) : Type :=
| Ok (a : A)
| Raise (e : exn).
Arguments Ok {A} a.
Arguments Raise {A} e.

(** Where a generator takes its items from: a sequence held in memory, of
    which [pending] is still to come, or another generator. *)
Inductive source : Type :=
| SItems (pending : list value)
| SFrom (g : nat).

(** What a generator does with each item [s] of its source:
    [BPlain] yields it as it is (a generator supplied by the caller);
    [BEntity cls] is [self.cls( **(s or {}))];
    [BResult] is [self._spectrum_identification_result( **(s or {}))]. *)
Inductive gbody : Type :=
| BPlain
| BEntity (cls : string)
| BResult.

Record generator : Type := Generator { src : source; body : gbody }.

(** Life cycle of the serializer behind [self.xmlfile]. *)
Inductive phase : Type := Fresh | Live | Finished.

(** What the collaborators are asked to do, in order. *)
Inductive event : Type :=
| ENew (cls : string) (args : list value) (kwargs : list (string * value))
| EAcquire
| EOpen (tag : string) (args : list value) (kwargs : list (string * value))
| EWrite (args : list value) (kwargs : list (string * value))
| EClose (tag : string)
| EFlush
| EFinish
| ESinkClose.

(** The interpreter state: the fields of the [MzIdentMLWriter] instance
    ([writer], [toplevel], [vocabularies]), the serializer and its sink
    ([status], [scopes] innermost first, [sink_open]), the generators
    ([heap]) and the calls made so far ([trace]). *)
Record state : Type := State {
  writer : value;
  toplevel : value;
  vocabularies : list value;
  status : phase;
  scopes : list string;
  sink_open : bool;
  heap : list generator;
  trace : list event
}.

Definition set_writer (v : value) (st : state) : state :=
  State v (toplevel st) (vocabularies st) (status st) (scopes st)
        (sink_open st) (heap st) (trace st).
Definition set_toplevel (v : value) (st : state) : state :=
  State (writer st) v (vocabularies st) (status st) (scopes st)
        (sink_open st) (heap st) (trace st).
Definition set_vocabularies (vs : list value) (st : state) : state :=
  State (writer st) (toplevel st) vs (status st) (scopes st)
        (sink_open st) (heap st) (trace st).
Definition set_status (p : phase) (st : state) : state :=
  State (writer st) (toplevel st) (vocabularies st) p (scopes st)
        (sink_open st) (heap st) (trace st).
Definition set_scopes (ss : list string) (st : state) : state :=
  State (writer st) (toplevel st) (vocabularies st) (status st) ss
        (sink_open st) (heap st) (trace st).
Definition set_sink_open (b : bool) (st : state) : state :=
  State (writer st) (toplevel st) (vocabularies st) (status st) (scopes st)
        b (heap st) (trace st).
Definition set_heap (h : list generator) (st : state) : state :=
  State (writer st) (toplevel st) (vocabularies st) (status st) (scopes st)
        (sink_open st) h (trace st).
Definition set_trace (t : list event) (st : state) : state :=
  State (writer st) (toplevel st) (vocabularies st) (status st) (scopes st)
        (sink_open st) (heap st) t.

Definition M (A : Type) : Type := state -> outcome A * state.

#[global] Instance M_ret : MRet M := fun A a st => (Ok a, st).
#[global] Instance M_bind : MBind M := fun A B f m st =>
  match m st with
  | (Ok a, st') => f a st'
  | (Raise e, st') => (Raise e, st')
  end.

Definition raise {A : Type} (e : exn) : M A := fun st => (Raise e, st).
Definition get : M state := fun st => (Ok st, st).
Definition modify (f : state -> state) : M unit := fun st => (Ok tt, f st).
Definition log (e : event) : M unit :=
  modify (fun st => set_trace (trace st ++ [e]) st).

(** [try: m except AttributeError: handler] *)
Definition try_except_AttributeError {A : Type} (m handler : M A) : M A :=
  fun st =>
    match m st with
    | (Raise AttributeError, st') => handler st'
    | r => r
    end.

(** [for x in xs: f(x)] over a sequence held in memory, collecting the
    results (a list comprehension). *)
Fixpoint mapM {A B : Type} (f : A -> M B) (xs : list A) : M (list B) :=
  match xs with
  | [] => mret []
  | x :: r => y ← f x; ys ← mapM f r; mret (y :: ys)
  end.

(** ** The element builders of [components.py] *)

(** Modelled from the spec: the catalogue of element builders,
    [components.py], is not among the sources.  The specification describes
    the builders as mappings from a data shape to a tag, built from a plain
    mapping, which may reject their arguments with a validation error.  An
    instance of class [cls] is therefore the record [VObj cls args kwargs]
    of its construction; which arguments a class accepts ([accepts]) and
    what an attribute of an instance holds ([attr], used for [owner.id])
    are left open. *)
Class Components : Type := {
  accepts : string -> list value -> list (string * value) -> bool;
  attr : value -> string -> option value
}.

(** Modelled from the spec: [self.cls( *args, **kwargs)], the call of a
    builder of [components.py]. *)
Definition construct `{Components} (cls : string) (args : list value)
    (kwargs : list (string * value)) : M value :=
  if accepts cls args kwargs
  then log (ENew cls args kwargs) ;; mret (VObj cls args kwargs)
  else raise ValidationError.

(** Modelled from the spec: [obj.name] for an instance [obj] of a builder
    of [components.py]; any other object here has no attribute. *)
Definition getattr `{Components} (obj : value) (name : string) : M value :=
  match obj with
  | VObj _ _ _ =>
      match attr obj name with
      | Some v => mret v
      | None => raise AttributeError
      end
  | _ => raise AttributeError
  end.

(** ** Keyword arguments *)

Fixpoint str_keys (kvs : list (value * value)) : option (list (string * value)) :=
  match kvs with
  | [] => Some []
  | (VStr k, v) :: r =>
      match str_keys r with
      | Some kw => Some ((k, v) :: kw)
      | None => None
      end
  | _ => None
  end.

(** [**obj]: the object must be a mapping whose keys are strings. *)
Definition unpack (obj : value) : M (list (string * value)) :=
  match obj with
  | VDict kvs =>
      match str_keys kvs with
      | Some kw => mret kw
      | None => raise TypeError
      end
  | _ => raise TypeError
  end.

Fixpoint lookup_kw (k : string) (kw : list (string * value)) : option value :=
  match kw with
  | [] => None
  | (k', v) :: r => if String.eqb k k' then Some v else lookup_kw k r
  end.

(** Binding of keyword arguments to the parameters of a method defined in
    [writer.py]: a keyword that names no parameter and a missing parameter
    without default are both a [TypeError]. *)
Definition check_keywords (params : list string) (kw : list (string * value)) : M unit :=
  if forallb (fun p => existsb (String.eqb (fst p)) params) kw
  then mret tt
  else raise TypeError.

Definition required (k : string) (kw : list (string * value)) : M value :=
  match lookup_kw k kw with
  | Some v => mret v
  | None => raise TypeError
  end.

Definition optional (k : string) (default : value) (kw : list (string * value)) : value :=
  match lookup_kw k kw with
  | Some v => v
  | None => default
  end.

(** ** The streaming serializer

    lxml's incremental writer and the [element] function of
    [components.py] are collaborators outside of the sources.  Following
    sections 4.1 and 6 of the specification the serializer opens named
    elements, writes nodes into the innermost open element, closes elements
    in strict reverse order of opening and flushes on demand; it works only
    between the acquisition of the sink and its final close.  Calling a
    method of [None] is Python's [AttributeError]. *)

(** Modelled from the spec: [self.xmlfile.__enter__()], the acquisition of
    the serializer, which returns the writer. *)
Definition xmlfile_enter : M value :=
  st ← get;
  match status st with
  | Fresh => modify (set_status Live) ;; log EAcquire ;; mret VWriter
  | _ => raise ScopeViolationError
  end.

(** Modelled from the spec: [self.xmlfile.__exit__(exc_type, exc_value,
    traceback)], the final close of the serializer. *)
Definition xmlfile_exit (exc : option exn) : M unit :=
  st ← get;
  match status st with
  | Live => modify (set_status Finished) ;; log EFinish
  | _ => raise ScopeViolationError
  end.

(** Modelled from the spec: [self.outfile.close()], the release of the
    output sink. *)
Definition outfile_close : M unit :=
  modify (set_sink_open false) ;; log ESinkClose.

(** Modelled from the spec: [components.element(xml_file, tag, **kwargs)],
    the context manager of a new element of the writer [xml_file]. *)
Definition components_element (xml_file : value) (tag : string)
    (kwargs : list (string * value)) : M value :=
  match xml_file with
  | VWriter => mret (VScope tag [] kwargs)
  | _ => raise AttributeError
  end.

(** Modelled from the spec: [obj.element(xml_file, **kwargs)] for a
    component [obj] of [components.py]. *)
Definition method_element (obj xml_file : value)
    (kwargs : list (string * value)) : M value :=
  match obj, xml_file with
  | VObj cls args kw, VWriter => mret (VScope cls args (kw ++ kwargs))
  | _, _ => raise AttributeError
  end.

(** Modelled from the spec: [cm.__enter__()], which opens the element. *)
Definition scope_enter (cm : value) : M unit :=
  match cm with
  | VScope tag args kw =>
      st ← get;
      match status st with
      | Live =>
          modify (fun st => set_scopes (tag :: scopes st) st) ;;
          log (EOpen tag args kw)
      | _ => raise ScopeViolationError
      end
  | _ => raise AttributeError
  end.

(** Modelled from the spec: [cm.__exit__(exc_type, exc_value, traceback)],
    which closes the element; only the innermost open element can be
    closed. *)
Definition scope_exit (cm : value) (exc : option exn) : M unit :=
  match cm with
  | VScope tag _ _ =>
      st ← get;
      match status st, scopes st with
      | Live, top :: rest =>
          if String.eqb top tag
          then modify (set_scopes rest) ;; log (EClose tag)
          else raise ScopeViolationError
      | _, _ => raise ScopeViolationError
      end
  | _ => raise AttributeError
  end.

(** Modelled from the spec: [xml_file.write( *args, **kwargs)]. *)
Definition writer_write (xml_file : value) (args : list value)
    (kwargs : list (string * value)) : M unit :=
  match xml_file with
  | VWriter =>
      st ← get;
      match status st with
      | Live => log (EWrite args kwargs)
      | _ => raise ScopeViolationError
      end
  | _ => raise AttributeError
  end.

(** Modelled from the spec: [xml_file.flush()]. *)
Definition writer_flush (xml_file : value) : M unit :=
  match xml_file with
  | VWriter =>
      st ← get;
      match status st with
      | Live => log EFlush
      | _ => raise ScopeViolationError
      end
  | _ => raise AttributeError
  end.

(** [with cm: body].  The element managers return nothing from
    [__exit__], so an exception of the body is not suppressed; an
    exception of [__exit__] itself replaces it. *)
Definition leaving {A : Type} (cm : value) (body : M A) : M A :=
  fun st =>
    match body st with
    | (Ok a, st') =>
        match scope_exit cm None st' with
        | (Ok _, st'') => (Ok a, st'')
        | (Raise e, st'') => (Raise e, st'')
        end
    | (Raise e, st') =>
        match scope_exit cm (Some e) st' with
        | (Ok _, st'') => (Raise e, st'')
        | (Raise e', st'') => (Raise e', st'')
        end
    end.

Definition py_with {A : Type} (cm : value) (body : M A) : M A :=
  scope_enter cm ;; leaving cm body.

(** ** Generators and iteration *)

Definition finished (c : generator) : generator :=
  Generator (SItems []) (body c).

(** An exception that leaves the frame of generator [g] finishes it. *)
Definition closing {A : Type} (g : nat) (m : M A) : M A :=
  fun st =>
    match m st with
    | (Raise e, st') => (Raise e, set_heap (alter finished g (heap st')) st')
    | r => r
    end.

(** Number of items still held by the in-memory sources of the heap: no
    loop over a generator runs longer. *)
Definition pending_total (h : list generator) : nat :=
  foldr (fun c n => match src c with
                    | SItems p => length p + n
                    | SFrom _ => n
                    end) 0 h.

(** [self.cls( **(s or {}))], the expression every section operation applies
    to the items of its collection arguments. *)
Definition build `{Components} (cls : string) (s : value) : M value :=
  kw ← unpack (py_or s (VDict []));
  construct cls [] kw.

(** The parameters of [_spectrum_identification_item] (lines 202-204) and of
    [_spectrum_identification_result] (line 194). *)
Definition item_parameters : list string :=
  ["calculated_mass_to_charge"; "experimental_mass_to_charge"; "charge_state";
   "peptide_id"; "peptide_evidence_id"; "score"; "id"; "cv_params";
   "pass_threshold"; "rank"].

Definition result_parameters : list string :=
  ["spectrum_id"; "id"; "spectra_data_id"; "identifications"].

(** [MzIdentMLWriter._spectrum_identification_item], lines 202-208. *)
Definition _spectrum_identification_item `{Components}
    (calculated_mass_to_charge experimental_mass_to_charge charge_state
     peptide_id peptide_evidence_id score id cv_params pass_threshold rank : value)
    : M value :=
  construct "SpectrumIdentificationItem"
    [calculated_mass_to_charge; experimental_mass_to_charge; charge_state;
     peptide_id; peptide_evidence_id; score; id]
    [("cv_params", ensure_iterable cv_params);
     ("pass_threshold", pass_threshold); ("rank", rank)].

(** [self._spectrum_identification_item( **(s or {}))]: the keywords are
    bound to the parameters of line 202-204, with the defaults
    [cv_params=_t], [pass_threshold=True] and [rank=1]. *)
Definition call_spectrum_identification_item `{Components} (s : value) : M value :=
  kw ← unpack (py_or s (VDict []));
  check_keywords item_parameters kw ;;
  calculated_mass_to_charge ← required "calculated_mass_to_charge" kw;
  experimental_mass_to_charge ← required "experimental_mass_to_charge" kw;
  charge_state ← required "charge_state" kw;
  peptide_id ← required "peptide_id" kw;
  peptide_evidence_id ← required "peptide_evidence_id" kw;
  score ← required "score" kw;
  id ← required "id" kw;
  _spectrum_identification_item
    calculated_mass_to_charge experimental_mass_to_charge charge_state
    peptide_id peptide_evidence_id score id
    (optional "cv_params" _t kw)
    (optional "pass_threshold" (VBool true) kw)
    (optional "rank" (VInt 1) kw).

Section Iteration.
Context `{Components}.

(** [advance g] is [next(g)]: [None] stands for [StopIteration]. *)
Variable advance : nat -> M (option value).

Fixpoint drain {A : Type} (fuel : nat) (g : nat) (f : value -> M A) : M (list A) :=
  match fuel with
  | 0 => mret []
  | S k =>
      r ← advance g;
      match r with
      | None => mret []
      | Some x => y ← f x; ys ← drain k g f; mret (y :: ys)
      end
  end.

(** [[f(x) for x in iterable]] *)
Definition for_each_with {A : Type} (iterable : value) (f : value -> M A) : M (list A) :=
  match iterable with
  | VGen g => st ← get; drain (S (pending_total (heap st))) g f
  | v =>
      match items v with
      | Some xs => mapM f xs
      | None => raise TypeError
      end
  end.

(** [MzIdentMLWriter._spectrum_identification_result], lines 194-200. *)
Definition _spectrum_identification_result_with
    (spectrum_id id spectra_data_id identifications : value) : M value :=
  identifications ← for_each_with (ensure_iterable identifications)
                                  call_spectrum_identification_item;
  construct "SpectrumIdentificationResult" []
    [("spectra_data_id", spectra_data_id); ("spectrum_id", spectrum_id);
     ("id", id); ("identifications", VList identifications)].

(** [self._spectrum_identification_result( **(s or {}))], with the defaults
    [spectra_data_id=1] and [identifications=_t] of line 194. *)
Definition call_spectrum_identification_result_with (s : value) : M value :=
  kw ← unpack (py_or s (VDict []));
  check_keywords result_parameters kw ;;
  spectrum_id ← required "spectrum_id" kw;
  id ← required "id" kw;
  _spectrum_identification_result_with spectrum_id id
    (optional "spectra_data_id" (VInt 1) kw)
    (optional "identifications" _t kw).

(** The value a generator yields for the item [s] of its source. *)
Definition yield_with (b : gbody) (s : value) : M value :=
  match b with
  | BPlain => mret s
  | BEntity cls => build cls s
  | BResult => call_spectrum_identification_result_with s
  end.

(** One [next(g)]: take the next item of the source, if any, and run the
    body on it. *)
Definition step_with (g : nat) : M (option value) :=
  st ← get;
  match heap st !! g with
  | None => mret None
  | Some c =>
      match src c with
      | SItems [] => mret None
      | SItems (s :: rest) =>
          modify (fun st => set_heap (<[g := Generator (SItems rest) (body c)]> (heap st)) st) ;;
          v ← closing g (yield_with (body c) s);
          mret (Some v)
      | SFrom g' =>
          r ← closing g (advance g');
          match r with
          | None =>
              modify (fun st => set_heap (alter finished g (heap st)) st) ;;
              mret None
          | Some s =>
              v ← closing g (yield_with (body c) s);
              mret (Some v)
          end
      end
  end.
End Iteration.

(** Generators are created one after the other, and one that reads from
    another generator, or whose body iterates over one, was given it when
    it was created: [next_below n] advances the generators below index [n],
    any other reference denotes a spent generator. *)
Fixpoint next_below `{Components} (n : nat) (g : nat) : M (option value) :=
  match n with
  | 0 => mret None
  | S n' =>
      if Nat.eqb g n'
      then step_with (next_below n') g
      else next_below n' g
  end.

(** [next(g)] *)
Definition next `{Components} (g : nat) : M (option value) :=
  st ← get; next_below (length (heap st)) g.

Definition for_each `{Components} {A : Type} (iterable : value) (f : value -> M A)
    : M (list A) :=
  for_each_with next iterable f.

Definition _spectrum_identification_result `{Components}
    (spectrum_id id spectra_data_id identifications : value) : M value :=
  _spectrum_identification_result_with next spectrum_id id spectra_data_id identifications.

(** [(body for s in iterable)]: the iterator of [iterable] is taken when the
    expression is evaluated, the body runs when the generator is advanced. *)
Definition genexp (b : gbody) (iterable : value) : M value :=
  source ← match iterable with
           | VGen g => mret (SFrom g)
           | v =>
               match items v with
               | Some xs => mret (SItems xs)
               | None => raise TypeError
               end
           end;
  st ← get;
  modify (fun st => set_heap (heap st ++ [Generator source b]) st) ;;
  mret (VGen (length (heap st))).

(** Modelled from the spec: what [component.write(xml_file)] does with one
    argument of the component; a lazy sequence is iterated once and each of
    its items written as a node. *)
Definition stream `{Components} (xml_file : value) (a : value) : M unit :=
  match a with
  | VGen g => for_each (VGen g) (fun e => writer_write xml_file [e] []) ;; mret tt
  | _ => mret tt
  end.

(** Modelled from the spec: [component.write(xml_file)], a method of the
    builders of [components.py].  A component opens its element on the
    writer, streams each lazy sequence among its arguments into it, one
    pass each in argument order, and closes the element; its other
    arguments travel with the element it opened. *)
Definition component_write `{Components} (component xml_file : value) : M unit :=
  match component, xml_file with
  | VObj cls args kw, VWriter =>
      py_with (VScope cls args kw)
              (mapM (stream xml_file) (args ++ map snd kw) ;; mret tt)
  | _, _ => raise AttributeError
  end.

(** [self.vocabularies] and [self.vocabularies.extend(iterable)]: the items
    are appended as the iteration delivers them. *)
Definition self_vocabularies : M (list value) :=
  st ← get; mret (vocabularies st).

Definition vocabularies_extend `{Components} (iterable : value) : M unit :=
  for_each iterable
    (fun x => modify (fun st => set_vocabularies (vocabularies st ++ [x]) st)) ;;
  mret tt.

(** ** [class XMLWriterMixin], lines 22-54 *)

Module XMLWriterMixin.

(** The handler shared by [element] and [write], lines 33-41 and 46-54. *)
Definition not_created {A : Type} : M A :=
  st ← get;
  match writer st with
  | VNone => raise NotReadyError
  | _ => raise AttributeError
  end.

(** [with self.element(element_name, **kwargs): body].  The method is a
    generator under [contextmanager]: the body of the caller's [with]
    runs at its [yield], inside the [try]. *)
Definition element {A : Type} (element_name : value)
    (kwargs : list (string * value)) (body : M A) : M A :=
  try_except_AttributeError
    (st ← get;
     match element_name with
     | VStr tag =>
         cm ← components_element (writer st) tag kwargs;
         py_with cm body
     | _ =>
         cm ← method_element element_name (writer st) kwargs;
         py_with cm body
     end)
    not_created.

Definition write (args : list value) (kwargs : list (string * value)) : M unit :=
  try_except_AttributeError
    (st ← get; writer_write (writer st) args kwargs)
    not_created.

End XMLWriterMixin.

(** ** [class DocumentSection], lines 57-69 *)

Module DocumentSection.

Record t : Type := Make {
  section : string;
  section_writer : value;
  section_toplevel : value
}.

Definition __init__ (section : string) (writer : value) : t :=
  Make section writer VNone.

Definition __enter__ (self : t) : M t :=
  cm ← components_element (section_writer self) (section self) [];
  scope_enter cm ;;
  mret (Make (section self) (section_writer self) cm).

Definition __exit__ (self : t) (exc : option exn) : M unit :=
  scope_exit (section_toplevel self) exc ;;
  writer_flush (section_writer self).

End DocumentSection.

(** ** [class MzIdentMLWriter], lines 77-208 *)

Module MzIdentMLWriter.

(** Lines 105-110.  [ComponentDispatcher.__init__] sets
    [self.vocabularies]; its initial content is the argument here. *)
Definition __init__ (vocabularies : list value) : state :=
  State VNone VNone vocabularies Fresh [] true [] [].

Definition _begin : M unit :=
  w ← xmlfile_enter;
  modify (set_writer w).

Definition __enter__ : M unit :=
  _begin ;;
  st ← get;
  cm ← components_element (writer st) "MzIdentML" [];
  modify (set_toplevel cm) ;;
  st ← get;
  scope_enter (toplevel st).

Definition __exit__ (exc : option exn) : M unit :=
  st ← get;
  scope_exit (toplevel st) exc ;;
  st ← get;
  writer_flush (writer st) ;;
  xmlfile_exit exc ;;
  outfile_close.

Definition close : M unit := outfile_close.

Definition controlled_vocabularies `{Components} (vocabularies : value) : M unit :=
  let vocabularies := match vocabularies with
                      | VNone => VList []
                      | v => v
                      end in
  vocabularies_extend vocabularies ;;
  vs ← self_vocabularies;
  cvlist ← construct "CVList" [VList vs] [];
  st ← get;
  component_write cvlist (writer st).

Definition providence `{Components} (software owner organization : value) : M unit :=
  software ← for_each (ensure_iterable software) (build "AnalysisSoftware");
  owner ← build "Person" owner;
  organization ← build "Organization" organization;
  asl ← construct "GenericCollection" [VStr "AnalysisSoftwareList"; VList software] [];
  st ← get;
  component_write asl (writer st) ;;
  contact ← getattr owner "id";
  provider ← construct "Provider" [] [("contact", contact)];
  st ← get;
  component_write provider (writer st) ;;
  audit ← construct "AuditCollection" [VList [owner]; VList [organization]] [];
  st ← get;
  component_write audit (writer st).

Definition inputs `{Components} (source_files search_databases spectra_data : value)
    : M unit :=
  source_files ← for_each (ensure_iterable source_files) (build "SourceFile");
  search_databases ← for_each (ensure_iterable search_databases) (build "SearchDatabase");
  spectra_data ← for_each (ensure_iterable spectra_data) (build "SpectraData");
  inp ← construct "Inputs"
          [VList source_files; VList search_databases; VList spectra_data] [];
  st ← get;
  component_write inp (writer st).

Definition sequence_collection `{Components} (db_sequences peptides peptide_evidence : value)
    : M unit :=
  db_sequences ← genexp (BEntity "DBSequence") (ensure_iterable db_sequences);
  peptides ← genexp (BEntity "Peptide") (ensure_iterable peptides);
  peptide_evidence ← genexp (BEntity "PeptideEvidence") (ensure_iterable peptide_evidence);
  sc ← construct "SequenceCollection" [db_sequences; peptides; peptide_evidence] [];
  st ← get;
  component_write sc (writer st).

(** [self.FragmentTolerance( *tolerance)] when the argument is a list or a
    tuple, lines 180-183. *)
Definition tolerance `{Components} (cls : string) (v : value) : M value :=
  match v with
  | VList xs | VTuple xs => construct cls xs []
  | _ => mret v
  end.

Definition spectrum_identification_protocol `{Components}
    (search_type analysis_software_id id additional_search_params enzymes
     modification_params fragment_tolerance parent_tolerance threshold : value)
    : M unit :=
  enzymes ← for_each (ensure_iterable enzymes) (build "Enzyme");
  modification_params ← for_each (ensure_iterable modification_params)
                                 (build "SearchModification");
  fragment_tolerance ← tolerance "FragmentTolerance" fragment_tolerance;
  parent_tolerance ← tolerance "ParentTolerance" parent_tolerance;
  threshold ← construct "Threshold" [threshold] [];
  protocol ← construct "SpectrumIdentificationProtocol"
               [search_type; analysis_software_id; id; additional_search_params;
                VList enzymes; VList modification_params;
                fragment_tolerance; parent_tolerance; threshold] [];
  st ← get;
  component_write protocol (writer st).

Definition spectrum_identification_list `{Components} (id identification_results : value)
    : M unit :=
  converting ← genexp BResult identification_results;
  sil ← construct "SpectrumIdentificationList" []
          [("id", id); ("identification_results", converting)];
  st ← get;
  component_write sil (writer st).

End MzIdentMLWriter.

(** ** Vocabulary of the statements *)

(** The keywords [**(s or {})] passes for the item [s], when it is a mapping
    with string keys or a false value. *)
Definition item_kwargs (s : value) : option (list (string * value)) :=
  match py_or s (VDict []) with
  | VDict kvs => str_keys kvs
  | _ => None
  end.

(** The builder [cls] can be called on the item [s]. *)
Definition acceptable `{Components} (cls : string) (s : value) : bool :=
  match item_kwargs s with
  | Some kw => accepts cls [] kw
  | None => false
  end.

(** The entity [self.cls( **(s or {}))] and the event of its construction. *)
Definition entity (cls : string) (s : value) : value :=
  VObj cls [] (default [] (item_kwargs s)).

Definition creation (cls : string) (s : value) : event :=
  ENew cls [] (default [] (item_kwargs s)).

(** A component built and written at once. *)
Definition emitted (cls : string) (args : list value)
    (kwargs : list (string * value)) : list event :=
  [ENew cls args kwargs; EOpen cls args kwargs; EClose cls].

(** The items of a lazy sequence going through the writer one at a time:
    each entity is built when its turn comes and written before the next
    one is built. *)
Definition streamed (cls : string) (its : list value) : list event :=
  flat_map (fun s => [creation cls s; EWrite [entity cls s] []]) its.

(** Anything but a generator. *)
Definition plain (v : value) : bool :=
  match v with
  | VGen _ => false
  | _ => true
  end.

(** The session has been entered and not yet left. *)
Definition live (st : state) : Prop :=
  writer st = VWriter /\ status st = Live.

(** The generator [g] has nothing more to give. *)
Definition spent (g : nat) (st : state) : Prop :=
  exists b, heap st !! g = Some (Generator (SItems []) b).

(** What [controlled_vocabularies] appends for its argument: nothing for
    [None], else the items of the iterable. *)
Definition added (v : value) : option (list value) :=
  match v with
  | VNone => Some []
  | _ => items v
  end.

(** A catalogue for concrete runs: every builder accepts its arguments; an
    attribute of an instance is the keyword it was built with, and an
    instance built without identifier has the identifier 1. *)
Definition permissive : Components := {|
  accepts := fun _ _ _ => true;
  attr := fun v name =>
    match v with
    | VObj _ _ kw =>
        match lookup_kw name kw with
        | Some x => Some x
        | None => if String.eqb name "id" then Some (VInt 1) else None
        end
    | _ => None
    end
|}.

(** A session that has just been entered. *)
Definition entered (vocabularies : list value) : state :=
  snd (MzIdentMLWriter.__enter__ (MzIdentMLWriter.__init__ vocabularies)).

(** The tolerance handed to the protocol builder for the argument [v], and
    the construction it takes. *)
Definition toleranced (cls : string) (v : value) : value :=
  match v with
  | VList xs | VTuple xs => VObj cls xs []
  | _ => v
  end.

Definition tolerance_events (cls : string) (v : value) : list event :=
  match v with
  | VList xs | VTuple xs => [ENew cls xs []]
  | _ => []
  end.

Definition tolerance_accepted `{Components} (cls : string) (v : value) : bool :=
  match v with
  | VList xs | VTuple xs => accepts cls xs []
  | _ => true
  end.


(** A computation that leaves [self.writer] and the serializer's life
    cycle alone and never raises the not-ready error. *)
Definition unaware {A : Type} (m : M A) : Prop :=
  forall st,
    writer (snd (m st)) = writer st /\
    status (snd (m st)) = status st /\
    fst (m st) <> Raise NotReadyError.

(** The session is not between its entry and its exit. *)
Definition outside (st : state) : Prop :=
  writer st = VNone \/ status st <> Live.

(** A computation that cannot succeed outside of the session, and whose
    failure there is not the not-ready error. *)
Definition refused {A : Type} (m : M A) : Prop :=
  forall st, outside st ->
    exists e st', m st = (Raise e, st') /\ e <> NotReadyError.

(** The construction of a component, and whether its builder accepts it. *)
Definition made (v : value) : list event :=
  match v with
  | VObj cls args kw => [ENew cls args kw]
  | _ => []
  end.

Definition accepted `{Components} (v : value) : bool :=
  match v with
  | VObj cls args kw => accepts cls args kw
  | _ => false
  end.

Definition known (params : list string) (kw : list (string * value)) : bool :=
  forallb (fun p => existsb (String.eqb (fst p)) params) kw.

Fixpoint all_built (f : value -> option value) (xs : list value) : option (list value) :=
  match xs with
  | [] => Some []
  | x :: r =>
      match f x, all_built f r with
      | Some y, Some ys => Some (y :: ys)
      | _, _ => None
      end
  end.

(** The identification item the specification describes for the mapping
    [s]: the seven mandatory fields in order, the annotations, and the two
    flags, which pass the threshold and rank first unless the mapping says
    otherwise. *)
Definition identification_item (s : value) : option value :=
  match item_kwargs s with
  | Some kw =>
      match lookup_kw "calculated_mass_to_charge" kw,
            lookup_kw "experimental_mass_to_charge" kw,
            lookup_kw "charge_state" kw,
            lookup_kw "peptide_id" kw,
            lookup_kw "peptide_evidence_id" kw,
            lookup_kw "score" kw,
            lookup_kw "id" kw with
      | Some c, Some e, Some ch, Some p, Some pe, Some sc, Some i =>
          if known item_parameters kw
          then Some (VObj "SpectrumIdentificationItem" [c; e; ch; p; pe; sc; i]
                       [("cv_params", ensure_iterable (optional "cv_params" _t kw));
                        ("pass_threshold",
                         match lookup_kw "pass_threshold" kw with
                         | Some v => v
                         | None => VBool true
                         end);
                        ("rank",
                         match lookup_kw "rank" kw with
                         | Some v => v
                         | None => VInt 1
                         end)])
          else None
      | _, _, _, _, _, _, _ => None
      end
  | None => None
  end.

(** The identification result described by the mapping [r], with the
    items of its [identifications]. *)
Definition identification_result (r : value) : option value :=
  match item_kwargs r with
  | Some kw =>
      match lookup_kw "spectrum_id" kw, lookup_kw "id" kw,
            items (ensure_iterable (optional "identifications" _t kw)) with
      | Some spectrum_id, Some id, Some ids =>
          match all_built identification_item ids with
          | Some its =>
              if known result_parameters kw
              then Some (VObj "SpectrumIdentificationResult" []
                           [("spectra_data_id", optional "spectra_data_id" (VInt 1) kw);
                            ("spectrum_id", spectrum_id); ("id", id);
                            ("identifications", VList its)])
              else None
          | None => None
          end
      | _, _, _ => None
      end
  | None => None
  end.

(** The items nested in a result, and what building a result takes: its
    items first, then the result itself. *)
Definition nested (res : value) : list value :=
  match res with
  | VObj _ _ kw =>
      match lookup_kw "identifications" kw with
      | Some (VList its) => its
      | _ => []
      end
  | _ => []
  end.

Definition result_made (res : value) : list event :=
  flat_map made (nested res) ++ made res.

Definition result_accepted `{Components} (res : value) : bool :=
  forallb accepted (nested res) && accepted res.

(** Results going through the writer one at a time. *)
Definition streamed_results (ress : list value) : list event :=
  flat_map (fun res => result_made res ++ [EWrite [res] []]) ress.

(** Data for concrete runs: an item mapping that gives its rank and leaves
    [pass_threshold] out, and a result mapping that holds it. *)
Definition sample_item : value :=
  VDict [(VStr "calculated_mass_to_charge", VInt 500);
         (VStr "experimental_mass_to_charge", VInt 501);
         (VStr "charge_state", VInt 2);
         (VStr "peptide_id", VStr "P1");
         (VStr "peptide_evidence_id", VStr "PE1");
         (VStr "score", VInt 42);
         (VStr "id", VStr "SII1");
         (VStr "rank", VInt 2)].

Definition sample_item_keywords : list (string * value) :=
  [("calculated_mass_to_charge", VInt 500);
   ("experimental_mass_to_charge", VInt 501);
   ("charge_state", VInt 2);
   ("peptide_id", VStr "P1");
   ("peptide_evidence_id", VStr "PE1");
   ("score", VInt 42);
   ("id", VStr "SII1");
   ("rank", VInt 2)].

Definition sample_result : value :=
  VDict [(VStr "spectrum_id", VStr "scan=1"); (VStr "id", VStr "SIR1");
         (VStr "identifications", sample_item)].

(** Number of items a generator still holds itself. *)
Definition weight (c : generator) : nat :=
  match src c with
  | SItems p => length p
  | SFrom _ => 0
  end.

(** A computation that adds no item to the heap, and an advance that takes
    one away whenever it delivers a value. *)
Definition frugal {A : Type} (m : M A) : Prop :=
  forall st, pending_total (heap (snd (m st))) <= pending_total (heap st).

Definition consuming (adv : nat -> M (option value)) : Prop :=
  forall g st,
    pending_total (heap (snd (adv g st))) <= pending_total (heap st) /\
    forall v, fst (adv g st) = Ok (Some v) ->
              pending_total (heap (snd (adv g st))) < pending_total (heap st).

(** ** Vocabulary of the properties of whole runs *)

(** A computation respects a relation between states when every run of
    it, returning or raising, takes a state to a related one. *)
Definition respects {A : Type} (R : state -> state -> Prop) (m : M A) : Prop :=
  forall st, R st (snd (m st)).

(** The side of the state that belongs to the session: the two fields
    [__enter__] sets, the life cycle of the serializer, the elements that
    are open and the sink. *)
Definition frame (st : state) : value * value * phase * list string * bool :=
  (writer st, toplevel st, status st, scopes st, sink_open st).

Definition same_frame (st st' : state) : Prop := frame st' = frame st.

Definition same_vocabularies (st st' : state) : Prop :=
  vocabularies st' = vocabularies st.

(** The vocabulary list has only been appended to. *)
Definition grown (st st' : state) : Prop :=
  exists l, vocabularies st' = vocabularies st ++ l.



(** The error of [self.cls( **(s or {}))] for an item the builder cannot be
    called on: what is no mapping with string keys cannot be unpacked, and
    keywords the builder refuses are its validation error. *)
Definition rejection (s : value) : exn :=
  match item_kwargs s with
  | Some _ => ValidationError
  | None => TypeError
  end.

(** The parameters of [_spectrum_identification_item] that have no
    default, lines 202-203. *)
Definition item_required : list string :=
  ["calculated_mass_to_charge"; "experimental_mass_to_charge"; "charge_state";
   "peptide_id"; "peptide_evidence_id"; "score"; "id"].

(** The element manager [element] of the mixin asks for, lines 27-32: the
    element named by a string, or the element of a component. *)
Definition element_scope (element_name : value) (kwargs : list (string * value))
    : option value :=
  match element_name with
  | VStr tag => Some (VScope tag [] kwargs)
  | VObj cls args kw => Some (VScope cls args (kw ++ kwargs))
  | _ => None
  end.

(** The state once an element has been opened, and once the innermost
    element has been closed. *)
Definition opened (tag : string) (args : list value) (kw : list (string * value))
    (st : state) : state :=
  set_trace (trace st ++ [EOpen tag args kw]) (set_scopes (tag :: scopes st) st).

Definition closed (tag : string) (rest : list string) (st : state) : state :=
  set_trace (trace st ++ [EClose tag]) (set_scopes rest st).

(** [with DocumentSection(section, self.writer, context): body].  The
    section is made from the writer the session holds at that moment;
    [__exit__] returns nothing, so an exception of the body goes on after
    the section has been left. *)
Definition leaving_section {A : Type} (self : DocumentSection.t) (body : M A) : M A :=
  fun st =>
    match body st with
    | (Ok a, st') =>
        match DocumentSection.__exit__ self None st' with
        | (Ok _, st'') => (Ok a, st'')
        | (Raise e, st'') => (Raise e, st'')
        end
    | (Raise e, st') =>
        match DocumentSection.__exit__ self (Some e) st' with
        | (Ok _, st'') => (Raise e, st'')
        | (Raise e', st'') => (Raise e', st'')
        end
    end.

Definition with_section {A : Type} (section : string) (body : M A) : M A :=
  st ← get;
  self ← DocumentSection.__enter__ (DocumentSection.__init__ section (writer st));
  leaving_section self body.

(** [try: body except Exception: pass] *)
Definition try_except_pass (body : M unit) : M unit :=
  fun st => (Ok tt, snd (body st)).

(** ** Programs over the interface of the writer

    What a caller can do with an entered session: call the six section
    operations and [write], nest blocks under [element] and under a
    [DocumentSection], and catch what they raise.  A suite stops at the
    first statement that raises, as a block of Python statements does. *)
Inductive statement : Type :=
| SWrite (args : list value) (kwargs : list (string * value))
| SElement (element_name : value) (kwargs : list (string * value)) (body : suite)
| SSection (section : string) (body : suite)
| SControlledVocabularies (vocabularies : value)
| SProvidence (software owner organization : value)
| SInputs (source_files search_databases spectra_data : value)
| SSequenceCollection (db_sequences peptides peptide_evidence : value)
| SProtocol (search_type analysis_software_id id additional_search_params enzymes
             modification_params fragment_tolerance parent_tolerance threshold : value)
| SIdentificationList (id identification_results : value)
| STry (body : suite)
with suite : Type :=
| Pass
| Then (s : statement) (rest : suite).

Scheme statement_mutind := Induction for statement Sort Prop
  with suite_mutind := Induction for suite Sort Prop.
Combined Scheme statement_suite_mutind from statement_mutind, suite_mutind.

Fixpoint exec `{Components} (s : statement) {struct s} : M unit :=
  match s with
  | SWrite args kwargs => XMLWriterMixin.write args kwargs
  | SElement element_name kwargs body =>
      XMLWriterMixin.element element_name kwargs (exec_suite body)
  | SSection section body => with_section section (exec_suite body)
  | SControlledVocabularies vocabularies =>
      MzIdentMLWriter.controlled_vocabularies vocabularies
  | SProvidence software owner organization =>
      MzIdentMLWriter.providence software owner organization
  | SInputs source_files search_databases spectra_data =>
      MzIdentMLWriter.inputs source_files search_databases spectra_data
  | SSequenceCollection db_sequences peptides peptide_evidence =>
      MzIdentMLWriter.sequence_collection db_sequences peptides peptide_evidence
  | SProtocol search_type analysis_software_id id additional_search_params enzymes
              modification_params fragment_tolerance parent_tolerance threshold =>
      MzIdentMLWriter.spectrum_identification_protocol
        search_type analysis_software_id id additional_search_params enzymes
        modification_params fragment_tolerance parent_tolerance threshold
  | SIdentificationList id identification_results =>
      MzIdentMLWriter.spectrum_identification_list id identification_results
  | STry body => try_except_pass (exec_suite body)
  end
with exec_suite `{Components} (b : suite) {struct b} : M unit :=
  match b with
  | Pass => mret tt
  | Then s rest => exec s ;; exec_suite rest
  end.

(** Whether a program calls [controlled_vocabularies]. *)
Fixpoint extends_vocabularies (s : statement) : bool :=
  match s with
  | SControlledVocabularies _ => true
  | SElement _ _ body | SSection _ body | STry body => suite_extends_vocabularies body
  | _ => false
  end
with suite_extends_vocabularies (b : suite) : bool :=
  match b with
  | Pass => false
  | Then s rest => extends_vocabularies s || suite_extends_vocabularies rest
  end.

(** A catalogue for concrete runs whose components carry no attributes. *)
Definition without_attributes : Components := {|
  accepts := fun _ _ _ => true;
  attr := fun _ _ => None
|}.

(** An entered session in which the caller holds a generator that yields
    one result mapping. *)
Definition holding_a_generator : state :=
  set_heap [Generator (SItems [sample_result]) BPlain] (entered []).

(** * Properties *)

(** ** The model at work *)

Example ensure_iterable_cases :
  ensure_iterable VNone = VList [VNone] /\
  ensure_iterable (VInt 7) = VList [VInt 7] /\
  ensure_iterable (VStr "run.mzML") = VList [VStr "run.mzML"] /\
  ensure_iterable (VDict [(VStr "id", VInt 1)]) = VList [VDict [(VStr "id", VInt 1)]] /\
  ensure_iterable (VList []) = VList [] /\
  ensure_iterable (VTuple [VNone; VInt 0]) = VTuple [VNone; VInt 0] /\
  ensure_iterable (VGen 3) = VGen 3.
Proof. repeat split. Qed.

Example entering_the_session :
  entered []
  = State VWriter (VScope "MzIdentML" [] []) [] Live ["MzIdentML"] true []
      [EAcquire; EOpen "MzIdentML" [] []].
Proof. reflexivity. Qed.

Example element_and_write_in_the_session :
  XMLWriterMixin.element (VStr "AnalysisCollection") [("id", VInt 1)]
    (XMLWriterMixin.write [VStr "text"] []) (entered [])
  = (Ok tt,
     set_trace
       (trace (entered [])
        ++ [EOpen "AnalysisCollection" [] [("id", VInt 1)];
            EWrite [VStr "text"] [];
            EClose "AnalysisCollection"])
       (entered [])).
Proof. reflexivity. Qed.

Example write_after_exit :
  fst (XMLWriterMixin.write [VStr "text"] []
         (snd (MzIdentMLWriter.__exit__ None (entered []))))
  = Raise ScopeViolationError.
Proof. reflexivity. Qed.

(** A lone result mapping given to [spectrum_identification_list] is read
    key by key, a list holding it is read as one result. *)
Example lone_result_mapping :
  fst (@MzIdentMLWriter.spectrum_identification_list permissive (VInt 1)
         sample_result (entered []))
  = Raise TypeError /\
  fst (@MzIdentMLWriter.spectrum_identification_list permissive (VInt 1)
         (VList [sample_result]) (entered []))
  = Ok tt.
Proof. split; reflexivity. Qed.

(** ** Running computations *)

Lemma bind_ok {A B : Type} (m : M A) (f : A -> M B) st a st' :
  m st = (Ok a, st') -> (m ≫= f) st = f a st'.
Proof. intros E. unfold mbind, M_bind. now rewrite E. Qed.

Lemma bind_raise {A B : Type} (m : M A) (f : A -> M B) st e st' :
  m st = (Raise e, st') -> (m ≫= f) st = (Raise e, st').
Proof. intros E. unfold mbind, M_bind. now rewrite E. Qed.

Lemma bind_get {B : Type} (f : state -> M B) st : (get ≫= f) st = f st st.
Proof. reflexivity. Qed.

Lemma bind_ret {A B : Type} (a : A) (f : A -> M B) st : (mret a ≫= f) st = f a st.
Proof. reflexivity. Qed.

Lemma bind_modify {B : Type} (g : state -> state) (f : unit -> M B) st :
  (modify g ≫= f) st = f tt (g st).
Proof. reflexivity. Qed.

Lemma bind_assoc {A B C : Type} (m : M A) (f : A -> M B) (g : B -> M C) st :
  ((m ≫= f) ≫= g) st = (m ≫= (fun a => f a ≫= g)) st.
Proof. unfold mbind, M_bind. now destruct (m st) as [[a|e] st']. Qed.

Lemma ret_run {A : Type} (a : A) st : (mret a : M A) st = (Ok a, st).
Proof. reflexivity. Qed.

(** Symbolic execution of the structural steps of a computation. *)
Ltac run :=
  repeat first
    [ rewrite bind_assoc
    | rewrite bind_get
    | rewrite bind_ret
    | rewrite bind_modify
    | rewrite ret_run ].

Lemma set_trace_twice t1 t2 st :
  set_trace t2 (set_trace t1 st) = set_trace t2 st.
Proof. reflexivity. Qed.

Lemma set_trace_same st : set_trace (trace st) st = st.
Proof. now destruct st. Qed.

Lemma log_run e st : log e st = (Ok tt, set_trace (trace st ++ [e]) st).
Proof. reflexivity. Qed.

Lemma construct_run `{Components} cls args kw st :
  accepts cls args kw = true ->
  construct cls args kw st
  = (Ok (VObj cls args kw), set_trace (trace st ++ [ENew cls args kw]) st).
Proof. intros E. unfold construct. now rewrite E. Qed.

Lemma unpack_item s kw st :
  item_kwargs s = Some kw -> unpack (py_or s (VDict [])) st = (Ok kw, st).
Proof.
  unfold item_kwargs, unpack. destruct (py_or s (VDict [])); try discriminate.
  now intros ->.
Qed.

Lemma build_run `{Components} cls s st :
  acceptable cls s = true ->
  build cls s st = (Ok (entity cls s), set_trace (trace st ++ [creation cls s]) st).
Proof.
  unfold acceptable, build, entity, creation.
  destruct (item_kwargs s) as [kw|] eqn:E; [|discriminate]. intros Hacc.
  rewrite (bind_ok _ _ _ _ _ (unpack_item _ _ st E)).
  now apply construct_run.
Qed.

Lemma mapM_build `{Components} cls its : forall st,
  forallb (acceptable cls) its = true ->
  mapM (build cls) its st
  = (Ok (map (entity cls) its), set_trace (trace st ++ map (creation cls) its) st).
Proof.
  induction its as [|s its IH]; intros st Hall; simpl in *.
  - now rewrite app_nil_r, set_trace_same.
  - apply andb_prop in Hall as [Hs Hall].
    rewrite (bind_ok _ _ _ _ _ (build_run cls s st Hs)).
    rewrite (bind_ok _ _ _ _ _ (IH _ Hall)).
    simpl. now rewrite <- app_assoc.
Qed.

Lemma for_each_items `{Components} {A : Type} v its (f : value -> M A) :
  items v = Some its -> for_each v f = mapM f its.
Proof.
  unfold for_each, for_each_with. destruct v; simpl; try discriminate;
    now intros [= <-].
Qed.

Lemma for_each_build `{Components} cls v its st :
  items v = Some its ->
  forallb (acceptable cls) its = true ->
  for_each v (build cls) st
  = (Ok (map (entity cls) its), set_trace (trace st ++ map (creation cls) its) st).
Proof. intros Hv Hall. rewrite (for_each_items _ _ _ Hv). now apply mapM_build. Qed.

Lemma stream_plain `{Components} w a st : plain a = true -> stream w a st = (Ok tt, st).
Proof. now destruct a. Qed.

Lemma mapM_stream_plain `{Components} w l : forall st,
  forallb plain l = true ->
  mapM (stream w) l st = (Ok (map (fun _ => tt) l), st).
Proof.
  induction l as [|a l IH]; intros st Hall; simpl in *; [reflexivity|].
  apply andb_prop in Hall as [Ha Hall].
  rewrite (bind_ok _ _ _ _ _ (stream_plain w a st Ha)).
  now rewrite (bind_ok _ _ _ _ _ (IH st Hall)).
Qed.

Lemma scope_enter_run tag args kw st :
  status st = Live ->
  scope_enter (VScope tag args kw) st
  = (Ok tt, set_trace (trace st ++ [EOpen tag args kw])
              (set_scopes (tag :: scopes st) st)).
Proof.
  intros Hlive. unfold scope_enter, mbind, M_bind, get. now rewrite Hlive.
Qed.

Lemma scope_exit_run tag args kw exc rest st :
  status st = Live ->
  scopes st = tag :: rest ->
  scope_exit (VScope tag args kw) exc st
  = (Ok tt, set_trace (trace st ++ [EClose tag]) (set_scopes rest st)).
Proof.
  intros Hlive Hsc. unfold scope_exit, mbind, M_bind, get.
  now rewrite Hlive, Hsc, String.eqb_refl.
Qed.

Lemma leaving_ok {A : Type} cm (body : M A) st a st' st'' :
  body st = (Ok a, st') ->
  scope_exit cm None st' = (Ok tt, st'') ->
  leaving cm body st = (Ok a, st'').
Proof. intros E1 E2. unfold leaving. now rewrite E1, E2. Qed.

Lemma component_write_run `{Components} cls args kw st :
  status st = Live ->
  forallb plain (args ++ map snd kw) = true ->
  component_write (VObj cls args kw) VWriter st
  = (Ok tt, set_trace (trace st ++ [EOpen cls args kw; EClose cls]) st).
Proof.
  intros Hlive Hplain. unfold component_write, py_with.
  rewrite (bind_ok _ _ _ _ _ (scope_enter_run cls args kw st Hlive)).
  erewrite leaving_ok.
  - reflexivity.
  - now rewrite (bind_ok _ _ _ _ _ (mapM_stream_plain _ _ _ Hplain)).
  - rewrite (scope_exit_run cls args kw None (scopes st)); [|assumption|reflexivity].
    destruct st; simpl. now rewrite <- app_assoc.
Qed.

(** ** Controlled vocabularies *)

Lemma extend_run `{Components} l : forall st,
  mapM (fun x => modify (fun st => set_vocabularies (vocabularies st ++ [x]) st)) l st
  = (Ok (map (fun _ => tt) l), set_vocabularies (vocabularies st ++ l) st).
Proof.
  induction l as [|x l IH]; intros st; simpl.
  - rewrite app_nil_r. now destruct st.
  - run. rewrite (bind_ok _ _ _ _ _ (IH _)). simpl. now rewrite <- app_assoc.
Qed.

Lemma controlled_vocabularies_run `{Components} v l st :
  live st ->
  added v = Some l ->
  accepts "CVList" [VList (vocabularies st ++ l)] [] = true ->
  MzIdentMLWriter.controlled_vocabularies v st
  = (Ok tt, set_trace (trace st ++ emitted "CVList" [VList (vocabularies st ++ l)] [])
              (set_vocabularies (vocabularies st ++ l) st)).
Proof.
  intros [Hw Hlive] Hadd Hacc.
  assert (Hit : items (match v with VNone => VList [] | _ => v end) = Some l)
    by (destruct v; simpl in *; congruence).
  unfold MzIdentMLWriter.controlled_vocabularies, vocabularies_extend, self_vocabularies.
  rewrite (for_each_items _ _ _ Hit). run.
  rewrite (bind_ok _ _ _ _ _ (extend_run l st)). run.
  cbn [vocabularies set_vocabularies].
  rewrite (bind_ok _ _ _ _ _ (construct_run _ _ _ _ Hacc)). run.
  cbn [writer set_trace set_vocabularies].
  rewrite Hw, component_write_run; [|assumption|reflexivity].
  unfold emitted. destruct st; simpl. now rewrite <- app_assoc.
Qed.

(** C3.  [controlled_vocabularies] accumulates: each call appends its
    argument to the vocabulary list of the session ([None] counting as the
    empty list) and emits a [CVList] of the whole list gathered so far.  After
    a call with [l1] and a call with [l2] the second emission carries both,
    in order, behind what the session held before; a further call with the
    empty list emits that same list once more and leaves it as it is.  The
    list is only ever extended. *)
Theorem controlled_vocabularies_accumulate `{Components}
    (v1 v2 : value) (l1 l2 : list value) (st : state) :
  live st ->
  added v1 = Some l1 ->
  added v2 = Some l2 ->
  (forall vs, accepts "CVList" [VList vs] [] = true) ->
  exists st1 st2 st3,
    (MzIdentMLWriter.controlled_vocabularies v1 st = (Ok tt, st1) /\
     vocabularies st1 = vocabularies st ++ l1 /\
     trace st1 = trace st ++ emitted "CVList" [VList (vocabularies st ++ l1)] []) /\
    (MzIdentMLWriter.controlled_vocabularies v2 st1 = (Ok tt, st2) /\
     vocabularies st2 = vocabularies st ++ l1 ++ l2 /\
     trace st2 = trace st1 ++ emitted "CVList" [VList (vocabularies st ++ l1 ++ l2)] []) /\
    (MzIdentMLWriter.controlled_vocabularies (VList []) st2 = (Ok tt, st3) /\
     MzIdentMLWriter.controlled_vocabularies VNone st2 = (Ok tt, st3) /\
     vocabularies st3 = vocabularies st ++ l1 ++ l2 /\
     trace st3 = trace st2 ++ emitted "CVList" [VList (vocabularies st ++ l1 ++ l2)] []).
Proof.
  intros Hlive H1 H2 Hacc.
  pose proof (controlled_vocabularies_run v1 l1 st Hlive H1 (Hacc _)) as R1.
  set (st1 := set_trace _ _) in R1.
  assert (Hlive1 : live st1) by (destruct Hlive; split; assumption).
  pose proof (controlled_vocabularies_run v2 l2 st1 Hlive1 H2 (Hacc _)) as R2.
  set (st2 := set_trace _ _) in R2.
  assert (Hlive2 : live st2) by (destruct Hlive; split; assumption).
  pose proof (controlled_vocabularies_run (VList []) [] st2 Hlive2 eq_refl (Hacc _)) as R3.
  pose proof (controlled_vocabularies_run VNone [] st2 Hlive2 eq_refl (Hacc _)) as R4.
  set (st3 := set_trace _ _) in R3, R4.
  exists st1, st2, st3.
  repeat split; try assumption; subst st3 st2 st1; cbn [vocabularies trace set_trace set_vocabularies];
    rewrite ?app_nil_r, <- ?app_assoc; reflexivity.
Qed.

Lemma controlled_vocabularies_accumulate_witness :
  live (entered []) /\
  added (VList [VStr "PSI-MS"]) = Some [VStr "PSI-MS"] /\
  added (VTuple [VStr "UO"]) = Some [VStr "UO"] /\
  (forall vs, @accepts permissive "CVList" [VList vs] [] = true) /\
  exists st1 st2 st3,
    (@MzIdentMLWriter.controlled_vocabularies permissive (VList [VStr "PSI-MS"]) (entered [])
     = (Ok tt, st1) /\
     vocabularies st1 = vocabularies (entered []) ++ [VStr "PSI-MS"] /\
     trace st1 = trace (entered [])
                 ++ emitted "CVList" [VList (vocabularies (entered []) ++ [VStr "PSI-MS"])] []) /\
    (@MzIdentMLWriter.controlled_vocabularies permissive (VTuple [VStr "UO"]) st1 = (Ok tt, st2) /\
     vocabularies st2 = vocabularies (entered []) ++ [VStr "PSI-MS"] ++ [VStr "UO"] /\
     trace st2 = trace st1
                 ++ emitted "CVList"
                      [VList (vocabularies (entered []) ++ [VStr "PSI-MS"] ++ [VStr "UO"])] []) /\
    (@MzIdentMLWriter.controlled_vocabularies permissive (VList []) st2 = (Ok tt, st3) /\
     @MzIdentMLWriter.controlled_vocabularies permissive VNone st2 = (Ok tt, st3) /\
     vocabularies st3 = vocabularies (entered []) ++ [VStr "PSI-MS"] ++ [VStr "UO"] /\
     trace st3 = trace st2
                 ++ emitted "CVList"
                      [VList (vocabularies (entered []) ++ [VStr "PSI-MS"] ++ [VStr "UO"])] []).
Proof.
  assert (Hlive : live (entered [])) by (split; reflexivity).
  assert (Hacc : forall vs, @accepts permissive "CVList" [VList vs] [] = true)
    by (intros vs; reflexivity).
  split; [exact Hlive|]. split; [reflexivity|]. split; [reflexivity|].
  split; [exact Hacc|].
  exact (@controlled_vocabularies_accumulate permissive
           (VList [VStr "PSI-MS"]) (VTuple [VStr "UO"]) [VStr "PSI-MS"] [VStr "UO"]
           (entered []) Hlive eq_refl eq_refl Hacc).
Defined.

(** ** The eager section operations *)

Lemma live_set_trace t st : live st -> live (set_trace t st).
Proof. now intros [? ?]. Qed.

Lemma component_write_live `{Components} cls args kw st :
  live st ->
  forallb plain (args ++ map snd kw) = true ->
  component_write (VObj cls args kw) (writer st) st
  = (Ok tt, set_trace (trace st ++ [EOpen cls args kw; EClose cls]) st).
Proof. intros [-> Hl] Hp. now apply component_write_run. Qed.

(** A component built from arguments free of generators and written at
    once on a live session. *)
Lemma emit_run `{Components} cls args kw st :
  live st ->
  accepts cls args kw = true ->
  forallb plain (args ++ map snd kw) = true ->
  (c ← construct cls args kw; st' ← get; component_write c (writer st')) st
  = (Ok tt, set_trace (trace st ++ emitted cls args kw) st).
Proof.
  intros Hlive Hacc Hplain.
  rewrite (bind_ok _ _ _ _ _ (construct_run _ _ _ _ Hacc)). run.
  rewrite component_write_live; [|now apply live_set_trace|assumption].
  unfold emitted. destruct st; simpl. now rewrite <- app_assoc.
Qed.

Lemma emit_bind `{Components} {B : Type} cls args kw (k : unit -> M B) st :
  live st ->
  accepts cls args kw = true ->
  forallb plain (args ++ map snd kw) = true ->
  (c ← construct cls args kw; st' ← get; component_write c (writer st') ≫= k) st
  = k tt (set_trace (trace st ++ emitted cls args kw) st).
Proof.
  intros Hlive Hacc Hplain.
  rewrite (bind_ok _ _ _ _ _ (construct_run _ _ _ _ Hacc)). run.
  erewrite bind_ok;
    [|apply component_write_live; [now apply live_set_trace|assumption]].
  unfold emitted. destruct st; simpl. now rewrite <- app_assoc.
Qed.

Lemma getattr_run `{Components} cls args kw name v st :
  attr (VObj cls args kw) name = Some v ->
  getattr (VObj cls args kw) name st = (Ok v, st).
Proof. intros E. unfold getattr. now rewrite E. Qed.

Lemma providence_run `{Components} software owner organization its pid st :
  live st ->
  items (ensure_iterable software) = Some its ->
  forallb (acceptable "AnalysisSoftware") its = true ->
  acceptable "Person" owner = true ->
  acceptable "Organization" organization = true ->
  accepts "GenericCollection"
    [VStr "AnalysisSoftwareList"; VList (map (entity "AnalysisSoftware") its)] [] = true ->
  attr (entity "Person" owner) "id" = Some pid ->
  plain pid = true ->
  accepts "Provider" [] [("contact", pid)] = true ->
  accepts "AuditCollection"
    [VList [entity "Person" owner]; VList [entity "Organization" organization]] [] = true ->
  MzIdentMLWriter.providence software owner organization st
  = (Ok tt,
     set_trace
       (trace st
        ++ map (creation "AnalysisSoftware") its
        ++ [creation "Person" owner; creation "Organization" organization]
        ++ emitted "GenericCollection"
             [VStr "AnalysisSoftwareList"; VList (map (entity "AnalysisSoftware") its)] []
        ++ emitted "Provider" [] [("contact", pid)]
        ++ emitted "AuditCollection"
             [VList [entity "Person" owner]; VList [entity "Organization" organization]] [])
       st).
Proof.
  intros Hlive Hits Hsw Hp Ho Hasl Hid Hplain Hprov Haudit.
  unfold MzIdentMLWriter.providence.
  rewrite (bind_ok _ _ _ _ _ (for_each_build _ _ _ _ Hits Hsw)).
  rewrite (bind_ok _ _ _ _ _ (build_run _ _ _ Hp)).
  rewrite (bind_ok _ _ _ _ _ (build_run _ _ _ Ho)).
  rewrite emit_bind; [|repeat apply live_set_trace; assumption|assumption|reflexivity].
  unfold entity at 1. rewrite (bind_ok _ _ _ _ _ (getattr_run _ _ _ _ _ _ Hid)).
  rewrite emit_bind; [|repeat apply live_set_trace; assumption|assumption|];
    [|simpl; now rewrite Hplain].
  rewrite emit_run; [|repeat apply live_set_trace; assumption|assumption|reflexivity].
  destruct st; simpl. now rewrite <- !app_assoc.
Qed.

Lemma inputs_run `{Components} source_files search_databases spectra_data isf isd isp st :
  live st ->
  items (ensure_iterable source_files) = Some isf ->
  items (ensure_iterable search_databases) = Some isd ->
  items (ensure_iterable spectra_data) = Some isp ->
  forallb (acceptable "SourceFile") isf = true ->
  forallb (acceptable "SearchDatabase") isd = true ->
  forallb (acceptable "SpectraData") isp = true ->
  accepts "Inputs"
    [VList (map (entity "SourceFile") isf); VList (map (entity "SearchDatabase") isd);
     VList (map (entity "SpectraData") isp)] [] = true ->
  MzIdentMLWriter.inputs source_files search_databases spectra_data st
  = (Ok tt,
     set_trace
       (trace st
        ++ map (creation "SourceFile") isf
        ++ map (creation "SearchDatabase") isd
        ++ map (creation "SpectraData") isp
        ++ emitted "Inputs"
             [VList (map (entity "SourceFile") isf);
              VList (map (entity "SearchDatabase") isd);
              VList (map (entity "SpectraData") isp)] [])
       st).
Proof.
  intros Hlive H1 H2 H3 A1 A2 A3 Hacc.
  unfold MzIdentMLWriter.inputs.
  rewrite (bind_ok _ _ _ _ _ (for_each_build _ _ _ _ H1 A1)).
  rewrite (bind_ok _ _ _ _ _ (for_each_build _ _ _ _ H2 A2)).
  rewrite (bind_ok _ _ _ _ _ (for_each_build _ _ _ _ H3 A3)).
  rewrite emit_run; [|repeat apply live_set_trace; assumption|assumption|reflexivity].
  destruct st; simpl. now rewrite <- !app_assoc.
Qed.

Lemma tolerance_run `{Components} cls v st :
  tolerance_accepted cls v = true ->
  MzIdentMLWriter.tolerance cls v st
  = (Ok (toleranced cls v), set_trace (trace st ++ tolerance_events cls v) st).
Proof.
  intros Hacc.
  destruct v; simpl in *;
    try (rewrite app_nil_r, set_trace_same; reflexivity);
    now apply construct_run.
Qed.

Lemma plain_toleranced cls v : plain v = true -> plain (toleranced cls v) = true.
Proof. now destruct v. Qed.

Lemma spectrum_identification_protocol_run `{Components}
    search_type analysis_software_id id additional_search_params enzymes
    modification_params fragment_tolerance parent_tolerance threshold ie im st :
  live st ->
  items (ensure_iterable enzymes) = Some ie ->
  items (ensure_iterable modification_params) = Some im ->
  forallb (acceptable "Enzyme") ie = true ->
  forallb (acceptable "SearchModification") im = true ->
  tolerance_accepted "FragmentTolerance" fragment_tolerance = true ->
  tolerance_accepted "ParentTolerance" parent_tolerance = true ->
  accepts "Threshold" [threshold] [] = true ->
  forallb plain [search_type; analysis_software_id; id; additional_search_params;
                 fragment_tolerance; parent_tolerance] = true ->
  accepts "SpectrumIdentificationProtocol"
    [search_type; analysis_software_id; id; additional_search_params;
     VList (map (entity "Enzyme") ie); VList (map (entity "SearchModification") im);
     toleranced "FragmentTolerance" fragment_tolerance;
     toleranced "ParentTolerance" parent_tolerance;
     VObj "Threshold" [threshold] []] [] = true ->
  MzIdentMLWriter.spectrum_identification_protocol
    search_type analysis_software_id id additional_search_params enzymes
    modification_params fragment_tolerance parent_tolerance threshold st
  = (Ok tt,
     set_trace
       (trace st
        ++ map (creation "Enzyme") ie
        ++ map (creation "SearchModification") im
        ++ tolerance_events "FragmentTolerance" fragment_tolerance
        ++ tolerance_events "ParentTolerance" parent_tolerance
        ++ [ENew "Threshold" [threshold] []]
        ++ emitted "SpectrumIdentificationProtocol"
             [search_type; analysis_software_id; id; additional_search_params;
              VList (map (entity "Enzyme") ie);
              VList (map (entity "SearchModification") im);
              toleranced "FragmentTolerance" fragment_tolerance;
              toleranced "ParentTolerance" parent_tolerance;
              VObj "Threshold" [threshold] []] [])
       st).
Proof.
  intros Hlive H1 H2 A1 A2 Aft Apt Ath Hplain Hacc.
  unfold MzIdentMLWriter.spectrum_identification_protocol.
  rewrite (bind_ok _ _ _ _ _ (for_each_build _ _ _ _ H1 A1)).
  rewrite (bind_ok _ _ _ _ _ (for_each_build _ _ _ _ H2 A2)).
  rewrite (bind_ok _ _ _ _ _ (tolerance_run _ _ _ Aft)).
  rewrite (bind_ok _ _ _ _ _ (tolerance_run _ _ _ Apt)).
  rewrite (bind_ok _ _ _ _ _ (construct_run _ _ _ _ Ath)).
  rewrite emit_run; [|repeat apply live_set_trace; assumption|assumption|].
  - destruct st; simpl. now rewrite <- !app_assoc.
  - simpl in Hplain |- *.
    repeat (apply andb_prop in Hplain as [? Hplain]).
    repeat (apply andb_true_intro; split); auto using plain_toleranced.
Qed.

(** ** Generators *)

Lemma next_below_lt `{Components} n g :
  g < n -> next_below n g = step_with (next_below g) g.
Proof.
  induction n as [|n IH]; intros Hlt; [lia|]. simpl.
  destruct (Nat.eqb_spec g n) as [->|Hne]; [reflexivity|]. apply IH. lia.
Qed.

Lemma next_run `{Components} g st :
  g < length (heap st) -> next g st = step_with (next_below g) g st.
Proof. intros Hlt. unfold next. run. now rewrite next_below_lt. Qed.

Lemma step_spent `{Components} adv g b st :
  heap st !! g = Some (Generator (SItems []) b) ->
  step_with adv g st = (Ok None, st).
Proof. intros E. unfold step_with. run. now rewrite E. Qed.

Lemma next_spent `{Components} g st : spent g st -> next g st = (Ok None, st).
Proof.
  intros [b E]. rewrite next_run by (eapply lookup_lt_Some; exact E).
  eapply step_spent; exact E.
Qed.

Lemma closing_ok {A : Type} g (m : M A) st a st' :
  m st = (Ok a, st') -> closing g m st = (Ok a, st').
Proof. intros E. unfold closing. now rewrite E. Qed.

Lemma step_entity `{Components} adv g cls s rest st :
  heap st !! g = Some (Generator (SItems (s :: rest)) (BEntity cls)) ->
  acceptable cls s = true ->
  step_with adv g st
  = (Ok (Some (entity cls s)),
     set_trace (trace st ++ [creation cls s])
       (set_heap (<[g := Generator (SItems rest) (BEntity cls)]> (heap st)) st)).
Proof.
  intros E Hacc. unfold step_with. run. rewrite E. cbn [src body]. run.
  erewrite bind_ok by (apply closing_ok, build_run, Hacc). reflexivity.
Qed.

Lemma writer_write_run args kw st :
  status st = Live ->
  writer_write VWriter args kw st = (Ok tt, set_trace (trace st ++ [EWrite args kw]) st).
Proof. intros Hlive. unfold writer_write. run. now rewrite Hlive. Qed.

Lemma pending_bound h : forall g its b,
  h !! g = Some (Generator (SItems its) b) -> length its <= pending_total h.
Proof.
  induction h as [|c h IH]; intros [|g] its b E; simpl in *; try discriminate.
  - injection E as ->. simpl. lia.
  - specialize (IH _ _ _ E). destruct (src c); lia.
Qed.

Lemma drain_entities `{Components} cls its : forall fuel st g,
  status st = Live ->
  heap st !! g = Some (Generator (SItems its) (BEntity cls)) ->
  forallb (acceptable cls) its = true ->
  length its < fuel ->
  drain next fuel g (fun e => writer_write VWriter [e] []) st
  = (Ok (map (fun _ => tt) its),
     set_heap (<[g := Generator (SItems []) (BEntity cls)]> (heap st))
       (set_trace (trace st ++ streamed cls its) st)).
Proof.
  induction its as [|s its IH]; intros fuel st g Hlive Hg Hall Hfuel;
    (destruct fuel as [|fuel]; [simpl in Hfuel; lia|]); cbn [drain].
  - erewrite bind_ok by (apply next_spent; eexists; exact Hg).
    cbn beta iota. run.
    rewrite (list_insert_id _ _ _ Hg). simpl. rewrite app_nil_r. now destruct st.
  - simpl in Hall, Hfuel. apply andb_prop in Hall as [Hs Hall].
    pose proof (lookup_lt_Some _ _ _ Hg) as Hlt.
    erewrite bind_ok by (rewrite next_run by exact Hlt; apply step_entity; eassumption).
    cbn beta iota.
    erewrite bind_ok by (apply writer_write_run; exact Hlive).
    erewrite bind_ok; cycle 1.
    { apply IH; [exact Hlive| |exact Hall|lia].
      cbn [heap set_trace set_heap]. now apply list_lookup_insert_eq. }
    run. cbn [heap trace set_trace set_heap map].
    rewrite list_insert_insert_eq. destruct st; simpl. now rewrite <- !app_assoc.
Qed.

Lemma stream_entities `{Components} cls its g st :
  status st = Live ->
  heap st !! g = Some (Generator (SItems its) (BEntity cls)) ->
  forallb (acceptable cls) its = true ->
  stream VWriter (VGen g) st
  = (Ok tt,
     set_heap (<[g := Generator (SItems []) (BEntity cls)]> (heap st))
       (set_trace (trace st ++ streamed cls its) st)).
Proof.
  intros Hlive Hg Hall. unfold stream, for_each, for_each_with. run.
  erewrite bind_ok; [reflexivity|].
  apply drain_entities; try assumption.
  pose proof (pending_bound _ _ _ _ Hg). lia.
Qed.

(** Iterating over a spent generator delivers nothing and changes nothing. *)
Lemma for_each_spent `{Components} {A : Type} g (f : value -> M A) st :
  spent g st -> for_each (VGen g) f st = (Ok [], st).
Proof.
  intros Hs. unfold for_each, for_each_with. run. cbn [drain].
  now rewrite (bind_ok _ _ _ _ _ (next_spent g st Hs)).
Qed.

Lemma genexp_run b v its st :
  items v = Some its ->
  genexp b v st
  = (Ok (VGen (length (heap st))), set_heap (heap st ++ [Generator (SItems its) b]) st).
Proof.
  intros Hv. unfold genexp.
  assert (E : (match v with
               | VGen g => mret (SFrom g)
               | _ => match items v with
                      | Some xs => mret (SItems xs)
                      | None => raise TypeError
                      end
               end : M source) st = (Ok (SItems its), st))
    by (destruct v; simpl in *; try discriminate; now injection Hv as ->).
  rewrite (bind_ok _ _ _ _ _ E). now run.
Qed.

(** ** The lazy section operations *)

Lemma sequence_collection_run `{Components}
    db_sequences peptides peptide_evidence idb ip ie st :
  live st ->
  items (ensure_iterable db_sequences) = Some idb ->
  items (ensure_iterable peptides) = Some ip ->
  items (ensure_iterable peptide_evidence) = Some ie ->
  forallb (acceptable "DBSequence") idb = true ->
  forallb (acceptable "Peptide") ip = true ->
  forallb (acceptable "PeptideEvidence") ie = true ->
  accepts "SequenceCollection"
    [VGen (length (heap st)); VGen (S (length (heap st)));
     VGen (S (S (length (heap st))))] [] = true ->
  exists st',
    MzIdentMLWriter.sequence_collection db_sequences peptides peptide_evidence st
    = (Ok tt, st') /\
    trace st'
    = trace st
      ++ [ENew "SequenceCollection"
            [VGen (length (heap st)); VGen (S (length (heap st)));
             VGen (S (S (length (heap st))))] [];
          EOpen "SequenceCollection"
            [VGen (length (heap st)); VGen (S (length (heap st)));
             VGen (S (S (length (heap st))))] []]
      ++ streamed "DBSequence" idb
      ++ streamed "Peptide" ip
      ++ streamed "PeptideEvidence" ie
      ++ [EClose "SequenceCollection"] /\
    spent (length (heap st)) st' /\
    spent (S (length (heap st))) st' /\
    spent (S (S (length (heap st)))) st'.
Proof.
  intros [Hw Hlive] H1 H2 H3 A1 A2 A3 Hacc.
  unfold MzIdentMLWriter.sequence_collection.
  rewrite (bind_ok _ _ _ _ _ (genexp_run _ _ _ _ H1)).
  rewrite (bind_ok _ _ _ _ _ (genexp_run _ _ _ _ H2)).
  rewrite (bind_ok _ _ _ _ _ (genexp_run _ _ _ _ H3)).
  cbn [heap set_heap]. rewrite !length_app. cbn [length].
  rewrite !Nat.add_1_r.
  rewrite (bind_ok _ _ _ _ _ (construct_run _ _ _ _ Hacc)). run.
  cbn [writer set_trace set_heap]. rewrite Hw.
  set (n := length (heap st)) in *.
  set (G1 := Generator (SItems idb) (BEntity "DBSequence")).
  set (G2 := Generator (SItems ip) (BEntity "Peptide")).
  set (G3 := Generator (SItems ie) (BEntity "PeptideEvidence")).
  assert (L1 : (((heap st ++ [G1]) ++ [G2]) ++ [G3]) !! n = Some G1).
  { rewrite <- !app_assoc. simpl. now apply list_lookup_middle. }
  assert (L2 : (((heap st ++ [G1]) ++ [G2]) ++ [G3]) !! S n = Some G2).
  { rewrite <- (app_assoc (heap st ++ [G1])). simpl. apply list_lookup_middle.
    rewrite length_app. simpl. subst n. lia. }
  assert (L3 : (((heap st ++ [G1]) ++ [G2]) ++ [G3]) !! S (S n) = Some G3).
  { apply list_lookup_middle. rewrite !length_app. simpl. subst n. lia. }
  unfold component_write, py_with.
  erewrite bind_ok by (apply scope_enter_run; exact Hlive).
  eexists. split; [|split; [|split; [|split]]].
  - eapply leaving_ok.
    + cbn [mapM app map].
      erewrite bind_ok; cycle 1.
      { erewrite bind_ok by (eapply stream_entities; [exact Hlive|exact L1|exact A1]).
        erewrite bind_ok; cycle 1.
        { erewrite bind_ok; cycle 1.
          { eapply stream_entities; [exact Hlive| |exact A2].
            cbn [heap set_heap set_trace set_scopes].
            rewrite list_lookup_insert_ne by lia. exact L2. }
          erewrite bind_ok; cycle 1.
          { erewrite bind_ok; cycle 1.
            { eapply stream_entities; [exact Hlive| |exact A3].
              cbn [heap set_heap set_trace set_scopes].
              rewrite !list_lookup_insert_ne by lia. exact L3. }
            run. reflexivity. }
          run. reflexivity. }
        run. reflexivity. }
      run. reflexivity.
    + eapply scope_exit_run; [exact Hlive|reflexivity].
  - cbn [trace set_trace set_heap set_scopes]. now rewrite <- !app_assoc.
  - exists (BEntity "DBSequence"). cbn [heap set_trace set_heap set_scopes].
    rewrite !list_lookup_insert_ne by lia.
    apply list_lookup_insert_eq. eapply lookup_lt_Some; exact L1.
  - exists (BEntity "Peptide"). cbn [heap set_trace set_heap set_scopes].
    rewrite !list_lookup_insert_ne by lia.
    apply list_lookup_insert_eq. rewrite length_insert. eapply lookup_lt_Some; exact L2.
  - exists (BEntity "PeptideEvidence"). cbn [heap set_trace set_heap set_scopes].
    apply list_lookup_insert_eq. rewrite !length_insert. eapply lookup_lt_Some; exact L3.
Qed.



(** ** The providence section *)

(** C4.  [providence] called without owner and organization builds a
    default [Person] and a default [Organization], emits the
    [AnalysisSoftwareList], then a [Provider] whose [contact] is the [id]
    read from that very [Person], and last an [AuditCollection] that nests
    the same [Person] and the [Organization]: the identifier in the
    [Provider] is the identifier of the person in the [AuditCollection]. *)
Theorem providence_default_owner `{Components}
    (software : value) (its : list value) (pid : value) (st : state) :
  live st ->
  items (ensure_iterable software) = Some its ->
  forallb (acceptable "AnalysisSoftware") its = true ->
  accepts "Person" [] [] = true ->
  accepts "Organization" [] [] = true ->
  accepts "GenericCollection"
    [VStr "AnalysisSoftwareList"; VList (map (entity "AnalysisSoftware") its)] [] = true ->
  attr (VObj "Person" [] []) "id" = Some pid ->
  plain pid = true ->
  accepts "Provider" [] [("contact", pid)] = true ->
  accepts "AuditCollection"
    [VList [VObj "Person" [] []]; VList [VObj "Organization" [] []]] [] = true ->
  MzIdentMLWriter.providence software VNone VNone st
  = (Ok tt,
     set_trace
       (trace st
        ++ map (creation "AnalysisSoftware") its
        ++ [ENew "Person" [] []; ENew "Organization" [] []]
        ++ emitted "GenericCollection"
             [VStr "AnalysisSoftwareList"; VList (map (entity "AnalysisSoftware") its)] []
        ++ emitted "Provider" [] [("contact", pid)]
        ++ emitted "AuditCollection"
             [VList [VObj "Person" [] []]; VList [VObj "Organization" [] []]] [])
       st)
  /\ getattr (VObj "Person" [] []) "id" st = (Ok pid, st).
Proof.
  intros Hlive Hits Hsw Hp Ho Hasl Hid Hplain Hprov Haudit. split.
  - exact (providence_run software VNone VNone its pid st
             Hlive Hits Hsw Hp Ho Hasl Hid Hplain Hprov Haudit).
  - now apply getattr_run.
Qed.

Lemma providence_default_owner_witness :
  @MzIdentMLWriter.providence permissive _t VNone VNone (entered [])
  = (Ok tt,
     set_trace
       (trace (entered [])
        ++ map (creation "AnalysisSoftware") []
        ++ [ENew "Person" [] []; ENew "Organization" [] []]
        ++ emitted "GenericCollection"
             [VStr "AnalysisSoftwareList"; VList (map (entity "AnalysisSoftware") [])] []
        ++ emitted "Provider" [] [("contact", VInt 1)]
        ++ emitted "AuditCollection"
             [VList [VObj "Person" [] []]; VList [VObj "Organization" [] []]] [])
       (entered []))
  /\ @getattr permissive (VObj "Person" [] []) "id" (entered []) = (Ok (VInt 1), entered []).
Proof.
  apply (@providence_default_owner permissive _t [] (VInt 1) (entered []));
    first [reflexivity | split; reflexivity].
Defined.

(** ** The protocol section *)

(** C7.  In [spectrum_identification_protocol] a fragment or parent
    tolerance given as a list or a tuple becomes a [FragmentTolerance] or
    [ParentTolerance] built positionally from its elements, any other value
    is handed on as it is, and the threshold is wrapped in a [Threshold]
    whatever it is, [None] included; the protocol is built from these. *)
Theorem protocol_tolerances_and_threshold `{Components}
    (search_type analysis_software_id id additional_search_params enzymes
     modification_params fragment_tolerance parent_tolerance threshold : value)
    (ie im : list value) (st : state) :
  live st ->
  items (ensure_iterable enzymes) = Some ie ->
  items (ensure_iterable modification_params) = Some im ->
  forallb (acceptable "Enzyme") ie = true ->
  forallb (acceptable "SearchModification") im = true ->
  tolerance_accepted "FragmentTolerance" fragment_tolerance = true ->
  tolerance_accepted "ParentTolerance" parent_tolerance = true ->
  accepts "Threshold" [threshold] [] = true ->
  forallb plain [search_type; analysis_software_id; id; additional_search_params;
                 fragment_tolerance; parent_tolerance] = true ->
  accepts "SpectrumIdentificationProtocol"
    [search_type; analysis_software_id; id; additional_search_params;
     VList (map (entity "Enzyme") ie); VList (map (entity "SearchModification") im);
     toleranced "FragmentTolerance" fragment_tolerance;
     toleranced "ParentTolerance" parent_tolerance;
     VObj "Threshold" [threshold] []] [] = true ->
  exists ft pt ft_built pt_built,
    MzIdentMLWriter.spectrum_identification_protocol
      search_type analysis_software_id id additional_search_params enzymes
      modification_params fragment_tolerance parent_tolerance threshold st
    = (Ok tt,
       set_trace
         (trace st
          ++ map (creation "Enzyme") ie
          ++ map (creation "SearchModification") im
          ++ ft_built ++ pt_built
          ++ [ENew "Threshold" [threshold] []]
          ++ emitted "SpectrumIdentificationProtocol"
               [search_type; analysis_software_id; id; additional_search_params;
                VList (map (entity "Enzyme") ie);
                VList (map (entity "SearchModification") im);
                ft; pt; VObj "Threshold" [threshold] []] [])
         st) /\
    (forall xs, fragment_tolerance = VList xs \/ fragment_tolerance = VTuple xs ->
       ft = VObj "FragmentTolerance" xs [] /\
       ft_built = [ENew "FragmentTolerance" xs []]) /\
    (is_list_or_tuple fragment_tolerance = false ->
       ft = fragment_tolerance /\ ft_built = []) /\
    (forall xs, parent_tolerance = VList xs \/ parent_tolerance = VTuple xs ->
       pt = VObj "ParentTolerance" xs [] /\
       pt_built = [ENew "ParentTolerance" xs []]) /\
    (is_list_or_tuple parent_tolerance = false ->
       pt = parent_tolerance /\ pt_built = []).
Proof.
  intros Hlive H1 H2 A1 A2 Aft Apt Ath Hplain Hacc.
  exists (toleranced "FragmentTolerance" fragment_tolerance),
         (toleranced "ParentTolerance" parent_tolerance),
         (tolerance_events "FragmentTolerance" fragment_tolerance),
         (tolerance_events "ParentTolerance" parent_tolerance).
  split; [now apply spectrum_identification_protocol_run|].
  split; [intros xs [-> | ->]; split; reflexivity|].
  split; [destruct fragment_tolerance; intros; try discriminate; split; reflexivity|].
  split; [intros xs [-> | ->]; split; reflexivity|].
  destruct parent_tolerance; intros; try discriminate; split; reflexivity.
Qed.

Lemma protocol_tolerances_and_threshold_witness :
  exists ft pt ft_built pt_built,
    @MzIdentMLWriter.spectrum_identification_protocol permissive
      (VStr "ms-ms search") (VInt 1) (VInt 1) _t _t _t
      (VTuple [VInt 10; VInt 10; VStr "ppm"]) (VObj "ParentTolerance" [VInt 5] []) VNone
      (entered [])
    = (Ok tt,
       set_trace
         (trace (entered [])
          ++ map (creation "Enzyme") []
          ++ map (creation "SearchModification") []
          ++ ft_built ++ pt_built
          ++ [ENew "Threshold" [VNone] []]
          ++ emitted "SpectrumIdentificationProtocol"
               [VStr "ms-ms search"; VInt 1; VInt 1; _t;
                VList (map (entity "Enzyme") []);
                VList (map (entity "SearchModification") []);
                ft; pt; VObj "Threshold" [VNone] []] [])
         (entered [])) /\
    (forall xs, VTuple [VInt 10; VInt 10; VStr "ppm"] = VList xs
                \/ VTuple [VInt 10; VInt 10; VStr "ppm"] = VTuple xs ->
       ft = VObj "FragmentTolerance" xs [] /\
       ft_built = [ENew "FragmentTolerance" xs []]) /\
    (is_list_or_tuple (VTuple [VInt 10; VInt 10; VStr "ppm"]) = false ->
       ft = VTuple [VInt 10; VInt 10; VStr "ppm"] /\ ft_built = []) /\
    (forall xs, VObj "ParentTolerance" [VInt 5] [] = VList xs
                \/ VObj "ParentTolerance" [VInt 5] [] = VTuple xs ->
       pt = VObj "ParentTolerance" xs [] /\
       pt_built = [ENew "ParentTolerance" xs []]) /\
    (is_list_or_tuple (VObj "ParentTolerance" [VInt 5] []) = false ->
       pt = VObj "ParentTolerance" [VInt 5] [] /\ pt_built = []).
Proof.
  apply (@protocol_tolerances_and_threshold permissive
           (VStr "ms-ms search") (VInt 1) (VInt 1) _t _t _t
           (VTuple [VInt 10; VInt 10; VStr "ppm"]) (VObj "ParentTolerance" [VInt 5] []) VNone
           [] [] (entered []));
    first [reflexivity | split; reflexivity].
Defined.

(** ** Leaving the session *)

Lemma exit_run exc tag args kw rest st :
  writer st = VWriter ->
  status st = Live ->
  toplevel st = VScope tag args kw ->
  scopes st = tag :: rest ->
  MzIdentMLWriter.__exit__ exc st
  = (Ok tt,
     set_sink_open false
       (set_status Finished
          (set_scopes rest
             (set_trace (trace st ++ [EClose tag; EFlush; EFinish; ESinkClose]) st)))).
Proof.
  intros Hw Hlive Htop Hsc. unfold MzIdentMLWriter.__exit__. run. rewrite Htop.
  rewrite (bind_ok _ _ _ _ _ (scope_exit_run tag args kw exc rest st Hlive Hsc)). run.
  cbn [writer set_trace set_scopes]. rewrite Hw.
  unfold writer_flush, xmlfile_exit, outfile_close, log. run.
  cbn [status set_trace set_scopes]. rewrite Hlive. run.
  cbn [status set_trace set_scopes]. rewrite Hlive. run.
  unfold modify. destruct st; simpl. now rewrite <- !app_assoc.
Qed.

Lemma scope_exit_raises cm exc st e st' :
  scope_exit cm exc st = (Raise e, st') -> st' = st.
Proof.
  unfold scope_exit. destruct cm; try (now intros [= _ <-]).
  run. destruct (status st); try (now intros [= _ <-]).
  destruct (scopes st) as [|top rest]; try (now intros [= _ <-]).
  destruct (String.eqb top tag); [discriminate|now intros [= _ <-]].
Qed.

Lemma scope_exit_trace cm exc st st' :
  scope_exit cm exc st = (Ok tt, st') ->
  sink_open st' = sink_open st /\ writer st' = writer st /\ status st' = status st /\
  exists tag, trace st' = trace st ++ [EClose tag].
Proof.
  unfold scope_exit. destruct cm; try discriminate.
  run. destruct (status st) eqn:Hst; try discriminate.
  destruct (scopes st) as [|top rest]; try discriminate.
  destruct (String.eqb top tag); [|discriminate].
  run. rewrite log_run. intros [= <-].
  split; [reflexivity|]. split; [reflexivity|]. split; [now rewrite <- Hst|].
  eexists. reflexivity.
Qed.

Lemma writer_flush_cases w st :
  writer_flush w st = (Ok tt, set_trace (trace st ++ [EFlush]) st)
  \/ exists e, writer_flush w st = (Raise e, st).
Proof.
  unfold writer_flush. destruct w; try (right; eexists; reflexivity).
  run. destruct (status st); try (right; eexists; reflexivity). now left.
Qed.

Lemma xmlfile_exit_cases exc st :
  xmlfile_exit exc st
  = (Ok tt, set_trace (trace st ++ [EFinish]) (set_status Finished st))
  \/ exists e, xmlfile_exit exc st = (Raise e, st).
Proof.
  unfold xmlfile_exit. run.
  destruct (status st); try (right; eexists; reflexivity). now left.
Qed.

(** An [__exit__] that raises has not reached the close of the sink; one
    that returns has closed it as its last step. *)
Lemma exit_outcome exc st :
  (forall e st', MzIdentMLWriter.__exit__ exc st = (Raise e, st') ->
     sink_open st' = sink_open st /\
     exists evs, trace st' = trace st ++ evs /\ ~ In ESinkClose evs) /\
  (forall st', MzIdentMLWriter.__exit__ exc st = (Ok tt, st') ->
     sink_open st' = false /\ status st' = Finished /\
     exists tag, trace st' = trace st ++ [EClose tag; EFlush; EFinish; ESinkClose]).
Proof.
  unfold MzIdentMLWriter.__exit__. run.
  destruct (scope_exit (toplevel st) exc st) as [[[]|e1] st1] eqn:E1.
  - destruct (scope_exit_trace _ _ _ _ E1) as (Hso & Hw & Hst & tag & Htr).
    rewrite (bind_ok _ _ _ _ _ E1). run.
    destruct (writer_flush_cases (writer st1) st1) as [E2|[e2 E2]].
    + rewrite (bind_ok _ _ _ _ _ E2).
      destruct (xmlfile_exit_cases exc (set_trace (trace st1 ++ [EFlush]) st1)) as [E3|[e3 E3]].
      * rewrite (bind_ok _ _ _ _ _ E3). unfold outfile_close, log. run. split.
        -- intros e st' [=].
        -- intros st' [= <-]. split; [reflexivity|]. split; [reflexivity|]. exists tag.
           cbn [trace set_trace set_status set_sink_open]. rewrite Htr.
           now rewrite <- !app_assoc.
      * rewrite (bind_raise _ _ _ _ _ E3). split; [|intros st' [=]].
        intros e st' [= <- <-]. split; [exact Hso|].
        exists [EClose tag; EFlush]. cbn [trace set_trace]. rewrite Htr.
        rewrite <- app_assoc. split; [reflexivity|].
        simpl. intros [|[|[]]]; discriminate.
    + rewrite (bind_raise _ _ _ _ _ E2). split; [|intros st' [=]].
      intros e st' [= <- <-]. split; [exact Hso|].
      exists [EClose tag]. split; [exact Htr|]. simpl. intros [|[]]; discriminate.
  - rewrite (bind_raise _ _ _ _ _ E1). split; [|intros st' [=]].
    intros e st' [= <- <-]. rewrite (scope_exit_raises _ _ _ _ _ E1).
    split; [reflexivity|]. exists []. rewrite app_nil_r. split; [reflexivity|]. intros [].
Qed.






(** ** Outside of the session *)

Create HintDb unaware.

Lemma unaware_ret {A : Type} (a : A) : unaware (mret a : M A).
Proof. intros st. repeat split. discriminate. Qed.

Lemma unaware_raise {A : Type} e : e <> NotReadyError -> unaware (raise e : M A).
Proof. intros Hne st. repeat split. simpl. congruence. Qed.

Lemma unaware_get : unaware get.
Proof. intros st. repeat split. discriminate. Qed.

Lemma unaware_modify f :
  (forall st, writer (f st) = writer st /\ status (f st) = status st) ->
  unaware (modify f).
Proof. intros Hf st. destruct (Hf st). repeat split; try assumption. discriminate. Qed.

Lemma unaware_log e : unaware (log e).
Proof. apply unaware_modify. now intros st. Qed.

Lemma unaware_bind {A B : Type} (m : M A) (f : A -> M B) :
  unaware m -> (forall a, unaware (f a)) -> unaware (m ≫= f).
Proof.
  intros Hm Hf st. unfold mbind, M_bind.
  destruct (Hm st) as (Hw & Hs & Hr). destruct (m st) as [[a|e] st1]; simpl in *.
  - destruct (Hf a st1) as (Hw' & Hs' & Hr'). repeat split; congruence.
  - repeat split; try assumption. congruence.
Qed.

#[local] Hint Resolve unaware_ret unaware_get unaware_log unaware_bind : unaware.
#[local] Hint Extern 1 (unaware (raise _)) =>
  apply unaware_raise; discriminate : unaware.
#[local] Hint Extern 1 (unaware (modify _)) =>
  apply unaware_modify; intros; split; reflexivity : unaware.

Lemma unaware_mapM {A B : Type} (f : A -> M B) xs :
  (forall x, unaware (f x)) -> unaware (mapM f xs).
Proof. intros Hf. induction xs; simpl; auto with unaware. Qed.

Lemma unaware_construct `{Components} cls args kw : unaware (construct cls args kw).
Proof. unfold construct. destruct (accepts cls args kw); auto with unaware. Qed.

Lemma unaware_getattr `{Components} obj name : unaware (getattr obj name).
Proof.
  unfold getattr. destruct obj; auto with unaware.
  destruct (attr _ name); auto with unaware.
Qed.

Lemma unaware_unpack obj : unaware (unpack obj).
Proof.
  unfold unpack. destruct obj; auto with unaware.
  destruct (str_keys kvs); auto with unaware.
Qed.

Lemma unaware_check_keywords params kw : unaware (check_keywords params kw).
Proof. unfold check_keywords. destruct (forallb _ kw); auto with unaware. Qed.

Lemma unaware_required k kw : unaware (required k kw).
Proof. unfold required. destruct (lookup_kw k kw); auto with unaware. Qed.

#[local] Hint Resolve unaware_mapM unaware_construct unaware_getattr unaware_unpack
  unaware_check_keywords unaware_required : unaware.

Lemma unaware_build `{Components} cls s : unaware (build cls s).
Proof. unfold build. auto with unaware. Qed.

Lemma unaware_call_item `{Components} s : unaware (call_spectrum_identification_item s).
Proof.
  unfold call_spectrum_identification_item, _spectrum_identification_item.
  auto 20 with unaware.
Qed.

Lemma unaware_closing {A : Type} g (m : M A) : unaware m -> unaware (closing g m).
Proof.
  intros Hm st. unfold closing. destruct (Hm st) as (Hw & Hs & Hr).
  destruct (m st) as [[a|e] st1]; simpl in *; repeat split; assumption.
Qed.

#[local] Hint Resolve unaware_build unaware_call_item unaware_closing : unaware.

Lemma unaware_drain {A : Type} adv fuel g (f : value -> M A) :
  (forall g', unaware (adv g')) -> (forall x, unaware (f x)) ->
  unaware (drain adv fuel g f).
Proof.
  intros Hadv Hf. induction fuel; simpl; auto with unaware.
  apply unaware_bind; [apply Hadv|]. intros [x|]; auto with unaware.
Qed.

Lemma unaware_for_each_with {A : Type} adv iterable (f : value -> M A) :
  (forall g', unaware (adv g')) -> (forall x, unaware (f x)) ->
  unaware (for_each_with adv iterable f).
Proof.
  intros Hadv Hf. unfold for_each_with.
  destruct iterable; cbn [items]; auto with unaware.
  apply unaware_bind; [apply unaware_get|]. intros st. now apply unaware_drain.
Qed.

Lemma unaware_call_result_with `{Components} adv s :
  (forall g', unaware (adv g')) ->
  unaware (call_spectrum_identification_result_with adv s).
Proof.
  intros Hadv.
  unfold call_spectrum_identification_result_with, _spectrum_identification_result_with.
  auto 20 using unaware_for_each_with with unaware.
Qed.

Lemma unaware_yield_with `{Components} adv b s :
  (forall g', unaware (adv g')) -> unaware (yield_with adv b s).
Proof.
  intros Hadv. destruct b; simpl; auto using unaware_call_result_with with unaware.
Qed.

Lemma unaware_step_with `{Components} adv g :
  (forall g', unaware (adv g')) -> unaware (step_with adv g).
Proof.
  intros Hadv. unfold step_with. apply unaware_bind; [apply unaware_get|].
  intros st. destruct (heap st !! g) as [c|]; auto with unaware.
  destruct (src c) as [[|s rest]|g']; auto 10 using unaware_yield_with with unaware.
  apply unaware_bind; [auto with unaware|].
  intros [s|]; auto 10 using unaware_yield_with with unaware.
Qed.

Lemma unaware_next_below `{Components} n : forall g, unaware (next_below n g).
Proof.
  induction n as [|n IH]; intros g; simpl; auto with unaware.
  destruct (Nat.eqb g n); auto using unaware_step_with.
Qed.

Lemma unaware_next `{Components} g : unaware (next g).
Proof. unfold next. auto using unaware_next_below with unaware. Qed.

Lemma unaware_for_each `{Components} {A : Type} iterable (f : value -> M A) :
  (forall x, unaware (f x)) -> unaware (for_each iterable f).
Proof. intros Hf. apply unaware_for_each_with; auto using unaware_next. Qed.

Lemma unaware_genexp b iterable : unaware (genexp b iterable).
Proof.
  unfold genexp. apply unaware_bind; [|auto 10 with unaware].
  destruct iterable; simpl; auto with unaware.
Qed.

Lemma unaware_tolerance `{Components} cls v : unaware (MzIdentMLWriter.tolerance cls v).
Proof. destruct v; simpl; auto with unaware. Qed.

Lemma unaware_vocabularies_extend `{Components} v : unaware (vocabularies_extend v).
Proof.
  unfold vocabularies_extend. apply unaware_bind; [|auto with unaware].
  apply unaware_for_each. auto with unaware.
Qed.

Lemma unaware_self_vocabularies : unaware self_vocabularies.
Proof. unfold self_vocabularies. auto with unaware. Qed.

#[local] Hint Resolve unaware_for_each unaware_genexp unaware_tolerance
  unaware_vocabularies_extend unaware_self_vocabularies : unaware.

Lemma outside_kept {A : Type} (m : M A) st :
  unaware m -> outside st -> outside (snd (m st)).
Proof.
  intros Hm Hout. destruct (Hm st) as (Hw & Hs & _).
  unfold outside in *. rewrite Hw, Hs. exact Hout.
Qed.

Lemma refused_after {A B : Type} (m : M A) (f : A -> M B) :
  unaware m -> (forall a, refused (f a)) -> refused (m ≫= f).
Proof.
  intros Hm Hf st Hout. unfold mbind, M_bind.
  pose proof (outside_kept m st Hm Hout) as Hout'.
  destruct (Hm st) as (_ & _ & Hr).
  destruct (m st) as [[a|e] st1]; simpl in *.
  - apply Hf, Hout'.
  - exists e, st1. split; [reflexivity|congruence].
Qed.

(** Writing a component needs a live writer. *)
Lemma refused_component_write `{Components} component :
  refused (st ← get; component_write component (writer st)).
Proof.
  intros st Hout. run. unfold component_write.
  destruct component; try (exists AttributeError, st; split; [reflexivity|discriminate]).
  destruct (writer st) eqn:Hw;
    try (exists AttributeError, st; split; [reflexivity|discriminate]).
  destruct Hout as [Hn|Hs]; [congruence|].
  exists ScopeViolationError, st. split; [|discriminate].
  unfold py_with, scope_enter. run.
  destruct (status st); try reflexivity. congruence.
Qed.

Lemma refused_write_then `{Components} {B : Type} component (k : unit -> M B) :
  refused (st ← get; component_write component (writer st) ≫= k).
Proof.
  intros st Hout.
  destruct (refused_component_write component st Hout) as (e & st' & E & Hne).
  exists e, st'. split; [|exact Hne].
  rewrite bind_get in E. rewrite bind_get. now apply bind_raise.
Qed.

#[local] Hint Resolve refused_component_write refused_write_then : unaware.

Ltac refuse :=
  repeat first
    [ apply refused_component_write
    | apply refused_write_then
    | apply refused_after; [solve [auto 10 with unaware]|intros] ].

Lemma refused_controlled_vocabularies `{Components} v :
  refused (MzIdentMLWriter.controlled_vocabularies v).
Proof. unfold MzIdentMLWriter.controlled_vocabularies. refuse. Qed.

Lemma refused_providence `{Components} software owner organization :
  refused (MzIdentMLWriter.providence software owner organization).
Proof. unfold MzIdentMLWriter.providence. refuse. Qed.

Lemma refused_inputs `{Components} source_files search_databases spectra_data :
  refused (MzIdentMLWriter.inputs source_files search_databases spectra_data).
Proof. unfold MzIdentMLWriter.inputs. refuse. Qed.

Lemma refused_sequence_collection `{Components} db_sequences peptides peptide_evidence :
  refused (MzIdentMLWriter.sequence_collection db_sequences peptides peptide_evidence).
Proof. unfold MzIdentMLWriter.sequence_collection. refuse. Qed.

Lemma refused_spectrum_identification_protocol `{Components}
    search_type analysis_software_id id additional_search_params enzymes
    modification_params fragment_tolerance parent_tolerance threshold :
  refused (MzIdentMLWriter.spectrum_identification_protocol
             search_type analysis_software_id id additional_search_params enzymes
             modification_params fragment_tolerance parent_tolerance threshold).
Proof. unfold MzIdentMLWriter.spectrum_identification_protocol. refuse. Qed.

Lemma refused_spectrum_identification_list `{Components} id identification_results :
  refused (MzIdentMLWriter.spectrum_identification_list id identification_results).
Proof. unfold MzIdentMLWriter.spectrum_identification_list. refuse. Qed.

Lemma handler_run {A : Type} (m h : M A) st st' :
  m st = (Raise AttributeError, st') ->
  try_except_AttributeError m h st = h st'.
Proof. intros E. unfold try_except_AttributeError. now rewrite E. Qed.

Lemma handler_skipped {A : Type} (m h : M A) st e st' :
  m st = (Raise e, st') ->
  e <> AttributeError ->
  try_except_AttributeError m h st = (Raise e, st').
Proof.
  intros E Hne. unfold try_except_AttributeError. rewrite E.
  destruct e; congruence.
Qed.

Lemma not_created_unset {A : Type} st :
  writer st = VNone -> @XMLWriterMixin.not_created A st = (Raise NotReadyError, st).
Proof. intros Hw. unfold XMLWriterMixin.not_created. now rewrite bind_get, Hw. Qed.

Lemma not_created_raises {A : Type} st :
  exists e, @XMLWriterMixin.not_created A st = (Raise e, st).
Proof.
  unfold XMLWriterMixin.not_created. rewrite bind_get.
  destruct (writer st); eexists; reflexivity.
Qed.

Lemma scope_enter_outside tag args kw st :
  status st <> Live ->
  scope_enter (VScope tag args kw) st = (Raise ScopeViolationError, st).
Proof.
  intros Hs. unfold scope_enter. rewrite bind_get.
  destruct (status st); try reflexivity. congruence.
Qed.

Lemma write_unset args kw st :
  writer st = VNone ->
  XMLWriterMixin.write args kw st = (Raise NotReadyError, st).
Proof.
  intros Hw. unfold XMLWriterMixin.write.
  erewrite handler_run by (rewrite bind_get, Hw; reflexivity).
  now apply not_created_unset.
Qed.

Lemma element_unset {A : Type} name kw (body : M A) st :
  writer st = VNone ->
  XMLWriterMixin.element name kw body st = (Raise NotReadyError, st).
Proof.
  intros Hw. unfold XMLWriterMixin.element.
  erewrite handler_run by (rewrite bind_get, Hw; destruct name; reflexivity).
  now apply not_created_unset.
Qed.

Lemma write_outside args kw st :
  status st <> Live ->
  exists e st', XMLWriterMixin.write args kw st = (Raise e, st').
Proof.
  intros Hs. unfold XMLWriterMixin.write.
  destruct (@not_created_raises unit st) as [e He].
  destruct (writer st) eqn:Hw;
    try (exists e, st;
         erewrite handler_run by (rewrite bind_get, Hw; reflexivity); exact He).
  exists ScopeViolationError, st. apply handler_skipped; [|discriminate].
  rewrite bind_get, Hw. unfold writer_write. rewrite bind_get.
  destruct (status st); try reflexivity. congruence.
Qed.

Lemma element_outside {A : Type} name kw (body : M A) st :
  status st <> Live ->
  exists e st', XMLWriterMixin.element name kw body st = (Raise e, st').
Proof.
  intros Hs. unfold XMLWriterMixin.element.
  destruct (@not_created_raises A st) as [e He].
  assert (Hcm : forall tag args kws,
            py_with (VScope tag args kws) body st = (Raise ScopeViolationError, st)).
  { intros. unfold py_with. now rewrite (bind_raise _ _ _ _ _ (scope_enter_outside _ _ _ _ Hs)). }
  destruct (writer st) eqn:Hw;
    try (exists e, st;
         erewrite handler_run by (rewrite bind_get, Hw; destruct name; reflexivity);
         exact He).
  destruct name;
    try (exists e, st;
         erewrite handler_run by (rewrite bind_get, Hw; reflexivity); exact He);
    (exists ScopeViolationError, st; apply handler_skipped; [|discriminate];
     rewrite bind_get, Hw; cbn [components_element method_element];
     rewrite bind_ret; apply Hcm).
Qed.

(** C1.  Before the session is entered ([self.writer] still unset) the two
    methods of the mixin, [write] and [element], raise the not-ready error.
    The six section operations fail there as well, but never with that
    error: they hand [self.writer] to the component themselves, outside of
    the [try] of the mixin, and the error of the component (an
    [AttributeError] on the unset writer, unless an argument is refused
    first) comes out as it is.  After the exit no operation succeeds. *)
Theorem operations_outside_the_session `{Components} (st : state) :
  writer st = VNone ->
  (forall args kw, XMLWriterMixin.write args kw st = (Raise NotReadyError, st)) /\
  (forall (A : Type) name kw (body : M A),
     XMLWriterMixin.element name kw body st = (Raise NotReadyError, st)) /\
  (forall v, exists e st',
     MzIdentMLWriter.controlled_vocabularies v st = (Raise e, st') /\
     e <> NotReadyError) /\
  (forall software owner organization, exists e st',
     MzIdentMLWriter.providence software owner organization st = (Raise e, st') /\
     e <> NotReadyError) /\
  (forall source_files search_databases spectra_data, exists e st',
     MzIdentMLWriter.inputs source_files search_databases spectra_data st = (Raise e, st') /\
     e <> NotReadyError) /\
  (forall db_sequences peptides peptide_evidence, exists e st',
     MzIdentMLWriter.sequence_collection db_sequences peptides peptide_evidence st
     = (Raise e, st') /\
     e <> NotReadyError) /\
  (forall search_type analysis_software_id id additional_search_params enzymes
          modification_params fragment_tolerance parent_tolerance threshold,
     exists e st',
       MzIdentMLWriter.spectrum_identification_protocol
         search_type analysis_software_id id additional_search_params enzymes
         modification_params fragment_tolerance parent_tolerance threshold st
       = (Raise e, st') /\
       e <> NotReadyError) /\
  (forall id identification_results, exists e st',
     MzIdentMLWriter.spectrum_identification_list id identification_results st
     = (Raise e, st') /\
     e <> NotReadyError) /\
  (forall exc st1 st2,
     MzIdentMLWriter.__exit__ exc st1 = (Ok tt, st2) ->
     (forall args kw, exists e st', XMLWriterMixin.write args kw st2 = (Raise e, st')) /\
     (forall (A : Type) name kw (body : M A), exists e st',
        XMLWriterMixin.element name kw body st2 = (Raise e, st')) /\
     (forall v, exists e st',
        MzIdentMLWriter.controlled_vocabularies v st2 = (Raise e, st')) /\
     (forall software owner organization, exists e st',
        MzIdentMLWriter.providence software owner organization st2 = (Raise e, st')) /\
     (forall source_files search_databases spectra_data, exists e st',
        MzIdentMLWriter.inputs source_files search_databases spectra_data st2
        = (Raise e, st')) /\
     (forall db_sequences peptides peptide_evidence, exists e st',
        MzIdentMLWriter.sequence_collection db_sequences peptides peptide_evidence st2
        = (Raise e, st')) /\
     (forall search_type analysis_software_id id additional_search_params enzymes
             modification_params fragment_tolerance parent_tolerance threshold,
        exists e st',
          MzIdentMLWriter.spectrum_identification_protocol
            search_type analysis_software_id id additional_search_params enzymes
            modification_params fragment_tolerance parent_tolerance threshold st2
          = (Raise e, st')) /\
     (forall id identification_results, exists e st',
        MzIdentMLWriter.spectrum_identification_list id identification_results st2
        = (Raise e, st'))).
Proof.
  intros Hw.
  assert (Hout : outside st) by now left.
  split; [intros; now apply write_unset|].
  split; [intros; now apply element_unset|].
  split; [intros; now apply refused_controlled_vocabularies|].
  split; [intros; now apply refused_providence|].
  split; [intros; now apply refused_inputs|].
  split; [intros; now apply refused_sequence_collection|].
  split; [intros; now apply refused_spectrum_identification_protocol|].
  split; [intros; now apply refused_spectrum_identification_list|].
  intros exc st1 st2 Hexit.
  destruct (proj2 (exit_outcome exc st1) st2 Hexit) as (_ & Hfin & _).
  assert (Hs : status st2 <> Live) by (rewrite Hfin; discriminate).
  assert (Hout2 : outside st2) by now right.
  assert (Hweak : forall (m : M unit), refused m -> exists e st', m st2 = (Raise e, st')).
  { intros m Hm. destruct (Hm st2 Hout2) as (e & st' & E & _). now exists e, st'. }
  split; [intros; now apply write_outside|].
  split; [intros; now apply element_outside|].
  split; [intros; apply Hweak, refused_controlled_vocabularies|].
  split; [intros; apply Hweak, refused_providence|].
  split; [intros; apply Hweak, refused_inputs|].
  split; [intros; apply Hweak, refused_sequence_collection|].
  split; [intros; apply Hweak, refused_spectrum_identification_protocol|].
  intros; apply Hweak, refused_spectrum_identification_list.
Qed.

Lemma operations_outside_the_session_witness :
  writer (MzIdentMLWriter.__init__ []) = VNone /\
  (forall args kw,
     XMLWriterMixin.write args kw (MzIdentMLWriter.__init__ [])
     = (Raise NotReadyError, MzIdentMLWriter.__init__ [])) /\
  (forall v, exists e st',
     @MzIdentMLWriter.controlled_vocabularies permissive v (MzIdentMLWriter.__init__ [])
     = (Raise e, st') /\
     e <> NotReadyError) /\
  (forall software owner organization, exists e st',
     @MzIdentMLWriter.providence permissive software owner organization
       (MzIdentMLWriter.__init__ [])
     = (Raise e, st') /\
     e <> NotReadyError).
Proof.
  split; [reflexivity|].
  destruct (@operations_outside_the_session permissive (MzIdentMLWriter.__init__ []) eq_refl)
    as (Hwrite & _ & Hcv & Hprov & _).
  split; [exact Hwrite|]. split; [exact Hcv|exact Hprov].
Defined.

(** The operations of C1 on a session that was created and not entered:
    [write] raises the not-ready error, [controlled_vocabularies] an
    [AttributeError]. *)
Example operations_before_entry :
  XMLWriterMixin.write [VStr "text"] [] (MzIdentMLWriter.__init__ [])
  = (Raise NotReadyError, MzIdentMLWriter.__init__ []) /\
  fst (@MzIdentMLWriter.controlled_vocabularies permissive (VList [])
         (MzIdentMLWriter.__init__ []))
  = Raise AttributeError /\
  fst (@MzIdentMLWriter.providence permissive _t VNone VNone (MzIdentMLWriter.__init__ []))
  = Raise AttributeError.
Proof. repeat split. Qed.

(** ** Identification results and items *)

Lemma required_run k kw v st :
  lookup_kw k kw = Some v -> required k kw st = (Ok v, st).
Proof. intros E. unfold required. now rewrite E. Qed.

Lemma check_keywords_run params kw st :
  known params kw = true -> check_keywords params kw st = (Ok tt, st).
Proof. intros E. unfold check_keywords. unfold known in E. now rewrite E. Qed.

Lemma call_item_run `{Components} s item st :
  identification_item s = Some item ->
  accepted item = true ->
  call_spectrum_identification_item s st
  = (Ok item, set_trace (trace st ++ made item) st).
Proof.
  unfold identification_item.
  destruct (item_kwargs s) as [kw|] eqn:Hkw; [|discriminate].
  destruct (lookup_kw "calculated_mass_to_charge" kw) as [c|] eqn:E1; [|discriminate].
  destruct (lookup_kw "experimental_mass_to_charge" kw) as [e|] eqn:E2; [|discriminate].
  destruct (lookup_kw "charge_state" kw) as [ch|] eqn:E3; [|discriminate].
  destruct (lookup_kw "peptide_id" kw) as [p|] eqn:E4; [|discriminate].
  destruct (lookup_kw "peptide_evidence_id" kw) as [pe|] eqn:E5; [|discriminate].
  destruct (lookup_kw "score" kw) as [sc|] eqn:E6; [|discriminate].
  destruct (lookup_kw "id" kw) as [i|] eqn:E7; [|discriminate].
  destruct (known item_parameters kw) eqn:Hk; [|discriminate].
  intros [= <-] Hacc. unfold call_spectrum_identification_item.
  rewrite (bind_ok _ _ _ _ _ (unpack_item _ _ st Hkw)).
  rewrite (bind_ok _ _ _ _ _ (check_keywords_run _ _ st Hk)).
  rewrite (bind_ok _ _ _ _ _ (required_run _ _ _ st E1)).
  rewrite (bind_ok _ _ _ _ _ (required_run _ _ _ st E2)).
  rewrite (bind_ok _ _ _ _ _ (required_run _ _ _ st E3)).
  rewrite (bind_ok _ _ _ _ _ (required_run _ _ _ st E4)).
  rewrite (bind_ok _ _ _ _ _ (required_run _ _ _ st E5)).
  rewrite (bind_ok _ _ _ _ _ (required_run _ _ _ st E6)).
  rewrite (bind_ok _ _ _ _ _ (required_run _ _ _ st E7)).
  unfold _spectrum_identification_item. now apply construct_run.
Qed.

Lemma mapM_call_item `{Components} ids : forall its st,
  all_built identification_item ids = Some its ->
  forallb accepted its = true ->
  mapM call_spectrum_identification_item ids st
  = (Ok its, set_trace (trace st ++ flat_map made its) st).
Proof.
  induction ids as [|s ids IH]; intros its st Hb Hacc; simpl in Hb.
  - injection Hb as <-. simpl. now rewrite app_nil_r, set_trace_same.
  - destruct (identification_item s) as [item|] eqn:Es; [|discriminate].
    destruct (all_built identification_item ids) as [its'|] eqn:Er; [|discriminate].
    injection Hb as <-. simpl in Hacc. apply andb_prop in Hacc as [Ha Hacc].
    cbn [mapM].
    rewrite (bind_ok _ _ _ _ _ (call_item_run s item st Es Ha)).
    rewrite (bind_ok _ _ _ _ _ (IH its' _ eq_refl Hacc)). run.
    cbn [flat_map trace set_trace]. rewrite set_trace_twice. now rewrite <- app_assoc.
Qed.

Lemma call_result_run `{Components} adv r res st :
  identification_result r = Some res ->
  result_accepted res = true ->
  call_spectrum_identification_result_with adv r st
  = (Ok res, set_trace (trace st ++ result_made res) st).
Proof.
  unfold identification_result.
  destruct (item_kwargs r) as [kw|] eqn:Hkw; [|discriminate].
  destruct (lookup_kw "spectrum_id" kw) as [sid|] eqn:E1; [|discriminate].
  destruct (lookup_kw "id" kw) as [rid|] eqn:E2; [|discriminate].
  destruct (items (ensure_iterable (optional "identifications" _t kw))) as [ids|] eqn:E3;
    [|discriminate].
  destruct (all_built identification_item ids) as [its|] eqn:E4; [|discriminate].
  destruct (known result_parameters kw) eqn:Hk; [|discriminate].
  intros [= <-] Hacc. unfold result_accepted, result_made in *. cbn [nested made] in *.
  change (lookup_kw "identifications" _) with (Some (VList its)) in *. cbn beta iota in *.
  apply andb_prop in Hacc as [Hits Hres].
  unfold call_spectrum_identification_result_with.
  rewrite (bind_ok _ _ _ _ _ (unpack_item _ _ st Hkw)).
  rewrite (bind_ok _ _ _ _ _ (check_keywords_run _ _ st Hk)).
  rewrite (bind_ok _ _ _ _ _ (required_run _ _ _ st E1)).
  rewrite (bind_ok _ _ _ _ _ (required_run _ _ _ st E2)).
  unfold _spectrum_identification_result_with.
  assert (Hfe : for_each_with adv (ensure_iterable (optional "identifications" _t kw))
                  call_spectrum_identification_item
                = mapM call_spectrum_identification_item ids).
  { unfold for_each_with.
    destruct (ensure_iterable (optional "identifications" _t kw));
      simpl in E3 |- *; try discriminate; now injection E3 as ->. }
  rewrite Hfe.
  rewrite (bind_ok _ _ _ _ _ (mapM_call_item ids its st E4 Hits)).
  rewrite (construct_run _ _ _ _ Hres).
  cbn [trace set_trace]. rewrite set_trace_twice. now rewrite <- app_assoc.
Qed.

Lemma step_result `{Components} adv g r res rest st :
  heap st !! g = Some (Generator (SItems (r :: rest)) BResult) ->
  identification_result r = Some res ->
  result_accepted res = true ->
  step_with adv g st
  = (Ok (Some res),
     set_trace (trace st ++ result_made res)
       (set_heap (<[g := Generator (SItems rest) BResult]> (heap st)) st)).
Proof.
  intros E Hr Hacc. unfold step_with. run. rewrite E. cbn [src body]. run.
  erewrite bind_ok by (apply closing_ok; cbn [yield_with]; eapply call_result_run; eassumption).
  reflexivity.
Qed.

Lemma drain_results `{Components} rs : forall ress fuel st g,
  status st = Live ->
  heap st !! g = Some (Generator (SItems rs) BResult) ->
  all_built identification_result rs = Some ress ->
  forallb result_accepted ress = true ->
  length rs < fuel ->
  drain next fuel g (fun e => writer_write VWriter [e] []) st
  = (Ok (map (fun _ => tt) ress),
     set_heap (<[g := Generator (SItems []) BResult]> (heap st))
       (set_trace (trace st ++ streamed_results ress) st)).
Proof.
  induction rs as [|r rs IH]; intros ress fuel st g Hlive Hg Hb Hall Hfuel;
    (destruct fuel as [|fuel]; [simpl in Hfuel; lia|]); cbn [drain]; simpl in Hb.
  - injection Hb as <-.
    erewrite bind_ok by (apply next_spent; eexists; exact Hg).
    cbn beta iota. run.
    rewrite (list_insert_id _ _ _ Hg). simpl. rewrite app_nil_r. now destruct st.
  - destruct (identification_result r) as [res|] eqn:Er; [|discriminate].
    destruct (all_built identification_result rs) as [ress'|] eqn:Ers; [|discriminate].
    injection Hb as <-. simpl in Hall, Hfuel. apply andb_prop in Hall as [Hres Hall].
    pose proof (lookup_lt_Some _ _ _ Hg) as Hlt.
    erewrite bind_ok by (rewrite next_run by exact Hlt; eapply step_result; eassumption).
    cbn beta iota.
    erewrite bind_ok by (apply writer_write_run; exact Hlive).
    erewrite bind_ok; cycle 1.
    { apply (IH ress'); [exact Hlive| |reflexivity|exact Hall|lia].
      cbn [heap set_trace set_heap]. now apply list_lookup_insert_eq. }
    run. cbn [heap trace set_trace set_heap map].
    rewrite list_insert_insert_eq. unfold streamed_results. cbn [flat_map].
    destruct st; simpl. now rewrite <- !app_assoc.
Qed.

Lemma spectrum_identification_list_run `{Components} id identification_results rs ress st :
  live st ->
  items identification_results = Some rs ->
  all_built identification_result rs = Some ress ->
  forallb result_accepted ress = true ->
  accepts "SpectrumIdentificationList" []
    [("id", id); ("identification_results", VGen (length (heap st)))] = true ->
  plain id = true ->
  exists st',
    MzIdentMLWriter.spectrum_identification_list id identification_results st
    = (Ok tt, st') /\
    trace st'
    = trace st
      ++ [ENew "SpectrumIdentificationList" []
            [("id", id); ("identification_results", VGen (length (heap st)))];
          EOpen "SpectrumIdentificationList" []
            [("id", id); ("identification_results", VGen (length (heap st)))]]
      ++ streamed_results ress
      ++ [EClose "SpectrumIdentificationList"] /\
    spent (length (heap st)) st'.
Proof.
  intros [Hw Hlive] Hits Hb Hall Hacc Hid.
  unfold MzIdentMLWriter.spectrum_identification_list.
  rewrite (bind_ok _ _ _ _ _ (genexp_run _ _ _ _ Hits)).
  cbn [heap set_heap].
  rewrite (bind_ok _ _ _ _ _ (construct_run _ _ _ _ Hacc)). run.
  cbn [writer set_trace set_heap]. rewrite Hw.
  set (n := length (heap st)) in *.
  assert (L : (heap st ++ [Generator (SItems rs) BResult]) !! n
              = Some (Generator (SItems rs) BResult))
    by now apply list_lookup_middle.
  unfold component_write, py_with.
  erewrite bind_ok by (apply scope_enter_run; exact Hlive).
  eexists. split; [|split].
  - eapply leaving_ok.
    + cbn [mapM app map snd]. run.
      rewrite (bind_ok _ _ _ _ _ (stream_plain VWriter id _ Hid)). run.
      erewrite bind_ok; cycle 1.
      { unfold stream, for_each, for_each_with. run.
        erewrite bind_ok; [reflexivity|].
        eapply drain_results; [exact Hlive|exact L|exact Hb|exact Hall|].
        pose proof (pending_bound _ _ _ _ L). cbn [heap set_trace set_scopes set_heap]. lia. }
      run. reflexivity.
    + eapply scope_exit_run; [exact Hlive|reflexivity].
  - cbn [trace set_trace set_heap set_scopes]. now rewrite <- !app_assoc.
  - exists BResult. cbn [heap set_trace set_heap set_scopes].
    apply list_lookup_insert_eq. eapply lookup_lt_Some; exact L.
Qed.

Lemma identification_item_of s kw c e ch p pe sc i :
  item_kwargs s = Some kw ->
  known item_parameters kw = true ->
  lookup_kw "calculated_mass_to_charge" kw = Some c ->
  lookup_kw "experimental_mass_to_charge" kw = Some e ->
  lookup_kw "charge_state" kw = Some ch ->
  lookup_kw "peptide_id" kw = Some p ->
  lookup_kw "peptide_evidence_id" kw = Some pe ->
  lookup_kw "score" kw = Some sc ->
  lookup_kw "id" kw = Some i ->
  identification_item s
  = Some (VObj "SpectrumIdentificationItem" [c; e; ch; p; pe; sc; i]
            [("cv_params", ensure_iterable (optional "cv_params" _t kw));
             ("pass_threshold", optional "pass_threshold" (VBool true) kw);
             ("rank", optional "rank" (VInt 1) kw)]).
Proof.
  intros Hkw Hk E1 E2 E3 E4 E5 E6 E7. unfold identification_item.
  now rewrite Hkw, E1, E2, E3, E4, E5, E6, E7, Hk.
Qed.

(** C8.  The [SpectrumIdentificationItem] built for an item mapping carries
    [pass_threshold = True] and [rank = 1] when the mapping leaves these
    keys out, and the values of the mapping when it has them.  This is the
    item [spectrum_identification_list] nests in the result it writes for a
    result mapping that holds the item mapping in its [identifications]. *)
Theorem identification_item_flags `{Components}
    (s : value) (kw : list (string * value)) (c e ch p pe sc i : value) (st : state) :
  item_kwargs s = Some kw ->
  known item_parameters kw = true ->
  lookup_kw "calculated_mass_to_charge" kw = Some c ->
  lookup_kw "experimental_mass_to_charge" kw = Some e ->
  lookup_kw "charge_state" kw = Some ch ->
  lookup_kw "peptide_id" kw = Some p ->
  lookup_kw "peptide_evidence_id" kw = Some pe ->
  lookup_kw "score" kw = Some sc ->
  lookup_kw "id" kw = Some i ->
  accepts "SpectrumIdentificationItem" [c; e; ch; p; pe; sc; i]
    [("cv_params", ensure_iterable (optional "cv_params" _t kw));
     ("pass_threshold", optional "pass_threshold" (VBool true) kw);
     ("rank", optional "rank" (VInt 1) kw)] = true ->
  exists pass rank item,
    item = VObj "SpectrumIdentificationItem" [c; e; ch; p; pe; sc; i]
             [("cv_params", ensure_iterable (optional "cv_params" _t kw));
              ("pass_threshold", pass); ("rank", rank)] /\
    (lookup_kw "pass_threshold" kw = None -> pass = VBool true) /\
    (forall v, lookup_kw "pass_threshold" kw = Some v -> pass = v) /\
    (lookup_kw "rank" kw = None -> rank = VInt 1) /\
    (forall v, lookup_kw "rank" kw = Some v -> rank = v) /\
    call_spectrum_identification_item s st
    = (Ok item, set_trace (trace st ++ made item) st) /\
    (forall list_id spectrum_id id,
       plain list_id = true ->
       live st ->
       accepts "SpectrumIdentificationResult" []
         [("spectra_data_id", VInt 1); ("spectrum_id", spectrum_id); ("id", id);
          ("identifications", VList [item])] = true ->
       accepts "SpectrumIdentificationList" []
         [("id", list_id); ("identification_results", VGen (length (heap st)))] = true ->
       exists st',
         MzIdentMLWriter.spectrum_identification_list list_id
           (VList [VDict [(VStr "spectrum_id", spectrum_id); (VStr "id", id);
                          (VStr "identifications", VList [s])]]) st
         = (Ok tt, st') /\
         trace st'
         = trace st
           ++ [ENew "SpectrumIdentificationList" []
                 [("id", list_id); ("identification_results", VGen (length (heap st)))];
               EOpen "SpectrumIdentificationList" []
                 [("id", list_id); ("identification_results", VGen (length (heap st)))]]
           ++ made item
           ++ [ENew "SpectrumIdentificationResult" []
                 [("spectra_data_id", VInt 1); ("spectrum_id", spectrum_id); ("id", id);
                  ("identifications", VList [item])];
               EWrite [VObj "SpectrumIdentificationResult" []
                         [("spectra_data_id", VInt 1); ("spectrum_id", spectrum_id);
                          ("id", id); ("identifications", VList [item])]] []]
           ++ [EClose "SpectrumIdentificationList"]).
Proof.
  intros Hkw Hk E1 E2 E3 E4 E5 E6 E7 Hacc.
  pose proof (identification_item_of s kw c e ch p pe sc i Hkw Hk E1 E2 E3 E4 E5 E6 E7) as Hitem.
  exists (optional "pass_threshold" (VBool true) kw), (optional "rank" (VInt 1) kw).
  eexists. split; [reflexivity|].
  split; [intros E; unfold optional; now rewrite E|].
  split; [intros v E; unfold optional; now rewrite E|].
  split; [intros E; unfold optional; now rewrite E|].
  split; [intros v E; unfold optional; now rewrite E|].
  split; [now apply call_item_run|].
  intros list_id spectrum_id id Hplain Hlive Hres Hlist.
  destruct (spectrum_identification_list_run list_id
              (VList [VDict [(VStr "spectrum_id", spectrum_id); (VStr "id", id);
                             (VStr "identifications", VList [s])]])
              [VDict [(VStr "spectrum_id", spectrum_id); (VStr "id", id);
                      (VStr "identifications", VList [s])]]
              [VObj "SpectrumIdentificationResult" []
                 [("spectra_data_id", VInt 1); ("spectrum_id", spectrum_id); ("id", id);
                  ("identifications",
                   VList [VObj "SpectrumIdentificationItem" [c; e; ch; p; pe; sc; i]
                            [("cv_params", ensure_iterable (optional "cv_params" _t kw));
                             ("pass_threshold", optional "pass_threshold" (VBool true) kw);
                             ("rank", optional "rank" (VInt 1) kw)]])]]
              st Hlive eq_refl)
    as (st' & Hrun & Htrace & _).
  - cbn [all_built]. unfold identification_result.
    cbn [item_kwargs py_or truthy length Nat.eqb negb str_keys].
    cbn [lookup_kw String.eqb Ascii.eqb Bool.eqb optional ensure_iterable is_iterable
         is_basestring is_mapping negb orb items all_built].
    rewrite Hitem. reflexivity.
  - cbn [forallb]. unfold result_accepted.
    cbn [forallb nested lookup_kw String.eqb Ascii.eqb Bool.eqb accepted].
    now rewrite Hacc, Hres.
  - exact Hlist.
  - exact Hplain.
  - exists st'. split; [exact Hrun|]. rewrite Htrace. reflexivity.
Qed.

Lemma identification_item_flags_witness :
  item_kwargs sample_item = Some sample_item_keywords /\
  lookup_kw "pass_threshold" sample_item_keywords = None /\
  lookup_kw "rank" sample_item_keywords = Some (VInt 2) /\
  @call_spectrum_identification_item permissive sample_item (entered [])
  = (Ok (VObj "SpectrumIdentificationItem"
           [VInt 500; VInt 501; VInt 2; VStr "P1"; VStr "PE1"; VInt 42; VStr "SII1"]
           [("cv_params", VTuple []); ("pass_threshold", VBool true); ("rank", VInt 2)]),
     set_trace
       (trace (entered [])
        ++ [ENew "SpectrumIdentificationItem"
              [VInt 500; VInt 501; VInt 2; VStr "P1"; VStr "PE1"; VInt 42; VStr "SII1"]
              [("cv_params", VTuple []); ("pass_threshold", VBool true); ("rank", VInt 2)]])
       (entered [])).
Proof.
  split; [reflexivity|]. split; [reflexivity|]. split; [reflexivity|].
  destruct (@identification_item_flags permissive sample_item sample_item_keywords
              (VInt 500) (VInt 501) (VInt 2) (VStr "P1") (VStr "PE1") (VInt 42) (VStr "SII1")
              (entered [])
              eq_refl eq_refl eq_refl eq_refl eq_refl eq_refl eq_refl eq_refl eq_refl eq_refl)
    as (pass & rank & item & Hitem & Hpass & _ & _ & Hrank & Hcall & _).
  rewrite Hcall, Hitem, (Hpass eq_refl), (Hrank (VInt 2) eq_refl). reflexivity.
Defined.

(** ** Normalization of the collection arguments *)

Lemma ensure_iterable_idempotent v : ensure_iterable (ensure_iterable v) = ensure_iterable v.
Proof. now destruct v. Qed.

Lemma falsy_item_kwargs s : truthy s = false -> item_kwargs s = Some [].
Proof. intros E. unfold item_kwargs, py_or. now rewrite E. Qed.

Lemma falsy_entity cls its k s :
  its !! k = Some s ->
  truthy s = false ->
  map (entity cls) its !! k = Some (VObj cls [] []).
Proof.
  intros Hk Hs. change (map (entity cls) its) with (entity cls <$> its).
  rewrite list_lookup_fmap, Hk. simpl. unfold entity.
  now rewrite (falsy_item_kwargs s Hs).
Qed.

(** C5.  [ensure_iterable] turns a lone mapping or a string into the list
    holding it and returns any other iterable as it is.  [providence]
    applies it to [software], [inputs] to its three arguments and
    [spectrum_identification_protocol] to [enzymes] and
    [modification_params], each on entry, and builds one entity per item of
    the result, in order; [inputs] emits one [Inputs] holding its three
    lists in the order source files, search databases, spectra data.  The
    protocol hands its [additional_search_params] to the builder as they
    were given. *)
Theorem normalization_of_collections `{Components} :
  (forall kvs, ensure_iterable (VDict kvs) = VList [VDict kvs]) /\
  (forall str, ensure_iterable (VStr str) = VList [VStr str]) /\
  (forall v, is_iterable v = true -> is_basestring v = false -> is_mapping v = false ->
     ensure_iterable v = v) /\
  (forall software owner organization st,
     MzIdentMLWriter.providence software owner organization st
     = MzIdentMLWriter.providence (ensure_iterable software) owner organization st) /\
  (forall source_files search_databases spectra_data st,
     MzIdentMLWriter.inputs source_files search_databases spectra_data st
     = MzIdentMLWriter.inputs (ensure_iterable source_files)
         (ensure_iterable search_databases) (ensure_iterable spectra_data) st) /\
  (forall search_type analysis_software_id id additional_search_params enzymes
          modification_params fragment_tolerance parent_tolerance threshold st,
     MzIdentMLWriter.spectrum_identification_protocol
       search_type analysis_software_id id additional_search_params enzymes
       modification_params fragment_tolerance parent_tolerance threshold st
     = MzIdentMLWriter.spectrum_identification_protocol
         search_type analysis_software_id id additional_search_params
         (ensure_iterable enzymes) (ensure_iterable modification_params)
         fragment_tolerance parent_tolerance threshold st) /\
  (forall software owner organization its pid st,
     live st ->
     items (ensure_iterable software) = Some its ->
     forallb (acceptable "AnalysisSoftware") its = true ->
     acceptable "Person" owner = true ->
     acceptable "Organization" organization = true ->
     accepts "GenericCollection"
       [VStr "AnalysisSoftwareList"; VList (map (entity "AnalysisSoftware") its)] [] = true ->
     attr (entity "Person" owner) "id" = Some pid ->
     plain pid = true ->
     accepts "Provider" [] [("contact", pid)] = true ->
     accepts "AuditCollection"
       [VList [entity "Person" owner]; VList [entity "Organization" organization]] [] = true ->
     MzIdentMLWriter.providence software owner organization st
     = (Ok tt,
        set_trace
          (trace st
           ++ map (creation "AnalysisSoftware") its
           ++ [creation "Person" owner; creation "Organization" organization]
           ++ emitted "GenericCollection"
                [VStr "AnalysisSoftwareList"; VList (map (entity "AnalysisSoftware") its)] []
           ++ emitted "Provider" [] [("contact", pid)]
           ++ emitted "AuditCollection"
                [VList [entity "Person" owner]; VList [entity "Organization" organization]] [])
          st)) /\
  (forall source_files search_databases spectra_data isf isd isp st,
     live st ->
     items (ensure_iterable source_files) = Some isf ->
     items (ensure_iterable search_databases) = Some isd ->
     items (ensure_iterable spectra_data) = Some isp ->
     forallb (acceptable "SourceFile") isf = true ->
     forallb (acceptable "SearchDatabase") isd = true ->
     forallb (acceptable "SpectraData") isp = true ->
     accepts "Inputs"
       [VList (map (entity "SourceFile") isf); VList (map (entity "SearchDatabase") isd);
        VList (map (entity "SpectraData") isp)] [] = true ->
     MzIdentMLWriter.inputs source_files search_databases spectra_data st
     = (Ok tt,
        set_trace
          (trace st
           ++ map (creation "SourceFile") isf
           ++ map (creation "SearchDatabase") isd
           ++ map (creation "SpectraData") isp
           ++ emitted "Inputs"
                [VList (map (entity "SourceFile") isf);
                 VList (map (entity "SearchDatabase") isd);
                 VList (map (entity "SpectraData") isp)] [])
          st)) /\
  (forall search_type analysis_software_id id additional_search_params enzymes
          modification_params fragment_tolerance parent_tolerance threshold ie im st,
     live st ->
     items (ensure_iterable enzymes) = Some ie ->
     items (ensure_iterable modification_params) = Some im ->
     forallb (acceptable "Enzyme") ie = true ->
     forallb (acceptable "SearchModification") im = true ->
     tolerance_accepted "FragmentTolerance" fragment_tolerance = true ->
     tolerance_accepted "ParentTolerance" parent_tolerance = true ->
     accepts "Threshold" [threshold] [] = true ->
     forallb plain [search_type; analysis_software_id; id; additional_search_params;
                    fragment_tolerance; parent_tolerance] = true ->
     accepts "SpectrumIdentificationProtocol"
       [search_type; analysis_software_id; id; additional_search_params;
        VList (map (entity "Enzyme") ie); VList (map (entity "SearchModification") im);
        toleranced "FragmentTolerance" fragment_tolerance;
        toleranced "ParentTolerance" parent_tolerance;
        VObj "Threshold" [threshold] []] [] = true ->
     MzIdentMLWriter.spectrum_identification_protocol
       search_type analysis_software_id id additional_search_params enzymes
       modification_params fragment_tolerance parent_tolerance threshold st
     = (Ok tt,
        set_trace
          (trace st
           ++ map (creation "Enzyme") ie
           ++ map (creation "SearchModification") im
           ++ tolerance_events "FragmentTolerance" fragment_tolerance
           ++ tolerance_events "ParentTolerance" parent_tolerance
           ++ [ENew "Threshold" [threshold] []]
           ++ emitted "SpectrumIdentificationProtocol"
                [search_type; analysis_software_id; id; additional_search_params;
                 VList (map (entity "Enzyme") ie);
                 VList (map (entity "SearchModification") im);
                 toleranced "FragmentTolerance" fragment_tolerance;
                 toleranced "ParentTolerance" parent_tolerance;
                 VObj "Threshold" [threshold] []] [])
          st)).
Proof.
  split; [reflexivity|]. split; [reflexivity|].
  split; [intros v; destruct v; simpl; intros; first [reflexivity|discriminate]|].
  split; [intros; unfold MzIdentMLWriter.providence;
          now rewrite ensure_iterable_idempotent|].
  split; [intros; unfold MzIdentMLWriter.inputs;
          now rewrite !ensure_iterable_idempotent|].
  split; [intros; unfold MzIdentMLWriter.spectrum_identification_protocol;
          now rewrite !ensure_iterable_idempotent|].
  split; [intros; now apply providence_run|].
  split; [intros; now apply inputs_run|].
  intros; now apply spectrum_identification_protocol_run.
Qed.

Lemma normalization_of_collections_witness :
  live (entered []) /\
  @MzIdentMLWriter.inputs permissive
    (VDict [(VStr "location", VStr "run.mzML")]) _t
    (VList [VDict [(VStr "id", VInt 1)]; VDict [(VStr "id", VInt 2)]]) (entered [])
  = (Ok tt,
     set_trace
       (trace (entered [])
        ++ [ENew "SourceFile" [] [("location", VStr "run.mzML")]]
        ++ []
        ++ [ENew "SpectraData" [] [("id", VInt 1)]; ENew "SpectraData" [] [("id", VInt 2)]]
        ++ emitted "Inputs"
             [VList [VObj "SourceFile" [] [("location", VStr "run.mzML")]];
              VList [];
              VList [VObj "SpectraData" [] [("id", VInt 1)];
                     VObj "SpectraData" [] [("id", VInt 2)]]] [])
       (entered [])).
Proof.
  assert (Hlive : live (entered [])) by (split; reflexivity).
  split; [exact Hlive|].
  destruct (@normalization_of_collections permissive)
    as (_ & _ & _ & _ & _ & _ & _ & Hinputs & _).
  exact (Hinputs (VDict [(VStr "location", VStr "run.mzML")]) _t
           (VList [VDict [(VStr "id", VInt 1)]; VDict [(VStr "id", VInt 2)]])
           [VDict [(VStr "location", VStr "run.mzML")]] []
           [VDict [(VStr "id", VInt 1)]; VDict [(VStr "id", VInt 2)]]
           (entered []) Hlive eq_refl eq_refl eq_refl eq_refl eq_refl eq_refl eq_refl).
Defined.

(** Against C5 as it is stated, for [additional_search_params], a
    collection argument of [spectrum_identification_protocol]: a lone
    mapping given there reaches the protocol builder as it is, not as the
    one-element list [ensure_iterable] makes of it. *)
Lemma additional_search_params_not_normalized :
  ensure_iterable (VDict [(VStr "name", VStr "decoy search")])
  = VList [VDict [(VStr "name", VStr "decoy search")]] /\
  @MzIdentMLWriter.spectrum_identification_protocol permissive
    (VStr "ms-ms search") (VInt 1) (VInt 1)
    (VDict [(VStr "name", VStr "decoy search")]) _t _t VNone VNone VNone (entered [])
  = (Ok tt,
     set_trace
       (trace (entered [])
        ++ [ENew "Threshold" [VNone] []]
        ++ emitted "SpectrumIdentificationProtocol"
             [VStr "ms-ms search"; VInt 1; VInt 1;
              VDict [(VStr "name", VStr "decoy search")];
              VList []; VList []; VNone; VNone; VObj "Threshold" [VNone] []] [])
       (entered [])) /\
  @MzIdentMLWriter.spectrum_identification_protocol permissive
    (VStr "ms-ms search") (VInt 1) (VInt 1)
    (VDict [(VStr "name", VStr "decoy search")]) _t _t VNone VNone VNone (entered [])
  <> @MzIdentMLWriter.spectrum_identification_protocol permissive
       (VStr "ms-ms search") (VInt 1) (VInt 1)
       (ensure_iterable (VDict [(VStr "name", VStr "decoy search")])) _t _t
       VNone VNone VNone (entered []).
Proof.
  split; [reflexivity|]. split; [reflexivity|].
  vm_compute. intros E. discriminate E.
Qed.

Lemma falsy_creation cls its k s :
  its !! k = Some s ->
  truthy s = false ->
  map (creation cls) its !! k = Some (ENew cls [] []).
Proof.
  intros Hk Hs. change (map (creation cls) its) with (creation cls <$> its).
  rewrite list_lookup_fmap, Hk. simpl. unfold creation.
  now rewrite (falsy_item_kwargs s Hs).
Qed.

(** C9.  [None] is not iterable, so [ensure_iterable] makes the list
    [[None]] of it, and an item with a false truth value is replaced by the
    empty mapping before the builder is called.  Hence [None] given as
    [software] to [providence], as any of the three arguments of [inputs]
    or of [sequence_collection], or as [enzymes] or [modification_params]
    to [spectrum_identification_protocol] gives exactly one entity built
    without arguments, and in a sequence given there every false item
    gives, at its place, an entity built without arguments.
    [additional_search_params] is handed to the protocol builder as it is. *)
Theorem falsy_items_give_default_entities `{Components} :
  ensure_iterable VNone = VList [VNone] /\
  (forall cls s st,
     truthy s = false ->
     accepts cls [] [] = true ->
     build cls s st = (Ok (VObj cls [] []), set_trace (trace st ++ [ENew cls [] []]) st)) /\
  (forall cls its k s,
     its !! k = Some s ->
     truthy s = false ->
     map (entity cls) its !! k = Some (VObj cls [] []) /\
     map (creation cls) its !! k = Some (ENew cls [] []) /\
     (acceptable cls s = accepts cls [] [])) /\
  (forall software owner organization its pid st,
     live st ->
     items (ensure_iterable software) = Some its ->
     forallb (acceptable "AnalysisSoftware") its = true ->
     acceptable "Person" owner = true ->
     acceptable "Organization" organization = true ->
     accepts "GenericCollection"
       [VStr "AnalysisSoftwareList"; VList (map (entity "AnalysisSoftware") its)] [] = true ->
     attr (entity "Person" owner) "id" = Some pid ->
     plain pid = true ->
     accepts "Provider" [] [("contact", pid)] = true ->
     accepts "AuditCollection"
       [VList [entity "Person" owner]; VList [entity "Organization" organization]] [] = true ->
     MzIdentMLWriter.providence software owner organization st
     = (Ok tt,
        set_trace
          (trace st
           ++ map (creation "AnalysisSoftware") its
           ++ [creation "Person" owner; creation "Organization" organization]
           ++ emitted "GenericCollection"
                [VStr "AnalysisSoftwareList"; VList (map (entity "AnalysisSoftware") its)] []
           ++ emitted "Provider" [] [("contact", pid)]
           ++ emitted "AuditCollection"
                [VList [entity "Person" owner]; VList [entity "Organization" organization]] [])
          st)) /\
  (forall source_files search_databases spectra_data isf isd isp st,
     live st ->
     items (ensure_iterable source_files) = Some isf ->
     items (ensure_iterable search_databases) = Some isd ->
     items (ensure_iterable spectra_data) = Some isp ->
     forallb (acceptable "SourceFile") isf = true ->
     forallb (acceptable "SearchDatabase") isd = true ->
     forallb (acceptable "SpectraData") isp = true ->
     accepts "Inputs"
       [VList (map (entity "SourceFile") isf); VList (map (entity "SearchDatabase") isd);
        VList (map (entity "SpectraData") isp)] [] = true ->
     MzIdentMLWriter.inputs source_files search_databases spectra_data st
     = (Ok tt,
        set_trace
          (trace st
           ++ map (creation "SourceFile") isf
           ++ map (creation "SearchDatabase") isd
           ++ map (creation "SpectraData") isp
           ++ emitted "Inputs"
                [VList (map (entity "SourceFile") isf);
                 VList (map (entity "SearchDatabase") isd);
                 VList (map (entity "SpectraData") isp)] [])
          st)) /\
  (forall db_sequences peptides peptide_evidence idb ip ie st,
     live st ->
     items (ensure_iterable db_sequences) = Some idb ->
     items (ensure_iterable peptides) = Some ip ->
     items (ensure_iterable peptide_evidence) = Some ie ->
     forallb (acceptable "DBSequence") idb = true ->
     forallb (acceptable "Peptide") ip = true ->
     forallb (acceptable "PeptideEvidence") ie = true ->
     accepts "SequenceCollection"
       [VGen (length (heap st)); VGen (S (length (heap st)));
        VGen (S (S (length (heap st))))] [] = true ->
     exists st',
       MzIdentMLWriter.sequence_collection db_sequences peptides peptide_evidence st
       = (Ok tt, st') /\
       trace st'
       = trace st
         ++ [ENew "SequenceCollection"
               [VGen (length (heap st)); VGen (S (length (heap st)));
                VGen (S (S (length (heap st))))] [];
             EOpen "SequenceCollection"
               [VGen (length (heap st)); VGen (S (length (heap st)));
                VGen (S (S (length (heap st))))] []]
         ++ streamed "DBSequence" idb
         ++ streamed "Peptide" ip
         ++ streamed "PeptideEvidence" ie
         ++ [EClose "SequenceCollection"]) /\
  (forall cls s rest,
     truthy s = false ->
     streamed cls (s :: rest)
     = [ENew cls [] []; EWrite [VObj cls [] []] []] ++ streamed cls rest) /\
  (forall search_type analysis_software_id id additional_search_params enzymes
          modification_params fragment_tolerance parent_tolerance threshold ie im st,
     live st ->
     items (ensure_iterable enzymes) = Some ie ->
     items (ensure_iterable modification_params) = Some im ->
     forallb (acceptable "Enzyme") ie = true ->
     forallb (acceptable "SearchModification") im = true ->
     tolerance_accepted "FragmentTolerance" fragment_tolerance = true ->
     tolerance_accepted "ParentTolerance" parent_tolerance = true ->
     accepts "Threshold" [threshold] [] = true ->
     forallb plain [search_type; analysis_software_id; id; additional_search_params;
                    fragment_tolerance; parent_tolerance] = true ->
     accepts "SpectrumIdentificationProtocol"
       [search_type; analysis_software_id; id; additional_search_params;
        VList (map (entity "Enzyme") ie); VList (map (entity "SearchModification") im);
        toleranced "FragmentTolerance" fragment_tolerance;
        toleranced "ParentTolerance" parent_tolerance;
        VObj "Threshold" [threshold] []] [] = true ->
     MzIdentMLWriter.spectrum_identification_protocol
       search_type analysis_software_id id additional_search_params enzymes
       modification_params fragment_tolerance parent_tolerance threshold st
     = (Ok tt,
        set_trace
          (trace st
           ++ map (creation "Enzyme") ie
           ++ map (creation "SearchModification") im
           ++ tolerance_events "FragmentTolerance" fragment_tolerance
           ++ tolerance_events "ParentTolerance" parent_tolerance
           ++ [ENew "Threshold" [threshold] []]
           ++ emitted "SpectrumIdentificationProtocol"
                [search_type; analysis_software_id; id; additional_search_params;
                 VList (map (entity "Enzyme") ie);
                 VList (map (entity "SearchModification") im);
                 toleranced "FragmentTolerance" fragment_tolerance;
                 toleranced "ParentTolerance" parent_tolerance;
                 VObj "Threshold" [threshold] []] [])
          st)).
Proof.
  split; [reflexivity|].
  split.
  { intros cls s st Hs Hacc.
    assert (Hok : acceptable cls s = true)
      by (unfold acceptable; now rewrite (falsy_item_kwargs s Hs)).
    rewrite (build_run cls s st Hok). unfold entity, creation.
    now rewrite (falsy_item_kwargs s Hs). }
  split.
  { intros cls its k s Hk Hs.
    split; [now apply (falsy_entity cls its k s)|].
    split; [now apply (falsy_creation cls its k s)|].
    unfold acceptable. now rewrite (falsy_item_kwargs s Hs). }
  split; [intros; now apply providence_run|].
  split; [intros; now apply inputs_run|].
  split.
  { intros db_sequences peptides peptide_evidence idb ip ie st Hlive H1 H2 H3 A1 A2 A3 Hacc.
    destruct (sequence_collection_run _ _ _ _ _ _ _ Hlive H1 H2 H3 A1 A2 A3 Hacc)
      as (st' & Hrun & Htrace & _).
    now exists st'. }
  split.
  { intros cls s rest Hs. unfold streamed. cbn [flat_map]. unfold creation, entity.
    now rewrite (falsy_item_kwargs s Hs). }
  intros; now apply spectrum_identification_protocol_run.
Qed.

Lemma falsy_items_give_default_entities_witness :
  live (entered []) /\
  @MzIdentMLWriter.inputs permissive VNone (VList [VNone; VInt 0]) (VStr "") (entered [])
  = (Ok tt,
     set_trace
       (trace (entered [])
        ++ [ENew "SourceFile" [] []]
        ++ [ENew "SearchDatabase" [] []; ENew "SearchDatabase" [] []]
        ++ [ENew "SpectraData" [] []]
        ++ emitted "Inputs"
             [VList [VObj "SourceFile" [] []];
              VList [VObj "SearchDatabase" [] []; VObj "SearchDatabase" [] []];
              VList [VObj "SpectraData" [] []]] [])
       (entered [])).
Proof.
  assert (Hlive : live (entered [])) by (split; reflexivity).
  split; [exact Hlive|].
  destruct (@falsy_items_give_default_entities permissive)
    as (_ & _ & _ & _ & Hinputs & _).
  exact (Hinputs VNone (VList [VNone; VInt 0]) (VStr "")
           [VNone] [VNone; VInt 0] [VStr ""]
           (entered []) Hlive eq_refl eq_refl eq_refl eq_refl eq_refl eq_refl eq_refl).
Defined.

(** Against C9 as it is stated, for [additional_search_params], a
    collection argument of [spectrum_identification_protocol]: [None] given
    there is handed to the protocol builder as it is, and no entity is
    built for it. *)
Lemma additional_search_params_none_builds_nothing :
  @MzIdentMLWriter.spectrum_identification_protocol permissive
    (VStr "ms-ms search") (VInt 1) (VInt 1) VNone _t _t VNone VNone VNone (entered [])
  = (Ok tt,
     set_trace
       (trace (entered [])
        ++ [ENew "Threshold" [VNone] []]
        ++ emitted "SpectrumIdentificationProtocol"
             [VStr "ms-ms search"; VInt 1; VInt 1; VNone;
              VList []; VList []; VNone; VNone; VObj "Threshold" [VNone] []] [])
       (entered [])) /\
  @MzIdentMLWriter.spectrum_identification_protocol permissive
    (VStr "ms-ms search") (VInt 1) (VInt 1) VNone VNone _t VNone VNone VNone (entered [])
  = (Ok tt,
     set_trace
       (trace (entered [])
        ++ [ENew "Enzyme" [] []; ENew "Threshold" [VNone] []]
        ++ emitted "SpectrumIdentificationProtocol"
             [VStr "ms-ms search"; VInt 1; VInt 1; VNone;
              VList [VObj "Enzyme" [] []]; VList []; VNone; VNone;
              VObj "Threshold" [VNone] []] [])
       (entered [])).
Proof. split; reflexivity. Qed.

(** ** Identification results are iterated as given *)

Lemma leaving_raise {A : Type} cm (body : M A) st e st' st'' :
  body st = (Raise e, st') ->
  scope_exit cm (Some e) st' = (Ok tt, st'') ->
  leaving cm body st = (Raise e, st'').
Proof. intros E1 E2. unfold leaving. now rewrite E1, E2. Qed.

Lemma closing_raise {A : Type} g (m : M A) st e st' :
  m st = (Raise e, st') ->
  closing g m st = (Raise e, set_heap (alter finished g (heap st')) st').
Proof. intros E. unfold closing. now rewrite E. Qed.

Lemma call_result_on_string `{Components} adv k st :
  k <> "" ->
  call_spectrum_identification_result_with adv (VStr k) st = (Raise TypeError, st).
Proof.
  intros Hk. unfold call_spectrum_identification_result_with, py_or.
  cbn [truthy]. destruct (String.eqb_spec k "") as [->|_]; [congruence|]. reflexivity.
Qed.

(** A lone mapping given as [identification_results] is iterated over its
    keys: the first key, a string, is what the generator unpacks as the
    keywords of a result, which is a [TypeError]. *)
Lemma spectrum_identification_list_on_mapping `{Components} id k v rest st :
  live st ->
  k <> "" ->
  plain id = true ->
  accepts "SpectrumIdentificationList" []
    [("id", id); ("identification_results", VGen (length (heap st)))] = true ->
  exists st',
    MzIdentMLWriter.spectrum_identification_list id (VDict ((VStr k, v) :: rest)) st
    = (Raise TypeError, st') /\
    trace st'
    = trace st
      ++ [ENew "SpectrumIdentificationList" []
            [("id", id); ("identification_results", VGen (length (heap st)))];
          EOpen "SpectrumIdentificationList" []
            [("id", id); ("identification_results", VGen (length (heap st)))];
          EClose "SpectrumIdentificationList"] /\
    spent (length (heap st)) st'.
Proof.
  intros [Hw Hlive] Hk Hid Hacc.
  unfold MzIdentMLWriter.spectrum_identification_list.
  rewrite (bind_ok _ _ _ _ _ (genexp_run BResult (VDict ((VStr k, v) :: rest))
                                (VStr k :: map fst rest) st eq_refl)).
  cbn [heap set_heap].
  rewrite (bind_ok _ _ _ _ _ (construct_run _ _ _ _ Hacc)). run.
  cbn [writer set_trace set_heap]. rewrite Hw.
  set (n := length (heap st)) in *.
  set (G := Generator (SItems (VStr k :: map fst rest)) BResult).
  assert (L : (heap st ++ [G]) !! n = Some G) by now apply list_lookup_middle.
  assert (Hn : n < length (heap st ++ [G])) by (eapply lookup_lt_Some; exact L).
  unfold component_write, py_with.
  erewrite bind_ok by (apply scope_enter_run; exact Hlive).
  eexists. split; [|split].
  - eapply leaving_raise.
    + cbn [mapM app map snd]. run.
      rewrite (bind_ok _ _ _ _ _ (stream_plain VWriter id _ Hid)). run.
      erewrite bind_raise; [reflexivity|].
      unfold stream, for_each, for_each_with. run.
      erewrite bind_raise; [reflexivity|].
      cbn [drain].
      erewrite bind_raise; [reflexivity|].
      rewrite next_run by exact Hn.
      unfold step_with. run. cbn [heap set_trace set_scopes set_heap].
      rewrite L. cbn [src body G]. run.
      erewrite bind_raise; [reflexivity|].
      apply closing_raise. cbn [yield_with]. now apply call_result_on_string.
    + eapply scope_exit_run; [exact Hlive|reflexivity].
  - cbn [trace set_trace set_heap set_scopes]. now rewrite <- !app_assoc.
  - exists BResult. cbn [heap set_trace set_heap set_scopes].
    rewrite list_lookup_alter_eq, list_lookup_insert_eq by exact Hn. reflexivity.
Qed.

(** C10.  [spectrum_identification_list] does not normalize
    [identification_results]: the generator it hands to the builder reads
    the argument as it is, so a lone mapping is iterated over its keys
    (where the first key, a string, cannot be unpacked as a result), not
    wrapped into a list of one result.  The results of a sequence are built
    lazily, one at a time as they are written, in one pass that leaves the
    generator spent.  Of the other section operations [providence],
    [inputs], [sequence_collection] and, for [enzymes] and
    [modification_params], [spectrum_identification_protocol] wrap a lone
    mapping; [controlled_vocabularies] iterates its argument as given, as
    [spectrum_identification_list] does. *)
Theorem identification_results_iterated_as_given `{Components} :
  (forall id kvs st,
     MzIdentMLWriter.spectrum_identification_list id (VDict kvs) st
     = MzIdentMLWriter.spectrum_identification_list id (VList (map fst kvs)) st) /\
  (forall id k v rest st,
     live st ->
     k <> "" ->
     plain id = true ->
     accepts "SpectrumIdentificationList" []
       [("id", id); ("identification_results", VGen (length (heap st)))] = true ->
     exists st',
       MzIdentMLWriter.spectrum_identification_list id (VDict ((VStr k, v) :: rest)) st
       = (Raise TypeError, st') /\
       trace st'
       = trace st
         ++ [ENew "SpectrumIdentificationList" []
               [("id", id); ("identification_results", VGen (length (heap st)))];
             EOpen "SpectrumIdentificationList" []
               [("id", id); ("identification_results", VGen (length (heap st)))];
             EClose "SpectrumIdentificationList"]) /\
  (forall id identification_results rs ress st,
     live st ->
     items identification_results = Some rs ->
     all_built identification_result rs = Some ress ->
     forallb result_accepted ress = true ->
     accepts "SpectrumIdentificationList" []
       [("id", id); ("identification_results", VGen (length (heap st)))] = true ->
     plain id = true ->
     exists st',
       MzIdentMLWriter.spectrum_identification_list id identification_results st
       = (Ok tt, st') /\
       trace st'
       = trace st
         ++ [ENew "SpectrumIdentificationList" []
               [("id", id); ("identification_results", VGen (length (heap st)))];
             EOpen "SpectrumIdentificationList" []
               [("id", id); ("identification_results", VGen (length (heap st)))]]
         ++ streamed_results ress
         ++ [EClose "SpectrumIdentificationList"] /\
       next (length (heap st)) st' = (Ok None, st') /\
       forall (A : Type) (f : value -> M A),
         for_each (VGen (length (heap st))) f st' = (Ok [], st')) /\
  (forall kvs owner organization st,
     MzIdentMLWriter.providence (VDict kvs) owner organization st
     = MzIdentMLWriter.providence (VList [VDict kvs]) owner organization st) /\
  (forall k1 k2 k3 st,
     MzIdentMLWriter.inputs (VDict k1) (VDict k2) (VDict k3) st
     = MzIdentMLWriter.inputs (VList [VDict k1]) (VList [VDict k2]) (VList [VDict k3]) st) /\
  (forall k1 k2 k3 st,
     MzIdentMLWriter.sequence_collection (VDict k1) (VDict k2) (VDict k3) st
     = MzIdentMLWriter.sequence_collection
         (VList [VDict k1]) (VList [VDict k2]) (VList [VDict k3]) st) /\
  (forall search_type analysis_software_id id additional_search_params k1 k2
          fragment_tolerance parent_tolerance threshold st,
     MzIdentMLWriter.spectrum_identification_protocol
       search_type analysis_software_id id additional_search_params (VDict k1) (VDict k2)
       fragment_tolerance parent_tolerance threshold st
     = MzIdentMLWriter.spectrum_identification_protocol
         search_type analysis_software_id id additional_search_params
         (VList [VDict k1]) (VList [VDict k2])
         fragment_tolerance parent_tolerance threshold st) /\
  (forall kvs st,
     MzIdentMLWriter.controlled_vocabularies (VDict kvs) st
     = MzIdentMLWriter.controlled_vocabularies (VList (map fst kvs)) st).
Proof.
  split; [reflexivity|].
  split.
  { intros id k v rest st Hlive Hk Hid Hacc.
    destruct (spectrum_identification_list_on_mapping id k v rest st Hlive Hk Hid Hacc)
      as (st' & Hrun & Htrace & _).
    now exists st'. }
  split.
  { intros id identification_results rs ress st Hlive Hits Hb Hall Hacc Hid.
    destruct (spectrum_identification_list_run id identification_results rs ress st
                Hlive Hits Hb Hall Hacc Hid) as (st' & Hrun & Htrace & Hspent).
    exists st'. split; [exact Hrun|]. split; [exact Htrace|].
    split; [now apply next_spent|]. intros A f. now apply for_each_spent. }
  repeat split.
Qed.

Lemma identification_results_iterated_as_given_witness :
  live (entered []) /\
  exists st',
    @MzIdentMLWriter.spectrum_identification_list permissive (VInt 1)
      (VTuple [sample_result]) (entered [])
    = (Ok tt, st') /\
    trace st'
    = trace (entered [])
      ++ [ENew "SpectrumIdentificationList" []
            [("id", VInt 1); ("identification_results", VGen 0)];
          EOpen "SpectrumIdentificationList" []
            [("id", VInt 1); ("identification_results", VGen 0)]]
      ++ streamed_results
           [VObj "SpectrumIdentificationResult" []
              [("spectra_data_id", VInt 1); ("spectrum_id", VStr "scan=1");
               ("id", VStr "SIR1");
               ("identifications",
                VList [VObj "SpectrumIdentificationItem"
                         [VInt 500; VInt 501; VInt 2; VStr "P1"; VStr "PE1"; VInt 42;
                          VStr "SII1"]
                         [("cv_params", VTuple []); ("pass_threshold", VBool true);
                          ("rank", VInt 2)]])]]
      ++ [EClose "SpectrumIdentificationList"] /\
    @next permissive 0 st' = (Ok None, st') /\
    forall (A : Type) (f : value -> M A),
      @for_each permissive A (VGen 0) f st' = (Ok [], st').
Proof.
  assert (Hlive : live (entered [])) by (split; reflexivity).
  split; [exact Hlive|].
  destruct (@identification_results_iterated_as_given permissive) as (_ & _ & Hlist & _).
  exact (Hlist (VInt 1) (VTuple [sample_result]) [sample_result] _ (entered [])
           Hlive eq_refl eq_refl eq_refl eq_refl eq_refl).
Defined.

(** Against C10 as it is stated: [spectrum_identification_list] is not
    the only section operation without single-item normalization.
    [controlled_vocabularies] given a lone mapping appends its keys to the
    vocabulary list, not the mapping. *)
Lemma controlled_vocabularies_iterates_mapping_keys :
  ensure_iterable (VDict [(VStr "PSI-MS", VStr "psi-ms.obo")])
  = VList [VDict [(VStr "PSI-MS", VStr "psi-ms.obo")]] /\
  @MzIdentMLWriter.controlled_vocabularies permissive
    (VDict [(VStr "PSI-MS", VStr "psi-ms.obo")]) (entered [])
  = (Ok tt,
     set_trace (trace (entered []) ++ emitted "CVList" [VList [VStr "PSI-MS"]] [])
       (set_vocabularies [VStr "PSI-MS"] (entered []))) /\
  @MzIdentMLWriter.controlled_vocabularies permissive
    (VDict [(VStr "PSI-MS", VStr "psi-ms.obo")]) (entered [])
  <> @MzIdentMLWriter.controlled_vocabularies permissive
       (ensure_iterable (VDict [(VStr "PSI-MS", VStr "psi-ms.obo")])) (entered []).
Proof.
  split; [reflexivity|]. split; [reflexivity|].
  vm_compute. intros E. discriminate E.
Qed.

(** ** The bound of the loops over generators

    [for_each] gives a loop over a generator as many rounds as the heap
    holds items.  Every round that delivers a value takes an item away, so
    the bound is never what ends the loop: a larger one gives the same
    run. *)

Create HintDb frugal.

Lemma frugal_ret {A : Type} (a : A) : frugal (mret a : M A).
Proof. intros st. simpl. lia. Qed.

Lemma frugal_raise {A : Type} e : frugal (raise e : M A).
Proof. intros st. simpl. lia. Qed.

Lemma frugal_get : frugal get.
Proof. intros st. simpl. lia. Qed.

Lemma frugal_modify f :
  (forall st, pending_total (heap (f st)) <= pending_total (heap st)) ->
  frugal (modify f).
Proof. intros Hf st. apply Hf. Qed.

Lemma frugal_log e : frugal (log e).
Proof. apply frugal_modify. intros st. simpl. lia. Qed.

Lemma frugal_bind {A B : Type} (m : M A) (f : A -> M B) :
  frugal m -> (forall a, frugal (f a)) -> frugal (m ≫= f).
Proof.
  intros Hm Hf st. unfold mbind, M_bind. specialize (Hm st).
  destruct (m st) as [[a|e] st1]; simpl in *; [|exact Hm].
  specialize (Hf a st1). lia.
Qed.

#[local] Hint Resolve frugal_ret frugal_raise frugal_get frugal_log frugal_bind : frugal.

Lemma frugal_mapM {A B : Type} (f : A -> M B) xs :
  (forall x, frugal (f x)) -> frugal (mapM f xs).
Proof. intros Hf. induction xs; simpl; auto with frugal. Qed.

Lemma frugal_construct `{Components} cls args kw : frugal (construct cls args kw).
Proof. unfold construct. destruct (accepts cls args kw); auto with frugal. Qed.

Lemma frugal_unpack obj : frugal (unpack obj).
Proof.
  unfold unpack. destruct obj; auto with frugal.
  destruct (str_keys kvs); auto with frugal.
Qed.

Lemma frugal_check_keywords params kw : frugal (check_keywords params kw).
Proof. unfold check_keywords. destruct (forallb _ kw); auto with frugal. Qed.

Lemma frugal_required k kw : frugal (required k kw).
Proof. unfold required. destruct (lookup_kw k kw); auto with frugal. Qed.

#[local] Hint Resolve frugal_mapM frugal_construct frugal_unpack frugal_check_keywords
  frugal_required : frugal.

Lemma frugal_build `{Components} cls s : frugal (build cls s).
Proof. unfold build. auto with frugal. Qed.

Lemma frugal_call_item `{Components} s : frugal (call_spectrum_identification_item s).
Proof.
  unfold call_spectrum_identification_item, _spectrum_identification_item.
  auto 20 with frugal.
Qed.

Lemma frugal_writer_write w args kw : frugal (writer_write w args kw).
Proof.
  unfold writer_write. destruct w; auto with frugal.
  apply frugal_bind; [apply frugal_get|]. intros st. destruct (status st); auto with frugal.
Qed.

#[local] Hint Resolve frugal_build frugal_call_item frugal_writer_write : frugal.

Lemma pending_total_insert h : forall g c c',
  h !! g = Some c ->
  pending_total (<[g := c']> h) + weight c = pending_total h + weight c'.
Proof.
  induction h as [|d h IH]; intros [|g] c c' E; simpl in *; try discriminate.
  - injection E as ->. unfold weight. destruct (src c), (src c'); lia.
  - specialize (IH g c c' E). destruct (src d); lia.
Qed.

Lemma pending_total_finished g h :
  pending_total (alter finished g h) <= pending_total h.
Proof.
  revert g. induction h as [|d h IH]; intros [|g]; simpl; try lia.
  - destruct (src d); lia.
  - specialize (IH g). unfold alter in IH. destruct (src d); lia.
Qed.

Lemma frugal_closing {A : Type} g (m : M A) : frugal m -> frugal (closing g m).
Proof.
  intros Hm st. unfold closing. specialize (Hm st).
  destruct (m st) as [[a|e] st1]; simpl in *; [exact Hm|].
  pose proof (pending_total_finished g (heap st1)). lia.
Qed.

Lemma frugal_drain {A : Type} adv fuel g (f : value -> M A) :
  consuming adv -> (forall x, frugal (f x)) -> frugal (drain adv fuel g f).
Proof.
  intros Hadv Hf. induction fuel; simpl; auto with frugal.
  apply frugal_bind; [intros st; apply Hadv|]. intros [x|]; auto with frugal.
Qed.

Lemma frugal_for_each_with {A : Type} adv iterable (f : value -> M A) :
  consuming adv -> (forall x, frugal (f x)) -> frugal (for_each_with adv iterable f).
Proof.
  intros Hadv Hf. unfold for_each_with.
  destruct iterable; cbn [items]; auto with frugal.
  apply frugal_bind; [apply frugal_get|]. intros st. now apply frugal_drain.
Qed.

Lemma frugal_yield_with `{Components} adv b s :
  consuming adv -> frugal (yield_with adv b s).
Proof.
  intros Hadv. destruct b; simpl; auto with frugal.
  unfold call_spectrum_identification_result_with, _spectrum_identification_result_with.
  auto 20 using frugal_for_each_with with frugal.
Qed.

Lemma consuming_step_with `{Components} adv g :
  consuming adv -> forall st,
    pending_total (heap (snd (step_with adv g st))) <= pending_total (heap st) /\
    forall v, fst (step_with adv g st) = Ok (Some v) ->
              pending_total (heap (snd (step_with adv g st))) < pending_total (heap st).
Proof.
  intros Hadv st. unfold step_with. rewrite bind_get.
  destruct (heap st !! g) as [c|] eqn:Hg; [|split; [simpl; lia|discriminate]].
  assert (Hyield : forall s st1 r st2,
            (v ← closing g (yield_with adv (body c) s); mret (Some v)) st1 = (r, st2) ->
            pending_total (heap st2) <= pending_total (heap st1)).
  { intros s st1 r st2 E.
    pose proof (frugal_closing g _ (frugal_yield_with adv (body c) s Hadv) st1) as H2.
    destruct (closing g (yield_with adv (body c) s) st1) as [[v|e] st3] eqn:E2.
    - rewrite (bind_ok _ _ _ _ _ E2) in E. injection E as _ <-. exact H2.
    - rewrite (bind_raise _ _ _ _ _ E2) in E. injection E as _ <-. exact H2. }
  destruct (src c) as [[|s rest]|g'] eqn:Hsrc; [split; [simpl; lia|discriminate]| |].
  - rewrite bind_modify.
    set (st1 := set_heap _ st).
    assert (H1 : pending_total (heap st1) < pending_total (heap st)).
    { subst st1. cbn [heap set_heap].
      pose proof (pending_total_insert (heap st) g c
                    (Generator (SItems rest) (body c)) Hg) as E.
      unfold weight in E. rewrite Hsrc in E. simpl in E. lia. }
    destruct ((v ← closing g (yield_with adv (body c) s); mret (Some v)) st1)
      as [r st2] eqn:E.
    specialize (Hyield s st1 r st2 E). simpl. split; [lia|intros; lia].
  - destruct (Hadv g' st) as [Hle Hstrict].
    destruct (adv g' st) as [[[s|]|e] st1] eqn:E1; simpl in Hle, Hstrict.
    + rewrite (bind_ok _ _ _ _ _ (closing_ok g _ _ _ _ E1)).
      specialize (Hstrict s eq_refl).
      destruct ((v ← closing g (yield_with adv (body c) s); mret (Some v)) st1)
        as [r st2] eqn:E.
      specialize (Hyield s st1 r st2 E). simpl. split; [lia|intros; lia].
    + rewrite (bind_ok _ _ _ _ _ (closing_ok g _ _ _ _ E1)). rewrite bind_modify.
      split; [|discriminate]. cbn [snd heap set_heap mret M_ret].
      pose proof (pending_total_finished g (heap st1)). lia.
    + rewrite (bind_raise _ _ _ _ _ (closing_raise g _ _ _ _ E1)).
      split; [|discriminate]. cbn [snd heap set_heap].
      pose proof (pending_total_finished g (heap st1)). lia.
Qed.

Lemma consuming_next_below `{Components} n : consuming (next_below n).
Proof.
  induction n as [|n IH]; intros g st; simpl.
  - split; [lia|discriminate].
  - destruct (Nat.eqb g n); [now apply consuming_step_with|apply IH].
Qed.

Lemma consuming_next `{Components} : consuming next.
Proof. intros g st. unfold next. rewrite bind_get. apply consuming_next_below. Qed.

Lemma drain_round {A : Type} adv fuel g (f : value -> M A) st :
  drain adv (S fuel) g f st
  = match adv g st with
    | (Ok (Some x), st1) =>
        match f x st1 with
        | (Ok y, st2) =>
            match drain adv fuel g f st2 with
            | (Ok ys, st3) => (Ok (y :: ys), st3)
            | (Raise e, st3) => (Raise e, st3)
            end
        | (Raise e, st2) => (Raise e, st2)
        end
    | (Ok None, st1) => (Ok [], st1)
    | (Raise e, st1) => (Raise e, st1)
    end.
Proof.
  cbn [drain]. unfold mbind, M_bind.
  destruct (adv g st) as [[[x|]|e] st1]; reflexivity.
Qed.

(** Once the bound exceeds the number of items in the heap, a larger bound
    changes nothing. *)
Lemma drain_bound {A : Type} adv g (f : value -> M A) :
  consuming adv -> (forall x, frugal (f x)) ->
  forall fuel st,
    pending_total (heap st) < fuel ->
    drain adv (S fuel) g f st = drain adv fuel g f st.
Proof.
  intros Hadv Hf. induction fuel as [|fuel IH]; intros st Hlt; [lia|].
  rewrite (drain_round adv (S fuel)), (drain_round adv fuel).
  destruct (Hadv g st) as [_ Hstrict].
  destruct (adv g st) as [[[x|]|e] st1]; try reflexivity.
  specialize (Hstrict x eq_refl). simpl in Hstrict.
  pose proof (Hf x st1) as Hx.
  destruct (f x st1) as [[y|e] st2]; try reflexivity. simpl in Hx.
  rewrite IH by lia. reflexivity.
Qed.

(** The loops of the model run to their end: the bound [for_each] gives a
    loop over a generator can be raised at will. *)
Lemma for_each_bound `{Components} {A : Type} g (f : value -> M A) extra st :
  (forall x, frugal (f x)) ->
  for_each (VGen g) f st
  = drain next (S (pending_total (heap st)) + extra) g f st.
Proof.
  intros Hf. unfold for_each, for_each_with. rewrite bind_get.
  induction extra as [|extra IH]; [now rewrite Nat.add_0_r|].
  rewrite IH. rewrite <- plus_n_Sm. symmetry.
  apply drain_bound; [apply consuming_next|exact Hf|lia].
Qed.
(** * Further properties of the writer *)

(** ** What every run keeps *)

Section Respect.
Context `{Components}.
Variable R : state -> state -> Prop.
Hypothesis R_refl : forall st, R st st.
Hypothesis R_trans : forall a b c, R a b -> R b c -> R a c.
Hypothesis R_new :
  forall cls args kw st, R st (set_trace (trace st ++ [ENew cls args kw]) st).
Hypothesis R_heap : forall h st, R st (set_heap h st).

Lemma respects_ret {A : Type} (a : A) : respects R (mret a : M A).
Proof. intros st. apply R_refl. Qed.

Lemma respects_raise {A : Type} e : respects R (raise e : M A).
Proof. intros st. apply R_refl. Qed.

Lemma respects_get : respects R get.
Proof. intros st. apply R_refl. Qed.

Lemma respects_bind {A B : Type} (m : M A) (f : A -> M B) :
  respects R m -> (forall a, respects R (f a)) -> respects R (m ≫= f).
Proof.
  intros Hm Hf st. unfold mbind, M_bind. specialize (Hm st).
  destruct (m st) as [[a|e] st1]; simpl in *; [|exact Hm].
  eapply R_trans; [exact Hm|apply Hf].
Qed.

Lemma respects_mapM {A B : Type} (f : A -> M B) xs :
  (forall x, respects R (f x)) -> respects R (mapM f xs).
Proof.
  intros Hf. induction xs; simpl; [apply respects_ret|].
  apply respects_bind; [apply Hf|]. intros y.
  apply respects_bind; [assumption|]. intros ys. apply respects_ret.
Qed.

Lemma respects_construct cls args kw : respects R (construct cls args kw).
Proof.
  unfold construct. destruct (accepts cls args kw); [|apply respects_raise].
  intros st. apply R_new.
Qed.

Lemma respects_getattr obj name : respects R (getattr obj name).
Proof.
  unfold getattr. destruct obj; try apply respects_raise.
  destruct (attr _ name); [apply respects_ret|apply respects_raise].
Qed.

Lemma respects_unpack obj : respects R (unpack obj).
Proof.
  unfold unpack. destruct obj; try apply respects_raise.
  destruct (str_keys kvs); [apply respects_ret|apply respects_raise].
Qed.

Lemma respects_check_keywords params kw : respects R (check_keywords params kw).
Proof.
  unfold check_keywords. destruct (forallb _ kw); [apply respects_ret|apply respects_raise].
Qed.

Lemma respects_required k kw : respects R (required k kw).
Proof.
  unfold required. destruct (lookup_kw k kw); [apply respects_ret|apply respects_raise].
Qed.

Lemma respects_build cls s : respects R (build cls s).
Proof.
  unfold build. apply respects_bind; [apply respects_unpack|].
  intros kw. apply respects_construct.
Qed.

Lemma respects_call_item s : respects R (call_spectrum_identification_item s).
Proof.
  unfold call_spectrum_identification_item, _spectrum_identification_item.
  repeat first
    [ apply respects_construct
    | apply respects_bind;
      [first [apply respects_unpack|apply respects_check_keywords|apply respects_required]
      |intros ?] ].
Qed.

Lemma respects_closing {A : Type} g (m : M A) : respects R m -> respects R (closing g m).
Proof.
  intros Hm st. unfold closing. specialize (Hm st).
  destruct (m st) as [[a|e] st1]; simpl in *; [exact Hm|].
  eapply R_trans; [exact Hm|apply R_heap].
Qed.

Lemma respects_drain {A : Type} adv fuel g (f : value -> M A) :
  (forall g', respects R (adv g')) -> (forall x, respects R (f x)) ->
  respects R (drain adv fuel g f).
Proof.
  intros Hadv Hf. induction fuel; simpl; [apply respects_ret|].
  apply respects_bind; [apply Hadv|]. intros [x|]; [|apply respects_ret].
  apply respects_bind; [apply Hf|]. intros y.
  apply respects_bind; [assumption|]. intros ys. apply respects_ret.
Qed.

Lemma respects_for_each_with {A : Type} adv iterable (f : value -> M A) :
  (forall g', respects R (adv g')) -> (forall x, respects R (f x)) ->
  respects R (for_each_with adv iterable f).
Proof.
  intros Hadv Hf. unfold for_each_with.
  destruct iterable; cbn [items];
    try apply respects_raise; try (now apply respects_mapM).
  apply respects_bind; [apply respects_get|]. intros st. now apply respects_drain.
Qed.

Lemma respects_call_result_with adv s :
  (forall g', respects R (adv g')) ->
  respects R (call_spectrum_identification_result_with adv s).
Proof.
  intros Hadv.
  unfold call_spectrum_identification_result_with, _spectrum_identification_result_with.
  apply respects_bind; [apply respects_unpack|]. intros kw.
  apply respects_bind; [apply respects_check_keywords|]. intros _.
  apply respects_bind; [apply respects_required|]. intros spectrum_id.
  apply respects_bind; [apply respects_required|]. intros id.
  apply respects_bind; [|intros; apply respects_construct].
  apply respects_for_each_with; [exact Hadv|apply respects_call_item].
Qed.

Lemma respects_yield_with adv b s :
  (forall g', respects R (adv g')) -> respects R (yield_with adv b s).
Proof.
  intros Hadv. destruct b; simpl;
    [apply respects_ret|apply respects_build|now apply respects_call_result_with].
Qed.

Lemma respects_step_with adv g :
  (forall g', respects R (adv g')) -> respects R (step_with adv g).
Proof.
  intros Hadv. unfold step_with. apply respects_bind; [apply respects_get|].
  intros st. destruct (heap st !! g) as [c|]; [|apply respects_ret].
  assert (Hyield : forall s, respects R (v ← closing g (yield_with adv (body c) s);
                                         mret (Some v))).
  { intros s. apply respects_bind; [|intros; apply respects_ret].
    apply respects_closing. now apply respects_yield_with. }
  destruct (src c) as [[|s rest]|g'].
  - apply respects_ret.
  - apply respects_bind; [intros st'; apply R_heap|]. intros _. apply Hyield.
  - apply respects_bind; [apply respects_closing, Hadv|].
    intros [s|]; [apply Hyield|].
    apply respects_bind; [intros st'; apply R_heap|]. intros _. apply respects_ret.
Qed.

Lemma respects_next_below n : forall g, respects R (next_below n g).
Proof.
  induction n as [|n IH]; intros g; simpl; [apply respects_ret|].
  destruct (Nat.eqb g n); [now apply respects_step_with|apply IH].
Qed.

Lemma respects_next g : respects R (next g).
Proof.
  unfold next. apply respects_bind; [apply respects_get|].
  intros st. apply respects_next_below.
Qed.

Lemma respects_for_each {A : Type} iterable (f : value -> M A) :
  (forall x, respects R (f x)) -> respects R (for_each iterable f).
Proof. intros Hf. apply respects_for_each_with; [apply respects_next|exact Hf]. Qed.

Lemma respects_genexp b iterable : respects R (genexp b iterable).
Proof.
  unfold genexp. apply respects_bind.
  - destruct iterable; simpl; first [apply respects_ret|apply respects_raise].
  - intros source. apply respects_bind; [apply respects_get|]. intros st.
    apply respects_bind; [intros st'; apply R_heap|]. intros _. apply respects_ret.
Qed.

Lemma respects_tolerance cls v : respects R (MzIdentMLWriter.tolerance cls v).
Proof. destruct v; simpl; first [apply respects_construct|apply respects_ret]. Qed.

(** The section operations add nothing of their own to what building and
    writing components do. *)
Hypothesis R_write : forall c w, respects R (component_write c w).

Lemma respects_emit {B : Type} cls args kw (k : unit -> M B) :
  (forall u, respects R (k u)) ->
  respects R (c ← construct cls args kw; st ← get; component_write c (writer st) ≫= k).
Proof.
  intros Hk. apply respects_bind; [apply respects_construct|]. intros c.
  apply respects_bind; [apply respects_get|]. intros st.
  apply respects_bind; [apply R_write|exact Hk].
Qed.

Lemma respects_emit_last cls args kw :
  respects R (c ← construct cls args kw; st ← get; component_write c (writer st)).
Proof.
  apply respects_bind; [apply respects_construct|]. intros c.
  apply respects_bind; [apply respects_get|]. intros st. apply R_write.
Qed.

Lemma respects_providence software owner organization :
  respects R (MzIdentMLWriter.providence software owner organization).
Proof.
  unfold MzIdentMLWriter.providence.
  apply respects_bind; [apply respects_for_each, respects_build|]. intros sw.
  apply respects_bind; [apply respects_build|]. intros ow.
  apply respects_bind; [apply respects_build|]. intros org.
  apply respects_emit. intros _.
  apply respects_bind; [apply respects_getattr|]. intros contact.
  apply respects_emit. intros _.
  apply respects_emit_last.
Qed.

Lemma respects_inputs source_files search_databases spectra_data :
  respects R (MzIdentMLWriter.inputs source_files search_databases spectra_data).
Proof.
  unfold MzIdentMLWriter.inputs.
  apply respects_bind; [apply respects_for_each, respects_build|]. intros sf.
  apply respects_bind; [apply respects_for_each, respects_build|]. intros sd.
  apply respects_bind; [apply respects_for_each, respects_build|]. intros sp.
  apply respects_emit_last.
Qed.

Lemma respects_sequence_collection db_sequences peptides peptide_evidence :
  respects R (MzIdentMLWriter.sequence_collection db_sequences peptides peptide_evidence).
Proof.
  unfold MzIdentMLWriter.sequence_collection.
  apply respects_bind; [apply respects_genexp|]. intros g1.
  apply respects_bind; [apply respects_genexp|]. intros g2.
  apply respects_bind; [apply respects_genexp|]. intros g3.
  apply respects_emit_last.
Qed.

Lemma respects_spectrum_identification_protocol
    search_type analysis_software_id id additional_search_params enzymes
    modification_params fragment_tolerance parent_tolerance threshold :
  respects R (MzIdentMLWriter.spectrum_identification_protocol
                search_type analysis_software_id id additional_search_params enzymes
                modification_params fragment_tolerance parent_tolerance threshold).
Proof.
  unfold MzIdentMLWriter.spectrum_identification_protocol.
  apply respects_bind; [apply respects_for_each, respects_build|]. intros es.
  apply respects_bind; [apply respects_for_each, respects_build|]. intros ms.
  apply respects_bind; [apply respects_tolerance|]. intros ft.
  apply respects_bind; [apply respects_tolerance|]. intros pt.
  apply respects_bind; [apply respects_construct|]. intros th.
  apply respects_emit_last.
Qed.

Lemma respects_spectrum_identification_list id identification_results :
  respects R (MzIdentMLWriter.spectrum_identification_list id identification_results).
Proof.
  unfold MzIdentMLWriter.spectrum_identification_list.
  apply respects_bind; [apply respects_genexp|]. intros g.
  apply respects_emit_last.
Qed.

Lemma respects_controlled_vocabularies v :
  (forall x st, R st (set_vocabularies (vocabularies st ++ [x]) st)) ->
  respects R (MzIdentMLWriter.controlled_vocabularies v).
Proof.
  intros Happend.
  unfold MzIdentMLWriter.controlled_vocabularies, vocabularies_extend, self_vocabularies.
  apply respects_bind.
  - apply respects_bind; [|intros; apply respects_ret].
    apply respects_for_each. intros x st. apply Happend.
  - intros _. apply respects_bind.
    + apply respects_bind; [apply respects_get|]. intros st. apply respects_ret.
    + intros vs. apply respects_emit_last.
Qed.

End Respect.

(** A block under a section: the section takes the writer the session
    holds; without one it cannot ask for its element. *)
Lemma with_section_run {A : Type} section (body : M A) st :
  with_section section body st
  = match writer st with
    | VWriter =>
        (scope_enter (VScope section [] []) ;;
         leaving_section
           (DocumentSection.Make section VWriter (VScope section [] [])) body) st
    | _ => (Raise AttributeError, st)
    end.
Proof.
  unfold with_section. rewrite bind_get.
  unfold DocumentSection.__enter__, DocumentSection.__init__.
  cbn [DocumentSection.section_writer DocumentSection.section].
  unfold components_element. destruct (writer st); try reflexivity.
  rewrite bind_assoc, bind_ret, bind_assoc. unfold mbind, M_bind.
  now destruct (scope_enter (VScope section [] []) st) as [[[]|e] st1].
Qed.

(** Relations that do not look at the trace, the heap or the open
    elements are kept by the serializer as well. *)
Section Insensitive.
Variable R : state -> state -> Prop.
Hypothesis R_refl : forall st, R st st.
Hypothesis R_trans : forall a b c, R a b -> R b c -> R a c.
Hypothesis R_trace : forall t st, R st (set_trace t st).
Hypothesis R_scopes : forall ss st, R st (set_scopes ss st).

Lemma insensitive_scope_enter cm : respects R (scope_enter cm).
Proof.
  intros st. destruct cm; try apply R_refl. unfold scope_enter. rewrite bind_get.
  destruct (status st); try apply R_refl.
  rewrite bind_modify, log_run. simpl. eapply R_trans; [apply R_scopes|apply R_trace].
Qed.

Lemma insensitive_scope_exit cm exc : respects R (scope_exit cm exc).
Proof.
  intros st. destruct cm; try apply R_refl. unfold scope_exit. rewrite bind_get.
  destruct (status st); try apply R_refl.
  destruct (scopes st) as [|top rest]; try apply R_refl.
  destruct (String.eqb top tag); try apply R_refl.
  rewrite bind_modify, log_run. simpl. eapply R_trans; [apply R_scopes|apply R_trace].
Qed.

Lemma insensitive_writer_flush w : respects R (writer_flush w).
Proof.
  intros st. destruct (writer_flush_cases w st) as [E|[e E]]; rewrite E; simpl;
    [apply R_trace|apply R_refl].
Qed.

Lemma insensitive_py_with {A : Type} tag args kw (body : M A) :
  respects R body -> respects R (py_with (VScope tag args kw) body).
Proof.
  intros Hb st. unfold py_with, mbind, M_bind.
  pose proof (insensitive_scope_enter (VScope tag args kw) st) as H1.
  destruct (scope_enter (VScope tag args kw) st) as [[[]|e] st1]; simpl in *; [|exact H1].
  unfold leaving. specialize (Hb st1).
  destruct (body st1) as [[a|e] st2]; simpl in Hb.
  - pose proof (insensitive_scope_exit (VScope tag args kw) None st2) as H2.
    destruct (scope_exit (VScope tag args kw) None st2) as [[[]|e] st3]; simpl in *;
      eauto.
  - pose proof (insensitive_scope_exit (VScope tag args kw) (Some e) st2) as H2.
    destruct (scope_exit (VScope tag args kw) (Some e) st2) as [[[]|e'] st3]; simpl in *;
      eauto.
Qed.

Lemma insensitive_section_exit self exc : respects R (DocumentSection.__exit__ self exc).
Proof.
  intros st. unfold DocumentSection.__exit__, mbind, M_bind.
  pose proof (insensitive_scope_exit (DocumentSection.section_toplevel self) exc st) as H1.
  destruct (scope_exit _ exc st) as [[[]|e] st1]; simpl in *; [|exact H1].
  eapply R_trans; [exact H1|apply insensitive_writer_flush].
Qed.

Lemma insensitive_with_section {A : Type} section (body : M A) :
  respects R body -> respects R (with_section section body).
Proof.
  intros Hb st. rewrite with_section_run.
  destruct (writer st); try apply R_refl. unfold mbind, M_bind.
  pose proof (insensitive_scope_enter (VScope section [] []) st) as H1.
  destruct (scope_enter (VScope section [] []) st) as [[[]|e] st1]; simpl in *; [|exact H1].
  unfold leaving_section. specialize (Hb st1).
  destruct (body st1) as [[a|e] st2]; simpl in Hb.
  - pose proof (insensitive_section_exit
                  (DocumentSection.Make section VWriter (VScope section [] [])) None st2) as H2.
    destruct (DocumentSection.__exit__ _ None st2) as [[[]|e] st3]; simpl in *; eauto.
  - pose proof (insensitive_section_exit
                  (DocumentSection.Make section VWriter (VScope section [] [])) (Some e) st2) as H2.
    destruct (DocumentSection.__exit__ _ (Some e) st2) as [[[]|e'] st3]; simpl in *; eauto.
Qed.

End Insensitive.

(** The session side of the state needs the discipline of the blocks: what
    a block opens it closes, whatever its body does, once the body has left
    the open elements as it found them. *)
Lemma same_frame_refl st : same_frame st st.
Proof. reflexivity. Qed.

Lemma same_frame_trans a b c : same_frame a b -> same_frame b c -> same_frame a c.
Proof. unfold same_frame. congruence. Qed.

Lemma same_frame_trace t st : same_frame st (set_trace t st).
Proof. reflexivity. Qed.

Lemma same_frame_heap h st : same_frame st (set_heap h st).
Proof. reflexivity. Qed.

Lemma same_frame_vocabularies vs st : same_frame st (set_vocabularies vs st).
Proof. reflexivity. Qed.

Lemma frame_fields st st' :
  frame st' = frame st ->
  writer st' = writer st /\ toplevel st' = toplevel st /\ status st' = status st /\
  scopes st' = scopes st /\ sink_open st' = sink_open st.
Proof. unfold frame. intros [= -> -> -> -> ->]. repeat split. Qed.

Lemma frame_py_with {A : Type} tag args kw (body : M A) :
  respects same_frame body -> respects same_frame (py_with (VScope tag args kw) body).
Proof.
  intros Hb st. unfold py_with.
  destruct (status st) eqn:Hs;
    try (rewrite (bind_raise _ _ _ _ _ (scope_enter_outside tag args kw st ltac:(congruence)));
         reflexivity).
  rewrite (bind_ok _ _ _ _ _ (scope_enter_run tag args kw st Hs)).
  unfold leaving. specialize (Hb (opened tag args kw st)). unfold opened in Hb.
  destruct (body _) as [[a|e] st2]; simpl in Hb;
    apply frame_fields in Hb as (Hw & Ht & Hst & Hsc & Hso);
    cbn [writer toplevel status scopes sink_open set_trace set_scopes] in *.
  - rewrite (scope_exit_run tag args kw None (scopes st) st2) by congruence.
    unfold same_frame, frame; simpl; congruence.
  - rewrite (scope_exit_run tag args kw (Some e) (scopes st) st2) by congruence.
    unfold same_frame, frame; simpl; congruence.
Qed.

Lemma frame_with_section {A : Type} section (body : M A) :
  respects same_frame body -> respects same_frame (with_section section body).
Proof.
  intros Hb st. rewrite with_section_run.
  destruct (writer st) eqn:Hw; try reflexivity.
  destruct (status st) eqn:Hs;
    try (rewrite (bind_raise _ _ _ _ _ (scope_enter_outside section [] [] st ltac:(congruence)));
         reflexivity).
  rewrite (bind_ok _ _ _ _ _ (scope_enter_run section [] [] st Hs)).
  unfold leaving_section. specialize (Hb (opened section [] [] st)). unfold opened in Hb.
  destruct (body _) as [[a|e] st2]; simpl in Hb;
    apply frame_fields in Hb as (Hw2 & Ht & Hst & Hsc & Hso);
    cbn [writer toplevel status scopes sink_open set_trace set_scopes] in *;
    unfold DocumentSection.__exit__;
    cbn [DocumentSection.section_toplevel DocumentSection.section_writer].
  - rewrite (bind_ok _ _ _ _ _ (scope_exit_run section [] [] None (scopes st) st2
                                  ltac:(congruence) ltac:(congruence))).
    cbn beta. unfold writer_flush. rewrite bind_get. cbn [status set_trace set_scopes].
    rewrite Hst, Hs, log_run. unfold same_frame, frame. simpl. congruence.
  - rewrite (bind_ok _ _ _ _ _ (scope_exit_run section [] [] (Some e) (scopes st) st2
                                  ltac:(congruence) ltac:(congruence))).
    cbn beta. unfold writer_flush. rewrite bind_get. cbn [status set_trace set_scopes].
    rewrite Hst, Hs, log_run. unfold same_frame, frame. simpl. congruence.
Qed.

(** ** Programs *)

Section Program.
Context `{Components}.
Variable R : state -> state -> Prop.
Hypothesis R_refl : forall st, R st st.
Hypothesis R_trans : forall a b c, R a b -> R b c -> R a c.
Hypothesis R_trace : forall t st, R st (set_trace t st).
Hypothesis R_heap : forall h st, R st (set_heap h st).
Hypothesis R_with :
  forall (A : Type) tag args kw (body : M A),
    respects R body -> respects R (py_with (VScope tag args kw) body).
Hypothesis R_section :
  forall (A : Type) section (body : M A),
    respects R body -> respects R (with_section section body).

(** Whether appending to the vocabulary list is within the relation; when
    it is not, the programs that call [controlled_vocabularies] are left
    out. *)
Variable appending : bool.
Hypothesis R_append :
  appending = true ->
  forall x st, R st (set_vocabularies (vocabularies st ++ [x]) st).

Lemma program_new cls args kw st : R st (set_trace (trace st ++ [ENew cls args kw]) st).
Proof. apply R_trace. Qed.

Lemma program_writer_write w args kw : respects R (writer_write w args kw).
Proof.
  intros st. destruct w; try apply R_refl. unfold writer_write. rewrite bind_get.
  destruct (status st); try apply R_refl. rewrite log_run. apply R_trace.
Qed.

Lemma program_with {A : Type} cm (body : M A) :
  respects R body -> respects R (py_with cm body).
Proof.
  intros Hb. destruct cm; try (intros st; apply R_refl). now apply R_with.
Qed.

Lemma program_component_write c w : respects R (component_write c w).
Proof.
  unfold component_write. destruct c; try (intros st; apply R_refl).
  destruct w; try (intros st; apply R_refl).
  apply R_with. apply respects_bind; [exact R_trans| |intros; now apply respects_ret].
  apply respects_mapM; [exact R_refl|exact R_trans|]. intros a.
  unfold stream. destruct a; try (now apply respects_ret).
  apply respects_bind; [exact R_trans| |intros; now apply respects_ret].
  apply respects_for_each;
    [exact R_refl|exact R_trans|exact program_new|exact R_heap|].
  intros x. apply program_writer_write.
Qed.

Lemma program_handler {A : Type} (m h : M A) :
  respects R m -> respects R h -> respects R (try_except_AttributeError m h).
Proof.
  intros Hm Hh st. unfold try_except_AttributeError. specialize (Hm st).
  destruct (m st) as [[a|e] st1]; simpl in *; try exact Hm.
  destruct e; try exact Hm. eapply R_trans; [exact Hm|apply Hh].
Qed.

Lemma program_not_created {A : Type} : respects R (@XMLWriterMixin.not_created A).
Proof.
  intros st. unfold XMLWriterMixin.not_created. rewrite bind_get.
  destruct (writer st); apply R_refl.
Qed.

Lemma program_write args kw : respects R (XMLWriterMixin.write args kw).
Proof.
  apply program_handler; [|apply program_not_created].
  intros st. rewrite bind_get. apply program_writer_write.
Qed.

Lemma program_element {A : Type} name kw (body : M A) :
  respects R body -> respects R (XMLWriterMixin.element name kw body).
Proof.
  intros Hb. apply program_handler; [|apply program_not_created].
  intros st. rewrite bind_get.
  assert (Hm : forall m : M value, respects R m -> respects R (cm ← m; py_with cm body)).
  { intros m Hm. apply respects_bind; [exact R_trans|exact Hm|].
    intros cm. now apply program_with. }
  destruct name; apply Hm; intros st'; unfold components_element, method_element;
    try apply R_refl; destruct (writer st); apply R_refl.
Qed.

Lemma program_statements :
  (forall s, (appending = false -> extends_vocabularies s = false) ->
             respects R (exec s)) /\
  (forall b, (appending = false -> suite_extends_vocabularies b = false) ->
             respects R (exec_suite b)).
Proof.
  apply statement_suite_mutind; cbn [exec exec_suite extends_vocabularies
                                     suite_extends_vocabularies].
  - intros args kw _. apply program_write.
  - intros name kw body IH Hcv. apply program_element. now apply IH.
  - intros section body IH Hcv. apply R_section. now apply IH.
  - intros v Hcv. destruct appending eqn:Hap; [|now specialize (Hcv eq_refl)].
    apply respects_controlled_vocabularies;
      [exact R_refl|exact R_trans|exact program_new|exact R_heap
      |exact program_component_write|now apply R_append].
  - intros. apply respects_providence;
      [exact R_refl|exact R_trans|exact program_new|exact R_heap
      |exact program_component_write].
  - intros. apply respects_inputs;
      [exact R_refl|exact R_trans|exact program_new|exact R_heap
      |exact program_component_write].
  - intros. apply respects_sequence_collection;
      [exact R_refl|exact R_trans|exact program_new|exact R_heap
      |exact program_component_write].
  - intros. apply respects_spectrum_identification_protocol;
      [exact R_refl|exact R_trans|exact program_new|exact R_heap
      |exact program_component_write].
  - intros. apply respects_spectrum_identification_list;
      [exact R_refl|exact R_trans|exact program_new|exact R_heap
      |exact program_component_write].
  - intros body IH Hcv st. unfold try_except_pass. simpl. now apply IH.
  - intros _. now apply respects_ret.
  - intros s IHs rest IHr Hcv.
    apply respects_bind; [exact R_trans| |intros _].
    + apply IHs. intros Hap. specialize (Hcv Hap). now apply orb_false_elim in Hcv.
    + apply IHr. intros Hap. specialize (Hcv Hap). now apply orb_false_elim in Hcv.
Qed.

End Program.

(** ** The session under any program *)

Lemma frame_statements `{Components} :
  (forall s, respects same_frame (exec s)) /\
  (forall b, respects same_frame (exec_suite b)).
Proof.
  destruct (program_statements same_frame same_frame_refl same_frame_trans
              same_frame_trace same_frame_heap (@frame_py_with) (@frame_with_section)
              true (fun _ x st => same_frame_vocabularies _ st)) as [Hs Hb].
  split; intros; [apply Hs|apply Hb]; discriminate.
Qed.

(** X1.  Whatever a program over the interface of the writer does, and
    whether it returns or raises, it leaves the session as it found it:
    [self.writer], [self.toplevel], the life cycle of the serializer, the
    elements that are open and the sink are the same afterwards.  Every
    element a section operation, an [element] block or a [DocumentSection]
    block opens is closed again before the operation or the block is
    left, also when an exception leaves it. *)
Theorem programs_keep_the_session `{Components} (b : suite) (st : state) :
  frame (snd (exec_suite b st)) = frame st.
Proof. apply frame_statements. Qed.

(** X2.  Leaving the session works after any program: once the session
    has been entered, whatever was called in between and however it ended,
    [__exit__] closes the root element, flushes, finishes the serializer
    and closes the sink, for an exception on its way out as well as for a
    normal exit. *)
Theorem exit_after_any_program `{Components}
    (vocabularies : list value) (b : suite) (exc : option exn) :
  exists st',
    MzIdentMLWriter.__exit__ exc (snd (exec_suite b (entered vocabularies))) = (Ok tt, st') /\
    trace st'
    = trace (snd (exec_suite b (entered vocabularies)))
      ++ [EClose "MzIdentML"; EFlush; EFinish; ESinkClose] /\
    sink_open st' = false /\ status st' = Finished /\ scopes st' = [].
Proof.
  destruct (frame_fields _ _ (proj2 frame_statements b (entered vocabularies)))
    as (Hw & Ht & Hst & Hsc & _).
  rewrite (exit_run exc "MzIdentML" [] [] [])
    by (first [rewrite Hw|rewrite Hst|rewrite Ht|rewrite Hsc]; reflexivity).
  eexists. split; [reflexivity|]. repeat split.
Qed.

(** ** The vocabulary list *)

Lemma grown_refl st : grown st st.
Proof. exists []. now rewrite app_nil_r. Qed.

Lemma grown_trans a b c : grown a b -> grown b c -> grown a c.
Proof. intros [l1 E1] [l2 E2]. exists (l1 ++ l2). now rewrite E2, E1, app_assoc. Qed.

Lemma grown_statements `{Components} :
  forall b, respects grown (exec_suite b).
Proof.
  intros b.
  apply (proj2 (program_statements grown grown_refl grown_trans
                  (fun t st => grown_refl _) (fun h st => grown_refl _)
                  (fun A => insensitive_py_with grown grown_refl grown_trans
                              (fun t st => grown_refl _) (fun ss st => grown_refl _))
                  (fun A => insensitive_with_section grown grown_refl grown_trans
                              (fun t st => grown_refl _) (fun ss st => grown_refl _))
                  true (fun _ x st => ex_intro _ [x] eq_refl))).
  discriminate.
Qed.

Lemma same_vocabularies_statements `{Components} :
  forall b, suite_extends_vocabularies b = false ->
            respects same_vocabularies (exec_suite b).
Proof.
  intros b Hb.
  assert (Htrans : forall a b c, same_vocabularies a b -> same_vocabularies b c ->
                                 same_vocabularies a c)
    by (unfold same_vocabularies; congruence).
  apply (proj2 (program_statements same_vocabularies (fun st => eq_refl) Htrans
                  (fun t st => eq_refl) (fun h st => eq_refl)
                  (fun A => insensitive_py_with same_vocabularies (fun st => eq_refl) Htrans
                              (fun t st => eq_refl) (fun ss st => eq_refl))
                  (fun A => insensitive_with_section same_vocabularies (fun st => eq_refl)
                              Htrans (fun t st => eq_refl) (fun ss st => eq_refl))
                  false (fun E => False_ind _ (Bool.diff_false_true E)))).
  intros _. exact Hb.
Qed.

(** X3.  The vocabulary list of the session is never shortened, reordered
    or replaced: after any program, returning or raising, it is the list
    from before with something appended.  [controlled_vocabularies] is the
    only operation that appends: a program that does not call it leaves the
    list as it was. *)
Theorem vocabularies_only_grow `{Components} (b : suite) (st : state) :
  (exists l, vocabularies (snd (exec_suite b st)) = vocabularies st ++ l) /\
  (suite_extends_vocabularies b = false ->
   vocabularies (snd (exec_suite b st)) = vocabularies st).
Proof.
  split; [apply grown_statements|].
  intros Hb. now apply same_vocabularies_statements.
Qed.

(** ** Failures of the eager operations *)










(** ** Failures while streaming *)

Lemma build_rejected `{Components} cls s st :
  acceptable cls s = false -> build cls s st = (Raise (rejection s), st).
Proof.
  unfold acceptable, build, rejection, item_kwargs, unpack.
  destruct (py_or s (VDict [])); try reflexivity.
  destruct (str_keys kvs) as [kw|]; [|reflexivity].
  intros Hacc. rewrite bind_ret. unfold construct. now rewrite Hacc.
Qed.

Lemma alter_insert_eq {A : Type} (f : A -> A) x (l : list A) : forall i,
  alter f i (<[i := x]> l) = <[i := f x]> l.
Proof.
  induction l as [|y l IH]; intros [|i]; simpl; try reflexivity.
  f_equal. apply IH.
Qed.

Lemma step_entity_rejected `{Components} adv g cls s rest st :
  heap st !! g = Some (Generator (SItems (s :: rest)) (BEntity cls)) ->
  acceptable cls s = false ->
  step_with adv g st
  = (Raise (rejection s),
     set_heap (<[g := Generator (SItems []) (BEntity cls)]> (heap st)) st).
Proof.
  intros E Hacc. unfold step_with. run. rewrite E. cbn [src body]. run.
  erewrite bind_raise; [reflexivity|].
  erewrite closing_raise by (apply build_rejected, Hacc).
  cbn [heap set_heap]. rewrite alter_insert_eq. reflexivity.
Qed.

Lemma drain_entities_rejected `{Components} cls bad post pre : forall fuel st g,
  status st = Live ->
  heap st !! g = Some (Generator (SItems (pre ++ bad :: post)) (BEntity cls)) ->
  forallb (acceptable cls) pre = true ->
  acceptable cls bad = false ->
  length pre < fuel ->
  drain next fuel g (fun e => writer_write VWriter [e] []) st
  = (Raise (rejection bad),
     set_heap (<[g := Generator (SItems []) (BEntity cls)]> (heap st))
       (set_trace (trace st ++ streamed cls pre) st)).
Proof.
  induction pre as [|s pre IH]; intros fuel st g Hlive Hg Hall Hbad Hfuel;
    (destruct fuel as [|fuel]; [simpl in Hfuel; lia|]); cbn [drain];
    pose proof (lookup_lt_Some _ _ _ Hg) as Hlt.
  - simpl in Hg. erewrite bind_raise;
      [|rewrite next_run by exact Hlt; eapply step_entity_rejected; eassumption].
    simpl. rewrite app_nil_r. now destruct st.
  - simpl in Hall, Hfuel, Hg. apply andb_prop in Hall as [Hs Hall].
    erewrite bind_ok by (rewrite next_run by exact Hlt; apply step_entity; eassumption).
    cbn beta iota.
    erewrite bind_ok by (apply writer_write_run; exact Hlive).
    erewrite bind_raise; cycle 1.
    { apply IH; [exact Hlive| |exact Hall|exact Hbad|lia].
      cbn [heap set_trace set_heap]. now apply list_lookup_insert_eq. }
    cbn [heap trace set_trace set_heap].
    rewrite list_insert_insert_eq. destruct st; simpl. now rewrite <- !app_assoc.
Qed.

Lemma stream_entities_rejected `{Components} cls pre bad post g st :
  status st = Live ->
  heap st !! g = Some (Generator (SItems (pre ++ bad :: post)) (BEntity cls)) ->
  forallb (acceptable cls) pre = true ->
  acceptable cls bad = false ->
  stream VWriter (VGen g) st
  = (Raise (rejection bad),
     set_heap (<[g := Generator (SItems []) (BEntity cls)]> (heap st))
       (set_trace (trace st ++ streamed cls pre) st)).
Proof.
  intros Hlive Hg Hall Hbad. unfold stream, for_each, for_each_with. run.
  erewrite bind_raise; [reflexivity|].
  pose proof (pending_bound _ _ _ _ Hg) as Hb.
  eapply drain_entities_rejected; try eassumption. rewrite length_app in Hb. simpl in Hb. lia.
Qed.

(** X5.  [sequence_collection] does not take back what it has written.
    Its entities are built while the element is being written, so an item
    the builder cannot be called on is met in the middle of the output: the
    entities before it have been built and written and stay so, the
    [SequenceCollection] element is closed all the same, and the error
    leaves the call.  The items behind the failing one are dropped with
    their generator, and the peptides and the peptide evidence are never
    looked at. *)
Theorem sequence_collection_keeps_what_was_written `{Components}
    (db_sequences peptides peptide_evidence : value)
    (pre post ip ie : list value) (bad : value) (st : state) :
  live st ->
  items (ensure_iterable db_sequences) = Some (pre ++ bad :: post) ->
  items (ensure_iterable peptides) = Some ip ->
  items (ensure_iterable peptide_evidence) = Some ie ->
  forallb (acceptable "DBSequence") pre = true ->
  acceptable "DBSequence" bad = false ->
  accepts "SequenceCollection"
    [VGen (length (heap st)); VGen (S (length (heap st)));
     VGen (S (S (length (heap st))))] [] = true ->
  exists st',
    MzIdentMLWriter.sequence_collection db_sequences peptides peptide_evidence st
    = (Raise (rejection bad), st') /\
    trace st'
    = trace st
      ++ [ENew "SequenceCollection"
            [VGen (length (heap st)); VGen (S (length (heap st)));
             VGen (S (S (length (heap st))))] [];
          EOpen "SequenceCollection"
            [VGen (length (heap st)); VGen (S (length (heap st)));
             VGen (S (S (length (heap st))))] []]
      ++ streamed "DBSequence" pre
      ++ [EClose "SequenceCollection"] /\
    scopes st' = scopes st /\
    spent (length (heap st)) st' /\
    heap st' !! S (length (heap st))
    = Some (Generator (SItems ip) (BEntity "Peptide")) /\
    heap st' !! S (S (length (heap st)))
    = Some (Generator (SItems ie) (BEntity "PeptideEvidence")).
Proof.
  intros [Hw Hlive] H1 H2 H3 A1 Hbad Hacc.
  unfold MzIdentMLWriter.sequence_collection.
  rewrite (bind_ok _ _ _ _ _ (genexp_run _ _ _ _ H1)).
  rewrite (bind_ok _ _ _ _ _ (genexp_run _ _ _ _ H2)).
  rewrite (bind_ok _ _ _ _ _ (genexp_run _ _ _ _ H3)).
  cbn [heap set_heap]. rewrite !length_app. cbn [length].
  rewrite !Nat.add_1_r.
  rewrite (bind_ok _ _ _ _ _ (construct_run _ _ _ _ Hacc)). run.
  cbn [writer set_trace set_heap]. rewrite Hw.
  set (n := length (heap st)) in *.
  set (G1 := Generator (SItems (pre ++ bad :: post)) (BEntity "DBSequence")).
  set (G2 := Generator (SItems ip) (BEntity "Peptide")).
  set (G3 := Generator (SItems ie) (BEntity "PeptideEvidence")).
  assert (L1 : (((heap st ++ [G1]) ++ [G2]) ++ [G3]) !! n = Some G1).
  { rewrite <- !app_assoc. simpl. now apply list_lookup_middle. }
  assert (L2 : (((heap st ++ [G1]) ++ [G2]) ++ [G3]) !! S n = Some G2).
  { rewrite <- (app_assoc (heap st ++ [G1])). simpl. apply list_lookup_middle.
    rewrite length_app. simpl. subst n. lia. }
  assert (L3 : (((heap st ++ [G1]) ++ [G2]) ++ [G3]) !! S (S n) = Some G3).
  { apply list_lookup_middle. rewrite !length_app. simpl. subst n. lia. }
  unfold component_write, py_with.
  erewrite bind_ok by (apply scope_enter_run; exact Hlive).
  eexists. split; [|split; [|split; [|split; [|split]]]].
  - eapply leaving_raise.
    + cbn [mapM app map].
      erewrite bind_raise; [reflexivity|].
      erewrite bind_raise; [reflexivity|].
      eapply stream_entities_rejected; [exact Hlive|exact L1|exact A1|exact Hbad].
    + eapply scope_exit_run; [exact Hlive|reflexivity].
  - cbn [trace set_trace set_heap set_scopes]. now rewrite <- !app_assoc.
  - reflexivity.
  - exists (BEntity "DBSequence"). cbn [heap set_trace set_heap set_scopes].
    apply list_lookup_insert_eq. eapply lookup_lt_Some; exact L1.
  - cbn [heap set_trace set_heap set_scopes].
    rewrite list_lookup_insert_ne by lia. exact L2.
  - cbn [heap set_trace set_heap set_scopes].
    rewrite list_lookup_insert_ne by lia. exact L3.
Qed.

Lemma sequence_collection_keeps_what_was_written_witness :
  exists st',
    @MzIdentMLWriter.sequence_collection permissive
      (VList [VDict [(VStr "id", VStr "DB1")]; VInt 5; VDict [(VStr "id", VStr "DB3")]])
      (VDict [(VStr "id", VStr "P1")]) VNone (entered [])
    = (Raise TypeError, st') /\
    trace st'
    = trace (entered [])
      ++ [ENew "SequenceCollection" [VGen 0; VGen 1; VGen 2] [];
          EOpen "SequenceCollection" [VGen 0; VGen 1; VGen 2] []]
      ++ streamed "DBSequence" [VDict [(VStr "id", VStr "DB1")]]
      ++ [EClose "SequenceCollection"] /\
    scopes st' = scopes (entered []) /\
    spent 0 st' /\
    heap st' !! 1
    = Some (Generator (SItems [VDict [(VStr "id", VStr "P1")]]) (BEntity "Peptide")) /\
    heap st' !! 2 = Some (Generator (SItems [VNone]) (BEntity "PeptideEvidence")).
Proof.
  apply (@sequence_collection_keeps_what_was_written permissive
           (VList [VDict [(VStr "id", VStr "DB1")]; VInt 5; VDict [(VStr "id", VStr "DB3")]])
           (VDict [(VStr "id", VStr "P1")]) VNone
           [VDict [(VStr "id", VStr "DB1")]] [VDict [(VStr "id", VStr "DB3")]]
           [VDict [(VStr "id", VStr "P1")]] [VNone] (VInt 5) (entered []));
    first [reflexivity | split; reflexivity].
Defined.

(** ** Arguments that cannot be iterated over *)

(** X6.  What the operations make of an argument that is not iterable
    ([None], a number, a component).  [spectrum_identification_list]
    iterates over its argument as it is given: it raises a [TypeError]
    before the list is built, with nothing changed; [None] is no exception
    there.  [controlled_vocabularies] does the same for anything but
    [None].  Where the collection is normalized ([providence], [inputs],
    [sequence_collection] and the enzymes and modifications of the
    protocol) the argument counts as the one item of a list. *)
Theorem arguments_that_are_not_iterable `{Components} (v : value) (st : state) :
  is_iterable v = false ->
  (forall id, MzIdentMLWriter.spectrum_identification_list id v st
              = (Raise TypeError, st)) /\
  (v <> VNone ->
   MzIdentMLWriter.controlled_vocabularies v st = (Raise TypeError, st)) /\
  items (ensure_iterable v) = Some [v].
Proof.
  intros Hv. destruct v; try discriminate; repeat split; try reflexivity;
    intros Hne; try reflexivity; now destruct Hne.
Qed.

Lemma arguments_that_are_not_iterable_witness :
  is_iterable (VInt 5) = false /\
  (forall id, @MzIdentMLWriter.spectrum_identification_list permissive id (VInt 5) (entered [])
              = (Raise TypeError, entered [])) /\
  (VInt 5 <> VNone ->
   @MzIdentMLWriter.controlled_vocabularies permissive (VInt 5) (entered [])
   = (Raise TypeError, entered [])) /\
  items (ensure_iterable (VInt 5)) = Some [VInt 5].
Proof.
  split; [reflexivity|].
  apply (@arguments_that_are_not_iterable permissive (VInt 5) (entered [])). reflexivity.
Defined.

(** ** Blocks *)

Lemma handler_passes {A : Type} (m h : M A) st a st' :
  m st = (Ok a, st') -> try_except_AttributeError m h st = (Ok a, st').
Proof. intros E. unfold try_except_AttributeError. now rewrite E. Qed.

Lemma not_created_set {A : Type} st :
  writer st <> VNone -> @XMLWriterMixin.not_created A st = (Raise AttributeError, st).
Proof.
  intros Hw. unfold XMLWriterMixin.not_created. rewrite bind_get.
  now destruct (writer st).
Qed.

(** With a writer at hand the handler of the mixin lets every outcome
    through as it is. *)
Lemma handler_transparent {A : Type} (m : M A) st r st' :
  m st = (r, st') ->
  writer st' <> VNone ->
  try_except_AttributeError m XMLWriterMixin.not_created st = (r, st').
Proof.
  intros E Hw. destruct r as [a|e]; [now apply handler_passes|].
  destruct e; try (apply handler_skipped; [exact E|discriminate]).
  rewrite (handler_run _ _ _ _ E). now apply not_created_set.
Qed.

Lemma py_with_run {A : Type} tag args kw (body : M A) st r st2 :
  status st = Live ->
  body (opened tag args kw st) = (r, st2) ->
  frame st2 = frame (opened tag args kw st) ->
  py_with (VScope tag args kw) body st = (r, closed tag (scopes st) st2).
Proof.
  intros Hlive Hb Hf. unfold py_with.
  rewrite (bind_ok _ _ _ _ _ (scope_enter_run tag args kw st Hlive)).
  fold (opened tag args kw st).
  apply frame_fields in Hf as (_ & _ & Hst & Hsc & _).
  unfold opened in Hst, Hsc. cbn [status scopes set_trace set_scopes] in Hst, Hsc.
  destruct r as [a|e].
  - eapply leaving_ok; [exact Hb|].
    apply scope_exit_run; congruence.
  - eapply leaving_raise; [exact Hb|].
    apply scope_exit_run; congruence.
Qed.

(** X7.  [element] of the mixin brackets the body of its block.  On an
    entered session the element is opened, the body runs and the element
    is closed, and the block ends as its body ended: with its result, or
    with the exception it raised, the element closed all the same.  An
    [AttributeError] of the body comes out as it is: the handler of lines
    33-41 turns it into the not-ready error only while the writer is
    unset.  A name that is neither a string nor a component raises an
    [AttributeError] before anything is opened, and the body does not
    run. *)
Theorem element_brackets_its_body {A : Type}
    (element_name : value) (kwargs : list (string * value)) (body : M A) (st : state) :
  live st ->
  (forall tag args kw r st2,
     element_scope element_name kwargs = Some (VScope tag args kw) ->
     body (opened tag args kw st) = (r, st2) ->
     frame st2 = frame (opened tag args kw st) ->
     XMLWriterMixin.element element_name kwargs body st
     = (r, closed tag (scopes st) st2)) /\
  (element_scope element_name kwargs = None ->
   XMLWriterMixin.element element_name kwargs body st = (Raise AttributeError, st)).
Proof.
  intros [Hw Hlive]. split.
  - intros tag args kw r st2 Hcm Hb Hf. unfold XMLWriterMixin.element.
    apply handler_transparent.
    + rewrite bind_get, Hw.
      assert (E : forall m : M value, m st = (Ok (VScope tag args kw), st) ->
                (cm ← m; py_with cm body) st = (r, closed tag (scopes st) st2)).
      { intros m Em. rewrite (bind_ok _ _ _ _ _ Em). now apply py_with_run. }
      destruct element_name; try discriminate;
        simpl in Hcm; injection Hcm as ? ? ?; subst; apply E; reflexivity.
    + apply frame_fields in Hf as (Hw2 & _). cbn in Hw2. unfold closed. cbn. congruence.
  - intros Hnone. unfold XMLWriterMixin.element.
    apply handler_transparent; [|congruence].
    rewrite bind_get, Hw. destruct element_name; try discriminate; reflexivity.
Qed.

Lemma element_brackets_its_body_witness :
  live (entered []) /\
  (forall tag args kw r st2,
     element_scope (VStr "AnalysisCollection") [] = Some (VScope tag args kw) ->
     (raise AttributeError : M unit) (opened tag args kw (entered [])) = (r, st2) ->
     frame st2 = frame (opened tag args kw (entered [])) ->
     XMLWriterMixin.element (VStr "AnalysisCollection") [] (raise AttributeError : M unit)
       (entered [])
     = (r, closed tag (scopes (entered [])) st2)) /\
  (element_scope (VStr "AnalysisCollection") [] = None ->
   XMLWriterMixin.element (VStr "AnalysisCollection") [] (raise AttributeError : M unit)
     (entered [])
   = (Raise AttributeError, entered [])).
Proof.
  split; [split; reflexivity|].
  apply (@element_brackets_its_body unit (VStr "AnalysisCollection") []
           (raise AttributeError) (entered [])).
  split; reflexivity.
Defined.

(** X8.  A block under a [DocumentSection] made from the writer of an
    entered session opens the element of the section, runs its body,
    closes the element and flushes the writer, in this order; it does so
    when the body raises as well, and the exception goes on after the
    flush. *)
Theorem section_brackets_its_body {A : Type}
    (section : string) (body : M A) (st : state) (r : outcome A) (st2 : state) :
  live st ->
  body (opened section [] [] st) = (r, st2) ->
  frame st2 = frame (opened section [] [] st) ->
  with_section section body st
  = (r, set_trace (trace st2 ++ [EClose section; EFlush]) (set_scopes (scopes st) st2)).
Proof.
  intros [Hw Hlive] Hb Hf. rewrite with_section_run, Hw.
  rewrite (bind_ok _ _ _ _ _ (scope_enter_run section [] [] st Hlive)).
  fold (opened section [] [] st). unfold leaving_section. rewrite Hb.
  apply frame_fields in Hf as (_ & _ & Hst & Hsc & _).
  unfold opened in Hst, Hsc. cbn [status scopes set_trace set_scopes] in Hst, Hsc.
  assert (E : forall exc,
            DocumentSection.__exit__
              (DocumentSection.Make section VWriter (VScope section [] [])) exc st2
            = (Ok tt, set_trace (trace st2 ++ [EClose section; EFlush])
                        (set_scopes (scopes st) st2))).
  { intros exc. unfold DocumentSection.__exit__.
    cbn [DocumentSection.section_toplevel DocumentSection.section_writer].
    rewrite (bind_ok _ _ _ _ _ (scope_exit_run section [] [] exc (scopes st) st2
                                  ltac:(congruence) ltac:(congruence))).
    cbn beta. unfold writer_flush. rewrite bind_get. cbn [status set_trace set_scopes].
    rewrite Hst, Hlive, log_run. cbn [trace set_trace]. rewrite set_trace_twice.
    now rewrite <- app_assoc. }
  destruct r as [a|e]; now rewrite E.
Qed.

Lemma section_brackets_its_body_witness :
  with_section "AnalysisCollection" (raise TypeError : M unit) (entered [])
  = (Raise TypeError,
     set_trace (trace (opened "AnalysisCollection" [] [] (entered []))
                ++ [EClose "AnalysisCollection"; EFlush])
       (set_scopes (scopes (entered [])) (opened "AnalysisCollection" [] [] (entered [])))).
Proof.
  apply (@section_brackets_its_body unit "AnalysisCollection" (raise TypeError) (entered [])
           (Raise TypeError) (opened "AnalysisCollection" [] [] (entered [])));
    first [reflexivity | split; reflexivity].
Defined.

(** ** A call that fails after it has changed the session *)

Lemma extend_added `{Components} v l st :
  added v = Some l ->
  vocabularies_extend (match v with VNone => VList [] | _ => v end) st
  = (Ok tt, set_vocabularies (vocabularies st ++ l) st).
Proof.
  intros Hadd.
  assert (Hit : items (match v with VNone => VList [] | _ => v end) = Some l)
    by (destruct v; simpl in *; congruence).
  unfold vocabularies_extend. rewrite (for_each_items _ _ _ Hit).
  now rewrite (bind_ok _ _ _ _ _ (extend_run l st)).
Qed.

(** X9.  [controlled_vocabularies] extends the vocabulary list before it
    builds and writes the [CVList] (line 132 before lines 133-134), and
    nothing takes the extension back.  Called before the session is
    entered it raises, the write having no writer, but the list has grown
    by the argument all the same; the same call repeated on the entered
    session then emits the argument twice. *)
Theorem failed_call_still_extends `{Components}
    (v : value) (l : list value) (st : state) :
  writer st = VNone ->
  status st = Fresh ->
  added v = Some l ->
  (forall vs, accepts "CVList" [VList vs] [] = true) ->
  exists st1 st2 st3,
    MzIdentMLWriter.controlled_vocabularies v st = (Raise AttributeError, st1) /\
    vocabularies st1 = vocabularies st ++ l /\
    MzIdentMLWriter.__enter__ st1 = (Ok tt, st2) /\
    MzIdentMLWriter.controlled_vocabularies v st2 = (Ok tt, st3) /\
    vocabularies st3 = vocabularies st ++ l ++ l /\
    trace st3
    = trace st2 ++ emitted "CVList" [VList (vocabularies st ++ l ++ l)] [].
Proof.
  intros Hw Hfresh Hadd Hacc.
  set (st1 := set_trace (trace st ++ [ENew "CVList" [VList (vocabularies st ++ l)] []])
                (set_vocabularies (vocabularies st ++ l) st)).
  assert (E1 : MzIdentMLWriter.controlled_vocabularies v st = (Raise AttributeError, st1)).
  { unfold MzIdentMLWriter.controlled_vocabularies, self_vocabularies.
    rewrite (bind_ok _ _ _ _ _ (extend_added v l st Hadd)). run.
    cbn [vocabularies set_vocabularies].
    rewrite (bind_ok _ _ _ _ _ (construct_run _ _ _ _ (Hacc _))). run.
    cbn [writer set_trace set_vocabularies]. now rewrite Hw. }
  set (st2 := snd (MzIdentMLWriter.__enter__ st1)).
  assert (E2 : MzIdentMLWriter.__enter__ st1 = (Ok tt, st2)).
  { subst st2. unfold MzIdentMLWriter.__enter__, MzIdentMLWriter._begin, xmlfile_enter.
    run. subst st1. cbn [status set_trace set_vocabularies]. rewrite Hfresh. reflexivity. }
  assert (Hlive : live st2 /\ vocabularies st2 = vocabularies st ++ l).
  { subst st2. unfold MzIdentMLWriter.__enter__, MzIdentMLWriter._begin, xmlfile_enter.
    run. subst st1. cbn [status set_trace set_vocabularies]. rewrite Hfresh.
    repeat split. }
  destruct Hlive as [Hlive Hvs].
  exists st1, st2. eexists. split; [exact E1|]. split; [reflexivity|].
  split; [exact E2|].
  rewrite (controlled_vocabularies_run v l st2 Hlive Hadd (Hacc _)).
  split; [reflexivity|]. cbn [vocabularies trace set_trace set_vocabularies].
  rewrite Hvs, <- app_assoc. now split.
Qed.

Lemma failed_call_still_extends_witness :
  exists st1 st2 st3,
    @MzIdentMLWriter.controlled_vocabularies permissive (VList [VStr "PSI-MS"])
      (MzIdentMLWriter.__init__ [VStr "UO"])
    = (Raise AttributeError, st1) /\
    vocabularies st1 = vocabularies (MzIdentMLWriter.__init__ [VStr "UO"]) ++ [VStr "PSI-MS"] /\
    MzIdentMLWriter.__enter__ st1 = (Ok tt, st2) /\
    @MzIdentMLWriter.controlled_vocabularies permissive (VList [VStr "PSI-MS"]) st2
    = (Ok tt, st3) /\
    vocabularies st3
    = vocabularies (MzIdentMLWriter.__init__ [VStr "UO"])
      ++ [VStr "PSI-MS"] ++ [VStr "PSI-MS"] /\
    trace st3
    = trace st2
      ++ emitted "CVList"
           [VList (vocabularies (MzIdentMLWriter.__init__ [VStr "UO"])
                   ++ [VStr "PSI-MS"] ++ [VStr "PSI-MS"])] [].
Proof.
  apply (@failed_call_still_extends permissive (VList [VStr "PSI-MS"]) [VStr "PSI-MS"]
           (MzIdentMLWriter.__init__ [VStr "UO"]));
    reflexivity.
Defined.

(** ** Binding the keywords of items and results *)

(** What [_spectrum_identification_item( **(s or {}))] comes to, for every
    [s]. *)
Lemma call_item_spec `{Components} s st :
  call_spectrum_identification_item s st
  = match identification_item s with
    | None => (Raise TypeError, st)
    | Some item =>
        if accepted item
        then (Ok item, set_trace (trace st ++ made item) st)
        else (Raise ValidationError, st)
    end.
Proof.
  unfold call_spectrum_identification_item, identification_item, item_kwargs, unpack.
  destruct (py_or s (VDict [])); try reflexivity.
  destruct (str_keys kvs) as [kw|]; [|reflexivity].
  rewrite bind_ret. unfold check_keywords, known.
  destruct (forallb _ kw) eqn:Hk.
  - rewrite bind_ret. unfold required.
    destruct (lookup_kw "calculated_mass_to_charge" kw); [rewrite bind_ret|reflexivity].
    destruct (lookup_kw "experimental_mass_to_charge" kw); [rewrite bind_ret|reflexivity].
    destruct (lookup_kw "charge_state" kw); [rewrite bind_ret|reflexivity].
    destruct (lookup_kw "peptide_id" kw); [rewrite bind_ret|reflexivity].
    destruct (lookup_kw "peptide_evidence_id" kw); [rewrite bind_ret|reflexivity].
    destruct (lookup_kw "score" kw); [rewrite bind_ret|reflexivity].
    destruct (lookup_kw "id" kw); [rewrite bind_ret|reflexivity].
    unfold _spectrum_identification_item, construct, accepted, made, optional.
    destruct (accepts _ _ _); reflexivity.
  - destruct (lookup_kw "calculated_mass_to_charge" kw); [|reflexivity].
    destruct (lookup_kw "experimental_mass_to_charge" kw); [|reflexivity].
    destruct (lookup_kw "charge_state" kw); [|reflexivity].
    destruct (lookup_kw "peptide_id" kw); [|reflexivity].
    destruct (lookup_kw "peptide_evidence_id" kw); [|reflexivity].
    destruct (lookup_kw "score" kw); [|reflexivity].
    destruct (lookup_kw "id" kw); reflexivity.
Qed.

Lemma identification_item_missing s kw k :
  item_kwargs s = Some kw ->
  In k item_required ->
  lookup_kw k kw = None ->
  identification_item s = None.
Proof.
  intros Hkw Hin Hk. unfold identification_item. rewrite Hkw.
  unfold item_required in Hin. simpl in Hin.
  destruct Hin as [<-|[<-|[<-|[<-|[<-|[<-|[<-|[]]]]]]]]; rewrite Hk;
    repeat (match goal with
            | |- context [match lookup_kw ?key kw with _ => _ end] =>
                destruct (lookup_kw key kw)
            end); reflexivity.
Qed.

Lemma identification_item_unknown s kw :
  item_kwargs s = Some kw ->
  known item_parameters kw = false ->
  identification_item s = None.
Proof.
  intros Hkw Hk. unfold identification_item. rewrite Hkw, Hk.
  repeat (match goal with
          | |- context [match lookup_kw ?key kw with _ => _ end] =>
              destruct (lookup_kw key kw)
          end); reflexivity.
Qed.

(** X10.  The keywords of an item mapping are bound to the parameters of
    [_spectrum_identification_item] (lines 202-204).  An item that is no
    mapping with string keys, a mapping with a key that names no
    parameter, and a mapping that lacks one of the seven parameters
    without default each raise a [TypeError] before the builder is called.
    Whenever the call raises, with a [TypeError] or with the validation
    error of the builder, it has changed nothing. *)
Theorem item_binding_errors `{Components} (s : value) (st : state) :
  (item_kwargs s = None ->
   call_spectrum_identification_item s st = (Raise TypeError, st)) /\
  (forall kw, item_kwargs s = Some kw ->
     known item_parameters kw = false ->
     call_spectrum_identification_item s st = (Raise TypeError, st)) /\
  (forall kw k, item_kwargs s = Some kw ->
     In k item_required -> lookup_kw k kw = None ->
     call_spectrum_identification_item s st = (Raise TypeError, st)) /\
  (forall e st', call_spectrum_identification_item s st = (Raise e, st') ->
     st' = st /\ (e = TypeError \/ e = ValidationError)).
Proof.
  rewrite call_item_spec. split; [|split; [|split]].
  - intros Hkw. unfold identification_item. now rewrite Hkw.
  - intros kw Hkw Hk. now rewrite (identification_item_unknown s kw Hkw Hk).
  - intros kw k Hkw Hin Hk. now rewrite (identification_item_missing s kw k Hkw Hin Hk).
  - intros e st'.
    destruct (identification_item s) as [item|]; [destruct (accepted item)|];
      intros [= <- <-]; auto.
Qed.

Lemma unpack_raises s st :
  item_kwargs s = None -> unpack (py_or s (VDict [])) st = (Raise TypeError, st).
Proof.
  unfold item_kwargs, unpack. destruct (py_or s (VDict [])); try reflexivity.
  now destruct (str_keys kvs).
Qed.

(** X11.  The keywords of a result mapping are bound to the parameters of
    [_spectrum_identification_result] (line 194) before any of its items is
    looked at: a result that is no mapping with string keys, that lacks
    [spectrum_id] or [id], or that has a key naming no parameter raises a
    [TypeError] with nothing built, whatever its identifications hold. *)
Theorem result_binding_errors `{Components} (r : value) (st : state) :
  (item_kwargs r = None ->
   call_spectrum_identification_result_with next r st = (Raise TypeError, st)) /\
  (forall kw, item_kwargs r = Some kw ->
     lookup_kw "spectrum_id" kw = None \/ lookup_kw "id" kw = None \/
     known result_parameters kw = false ->
     call_spectrum_identification_result_with next r st = (Raise TypeError, st)).
Proof.
  unfold call_spectrum_identification_result_with. split.
  - intros Hkw. now rewrite (bind_raise _ _ _ _ _ (unpack_raises r st Hkw)).
  - intros kw Hkw Hbad. rewrite (bind_ok _ _ _ _ _ (unpack_item r kw st Hkw)).
    unfold check_keywords. fold (known result_parameters kw).
    destruct (known result_parameters kw); [|reflexivity].
    rewrite bind_ret. unfold required.
    destruct (lookup_kw "spectrum_id" kw); [rewrite bind_ret|reflexivity].
    destruct (lookup_kw "id" kw); [|reflexivity].
    destruct Hbad as [?|[?|?]]; discriminate.
Qed.

Lemma mapM_raise {A B : Type} (f : A -> M B) bad post e pre :
  forall st ys st1 st2,
    mapM f pre st = (Ok ys, st1) ->
    f bad st1 = (Raise e, st2) ->
    mapM f (pre ++ bad :: post) st = (Raise e, st2).
Proof.
  induction pre as [|x pre IH]; intros st ys st1 st2 Hpre Hbad; simpl in *.
  - injection Hpre as <- <-. now rewrite (bind_raise _ _ _ _ _ Hbad).
  - unfold mbind, M_bind in Hpre |- *.
    destruct (f x st) as [[y|e'] st'] eqn:Ex; [|discriminate].
    destruct (mapM f pre st') as [[ys'|e'] st''] eqn:Er; [|discriminate].
    injection Hpre as <- <-.
    fold (@mbind M _ (list B) (list B)).
    now rewrite (IH _ _ _ _ Er Hbad).
Qed.

(** X12.  A result is built after its items, one item after the other
    (lines 199-200), and an item that cannot be bound stops it: the items
    before it have been built and stay built, the items behind it are not
    looked at, and the result itself is never built. *)
Theorem result_fails_with_its_item `{Components}
    (r : value) (kw : list (string * value)) (spectrum_id id : value)
    (pre post its : list value) (bad : value) (st : state) :
  item_kwargs r = Some kw ->
  known result_parameters kw = true ->
  lookup_kw "spectrum_id" kw = Some spectrum_id ->
  lookup_kw "id" kw = Some id ->
  items (ensure_iterable (optional "identifications" _t kw)) = Some (pre ++ bad :: post) ->
  all_built identification_item pre = Some its ->
  forallb accepted its = true ->
  identification_item bad = None ->
  call_spectrum_identification_result_with next r st
  = (Raise TypeError, set_trace (trace st ++ flat_map made its) st).
Proof.
  intros Hkw Hk E1 E2 Hits Hpre Hacc Hbad.
  unfold call_spectrum_identification_result_with.
  rewrite (bind_ok _ _ _ _ _ (unpack_item _ _ st Hkw)).
  rewrite (bind_ok _ _ _ _ _ (check_keywords_run _ _ st Hk)).
  rewrite (bind_ok _ _ _ _ _ (required_run _ _ _ st E1)).
  rewrite (bind_ok _ _ _ _ _ (required_run _ _ _ st E2)).
  unfold _spectrum_identification_result_with.
  fold (@for_each _ value (ensure_iterable (optional "identifications" _t kw))
          call_spectrum_identification_item).
  rewrite (for_each_items _ _ _ Hits).
  erewrite bind_raise; [reflexivity|].
  eapply mapM_raise; [apply mapM_call_item; eassumption|].
  rewrite call_item_spec, Hbad. reflexivity.
Qed.

Lemma result_fails_with_its_item_witness :
  @call_spectrum_identification_result_with permissive (@next permissive)
    (VDict [(VStr "spectrum_id", VStr "scan=1"); (VStr "id", VStr "SIR1");
            (VStr "identifications",
             VList [sample_item; VDict [(VStr "id", VStr "SII2")]; sample_item])])
    (entered [])
  = (Raise TypeError,
     set_trace (trace (entered [])
                ++ flat_map made
                     [VObj "SpectrumIdentificationItem"
                        [VInt 500; VInt 501; VInt 2; VStr "P1"; VStr "PE1"; VInt 42;
                         VStr "SII1"]
                        [("cv_params", _t); ("pass_threshold", VBool true);
                         ("rank", VInt 2)]])
       (entered [])).
Proof.
  apply (@result_fails_with_its_item permissive
           (VDict [(VStr "spectrum_id", VStr "scan=1"); (VStr "id", VStr "SIR1");
                   (VStr "identifications",
                    VList [sample_item; VDict [(VStr "id", VStr "SII2")]; sample_item])])
           [("spectrum_id", VStr "scan=1"); ("id", VStr "SIR1");
            ("identifications",
             VList [sample_item; VDict [(VStr "id", VStr "SII2")]; sample_item])]
           (VStr "scan=1") (VStr "SIR1")
           [sample_item] [sample_item]
           [VObj "SpectrumIdentificationItem"
              [VInt 500; VInt 501; VInt 2; VStr "P1"; VStr "PE1"; VInt 42; VStr "SII1"]
              [("cv_params", _t); ("pass_threshold", VBool true); ("rank", VInt 2)]]
           (VDict [(VStr "id", VStr "SII2")]) (entered []));
    reflexivity.
Defined.

(** ** Normalization *)

(** X13.  [ensure_iterable] always returns something [for] can iterate
    over as a collection of items: an iterable that is neither a string nor
    a mapping.  It returns its argument or the list that holds just the
    argument, and applying it again changes nothing.  Whatever is not a
    generator thereby has its items at hand. *)
Theorem ensure_iterable_normal_form (v : value) :
  is_iterable (ensure_iterable v) = true /\
  is_basestring (ensure_iterable v) = false /\
  is_mapping (ensure_iterable v) = false /\
  (ensure_iterable v = v \/ ensure_iterable v = VList [v]) /\
  ensure_iterable (ensure_iterable v) = ensure_iterable v /\
  (plain v = true -> exists its, items (ensure_iterable v) = Some its).
Proof.
  destruct v; repeat split; auto; intros; try discriminate; eexists; reflexivity.
Qed.

(** A program at work: a failing [inputs] under an [element] block, caught
    by the caller, leaves the element opened and closed and the session
    ready for what follows. *)
Example program_with_a_caught_failure :
  trace (snd (@exec_suite permissive
                (Then (STry (Then (SElement (VStr "DataCollection") []
                                     (Then (SInputs (VList [VInt 5]) _t _t) Pass))
                               Pass))
                   (Then (SWrite [VStr "text"] []) Pass))
                (entered [])))
  = [EAcquire; EOpen "MzIdentML" [] [];
     EOpen "DataCollection" [] []; EClose "DataCollection";
     EWrite [VStr "text"] []].
Proof. reflexivity. Qed.

(** ** A section written in part *)

(** X14.  [providence] writes its three elements one after the other and
    reads [owner.id] between the first and the second (lines 157-159).
    When the owner that was built has no [id], the [AttributeError] leaves
    the call after the [AnalysisSoftwareList] has been written: that
    element stays in the output, and neither the [Provider] nor the
    [AuditCollection] is built. *)
Theorem providence_stops_after_the_software_list `{Components}
    (software owner organization : value) (its : list value) (st : state) :
  live st ->
  items (ensure_iterable software) = Some its ->
  forallb (acceptable "AnalysisSoftware") its = true ->
  acceptable "Person" owner = true ->
  acceptable "Organization" organization = true ->
  accepts "GenericCollection"
    [VStr "AnalysisSoftwareList"; VList (map (entity "AnalysisSoftware") its)] [] = true ->
  attr (entity "Person" owner) "id" = None ->
  MzIdentMLWriter.providence software owner organization st
  = (Raise AttributeError,
     set_trace
       (trace st
        ++ map (creation "AnalysisSoftware") its
        ++ [creation "Person" owner; creation "Organization" organization]
        ++ emitted "GenericCollection"
             [VStr "AnalysisSoftwareList"; VList (map (entity "AnalysisSoftware") its)] [])
       st).
Proof.
  intros Hlive Hits Hsw Hp Ho Hasl Hid.
  unfold MzIdentMLWriter.providence.
  rewrite (bind_ok _ _ _ _ _ (for_each_build _ _ _ _ Hits Hsw)).
  rewrite (bind_ok _ _ _ _ _ (build_run _ _ _ Hp)).
  rewrite (bind_ok _ _ _ _ _ (build_run _ _ _ Ho)).
  rewrite emit_bind; [|repeat apply live_set_trace; assumption|assumption|reflexivity].
  unfold entity at 1. unfold getattr at 1. fold (entity "Person" owner). rewrite Hid.
  cbn. destruct st; simpl. now rewrite <- !app_assoc.
Qed.

Lemma providence_stops_after_the_software_list_witness :
  @MzIdentMLWriter.providence without_attributes
    (VDict [(VStr "name", VStr "engine")]) VNone VNone (entered [])
  = (Raise AttributeError,
     set_trace
       (trace (entered [])
        ++ map (creation "AnalysisSoftware") [VDict [(VStr "name", VStr "engine")]]
        ++ [creation "Person" VNone; creation "Organization" VNone]
        ++ emitted "GenericCollection"
             [VStr "AnalysisSoftwareList";
              VList (map (entity "AnalysisSoftware") [VDict [(VStr "name", VStr "engine")]])]
             [])
       (entered [])).
Proof.
  apply (@providence_stops_after_the_software_list without_attributes
           (VDict [(VStr "name", VStr "engine")]) VNone VNone
           [VDict [(VStr "name", VStr "engine")]] (entered []));
    first [reflexivity | split; reflexivity].
Defined.

(** ** Results pulled from a generator of the caller *)

Lemma step_plain `{Components} adv g s rest st :
  heap st !! g = Some (Generator (SItems (s :: rest)) BPlain) ->
  step_with adv g st
  = (Ok (Some s), set_heap (<[g := Generator (SItems rest) BPlain]> (heap st)) st).
Proof. intros E. unfold step_with. run. rewrite E. cbn [src body]. now run. Qed.

Lemma step_pull `{Components} g g0 r res rest st :
  heap st !! g = Some (Generator (SFrom g0) BResult) ->
  g0 < g ->
  heap st !! g0 = Some (Generator (SItems (r :: rest)) BPlain) ->
  identification_result r = Some res ->
  result_accepted res = true ->
  step_with (next_below g) g st
  = (Ok (Some res),
     set_trace (trace st ++ result_made res)
       (set_heap (<[g0 := Generator (SItems rest) BPlain]> (heap st)) st)).
Proof.
  intros Hg Hlt Hg0 Hr Hacc. unfold step_with at 1. run. rewrite Hg. cbn [src body].
  erewrite bind_ok
    by (apply closing_ok; rewrite next_below_lt by exact Hlt; apply step_plain; exact Hg0).
  cbn beta iota.
  erewrite bind_ok by (apply closing_ok; cbn [yield_with]; eapply call_result_run; eassumption).
  reflexivity.
Qed.

Lemma step_pull_end `{Components} g g0 st :
  heap st !! g = Some (Generator (SFrom g0) BResult) ->
  g0 < g ->
  heap st !! g0 = Some (Generator (SItems []) BPlain) ->
  step_with (next_below g) g st
  = (Ok None, set_heap (alter finished g (heap st)) st).
Proof.
  intros Hg Hlt Hg0. unfold step_with at 1. run. rewrite Hg. cbn [src body].
  erewrite bind_ok
    by (apply closing_ok; rewrite next_below_lt by exact Hlt; eapply step_spent; exact Hg0).
  cbn beta iota. now run.
Qed.

Lemma drain_pulled `{Components} g g0 rs : forall ress fuel st,
  status st = Live ->
  heap st !! g = Some (Generator (SFrom g0) BResult) ->
  g0 < g ->
  heap st !! g0 = Some (Generator (SItems rs) BPlain) ->
  all_built identification_result rs = Some ress ->
  forallb result_accepted ress = true ->
  length rs < fuel ->
  drain next fuel g (fun e => writer_write VWriter [e] []) st
  = (Ok (map (fun _ => tt) ress),
     set_heap (alter finished g (<[g0 := Generator (SItems []) BPlain]> (heap st)))
       (set_trace (trace st ++ streamed_results ress) st)).
Proof.
  induction rs as [|r rs IH]; intros ress fuel st Hlive Hg Hlt Hg0 Hb Hall Hfuel;
    (destruct fuel as [|fuel]; [simpl in Hfuel; lia|]); cbn [drain]; simpl in Hb;
    pose proof (lookup_lt_Some _ _ _ Hg) as Hlen.
  - injection Hb as <-.
    erewrite bind_ok by (rewrite next_run by exact Hlen; eapply step_pull_end; eassumption).
    cbn beta iota. run.
    rewrite (list_insert_id _ _ _ Hg0). simpl. rewrite app_nil_r. now destruct st.
  - destruct (identification_result r) as [res|] eqn:Er; [|discriminate].
    destruct (all_built identification_result rs) as [ress'|] eqn:Ers; [|discriminate].
    injection Hb as <-. simpl in Hall, Hfuel. apply andb_prop in Hall as [Hres Hall].
    erewrite bind_ok by (rewrite next_run by exact Hlen; eapply step_pull; eassumption).
    cbn beta iota.
    erewrite bind_ok by (apply writer_write_run; exact Hlive).
    erewrite bind_ok; cycle 1.
    { apply (IH ress'); [exact Hlive| |exact Hlt| |reflexivity|exact Hall|lia];
        cbn [heap set_trace set_heap].
      - rewrite list_lookup_insert_ne by lia. exact Hg.
      - apply list_lookup_insert_eq. eapply lookup_lt_Some; exact Hg0. }
    run. cbn [heap trace set_trace set_heap map].
    rewrite list_insert_insert_eq. unfold streamed_results. cbn [flat_map].
    destruct st; simpl. now rewrite <- !app_assoc.
Qed.

(** X15.  [spectrum_identification_list] streams from a generator of the
    caller as it does from a list.  The generator expression of line 191
    reads from the generator it is given: the results are built from its
    mappings and written one at a time, each written before the next is
    built, every mapping taken once and in order.  At the end both the
    generator of the caller and the one handed to the builder are spent. *)
Theorem results_pulled_from_a_generator `{Components}
    (id : value) (g0 : nat) (rs ress : list value) (st : state) :
  live st ->
  heap st !! g0 = Some (Generator (SItems rs) BPlain) ->
  all_built identification_result rs = Some ress ->
  forallb result_accepted ress = true ->
  accepts "SpectrumIdentificationList" []
    [("id", id); ("identification_results", VGen (length (heap st)))] = true ->
  plain id = true ->
  exists st',
    MzIdentMLWriter.spectrum_identification_list id (VGen g0) st = (Ok tt, st') /\
    trace st'
    = trace st
      ++ [ENew "SpectrumIdentificationList" []
            [("id", id); ("identification_results", VGen (length (heap st)))];
          EOpen "SpectrumIdentificationList" []
            [("id", id); ("identification_results", VGen (length (heap st)))]]
      ++ streamed_results ress
      ++ [EClose "SpectrumIdentificationList"] /\
    spent g0 st' /\
    spent (length (heap st)) st'.
Proof.
  intros [Hw Hlive] Hg0 Hb Hall Hacc Hid.
  pose proof (lookup_lt_Some _ _ _ Hg0) as Hlt.
  unfold MzIdentMLWriter.spectrum_identification_list.
  assert (Egen : genexp BResult (VGen g0) st
                 = (Ok (VGen (length (heap st))),
                    set_heap (heap st ++ [Generator (SFrom g0) BResult]) st))
    by reflexivity.
  rewrite (bind_ok _ _ _ _ _ Egen). cbn [heap set_heap].
  rewrite (bind_ok _ _ _ _ _ (construct_run _ _ _ _ Hacc)). run.
  cbn [writer set_trace set_heap]. rewrite Hw.
  set (n := length (heap st)) in *.
  set (G := Generator (SFrom g0) BResult).
  assert (L : (heap st ++ [G]) !! n = Some G) by now apply list_lookup_middle.
  assert (L0 : (heap st ++ [G]) !! g0 = Some (Generator (SItems rs) BPlain))
    by (rewrite lookup_app_l by exact Hlt; exact Hg0).
  unfold component_write, py_with.
  erewrite bind_ok by (apply scope_enter_run; exact Hlive).
  eexists. split; [|split; [|split]].
  - eapply leaving_ok.
    + cbn [mapM app map snd]. run.
      rewrite (bind_ok _ _ _ _ _ (stream_plain VWriter id _ Hid)). run.
      erewrite bind_ok; cycle 1.
      { unfold stream, for_each, for_each_with. run.
        erewrite bind_ok; [reflexivity|].
        eapply (drain_pulled n g0); [exact Hlive|exact L|exact Hlt|exact L0|exact Hb|exact Hall|].
        pose proof (pending_bound _ _ _ _ L0). cbn [heap set_trace set_scopes set_heap]. lia. }
      run. reflexivity.
    + eapply scope_exit_run; [exact Hlive|reflexivity].
  - cbn [trace set_trace set_heap set_scopes]. now rewrite <- !app_assoc.
  - exists BPlain. cbn [heap set_trace set_heap set_scopes].
    rewrite list_lookup_alter_ne by lia.
    apply list_lookup_insert_eq. eapply lookup_lt_Some; exact L0.
  - exists BResult. cbn [heap set_trace set_heap set_scopes].
    rewrite list_lookup_alter_eq, list_lookup_insert_ne by lia. now rewrite L.
Qed.

Lemma results_pulled_from_a_generator_witness :
  exists st',
    @MzIdentMLWriter.spectrum_identification_list permissive (VStr "SIL1") (VGen 0)
      holding_a_generator
    = (Ok tt, st') /\
    trace st'
    = trace holding_a_generator
      ++ [ENew "SpectrumIdentificationList" []
            [("id", VStr "SIL1");
             ("identification_results", VGen (length (heap holding_a_generator)))];
          EOpen "SpectrumIdentificationList" []
            [("id", VStr "SIL1");
             ("identification_results", VGen (length (heap holding_a_generator)))]]
      ++ streamed_results (default [] (all_built identification_result [sample_result]))
      ++ [EClose "SpectrumIdentificationList"] /\
    spent 0 st' /\
    spent (length (heap holding_a_generator)) st'.
Proof.
  apply (@results_pulled_from_a_generator permissive (VStr "SIL1") 0 [sample_result]
           (default [] (all_built identification_result [sample_result]))
           holding_a_generator);
    first [reflexivity | split; reflexivity].
Defined.
